(** * Binary asset decoding layer: BinaryReader, PvrDecoder, Mt5Loader

    A shallow embedding of the three JavaScript classes that decode the
    Dreamcast texture format (PVR) and the hierarchical model format (MT5),
    together with the properties stated about them.

    Conventions of the embedding.
    - An [ArrayBuffer] is a [list byte]; a [DataView] accessor is an
      [option]-valued function that is [None] exactly where the JavaScript
      accessor raises a [RangeError].
    - JavaScript numbers that hold integers are [Z]; the 32-bit bitwise
      operators wrap their operands with [toInt32].
    - A method of a class with mutable fields is a computation in the monad
      [M S A := S -> Outcome (A * S)], where [S] is the mutable state the
      method can reach and [Outcome] distinguishes a normal return, a thrown
      exception and the exhaustion of the fuel of an unbounded loop. *)

From Stdlib Require Import ZArith List Lia Bool String Ascii QArith Qabs.
From Stdlib Require Import Strings.Byte.
From stdpp Require Import base option list gmap.
Import ListNotations.

Local Open Scope Z_scope.

(** ** Outcomes and the state-and-exception monad *)

Inductive Exn : Type :=
| RangeError
| InvalidSignature.

Inductive Outcome (A : Type) : Type :=
| Ok (a : A)
| Throw (e : Exn)
| OutOfFuel.

Arguments Ok {A} a.
Arguments Throw {A} e.
Arguments OutOfFuel {A}.

Definition M (S A : Type) : Type := S -> Outcome (A * S).

Definition ret {S A : Type} (a : A) : M S A := fun s => Ok (a, s).

Definition bind {S A B : Type} (m : M S A) (k : A -> M S B) : M S B :=
  fun s =>
    match m s with
    | Ok (a, s') => k a s'
    | Throw e => Throw e
    | OutOfFuel => OutOfFuel
    end.

Definition throw {S A : Type} (e : Exn) : M S A := fun _ => Throw e.
Definition get_state {S : Type} : M S S := fun s => Ok (s, s).
Definition put_state {S : Type} (s : S) : M S unit := fun _ => Ok (tt, s).

Declare Scope js_scope.
Delimit Scope js_scope with js.
Notation "x <- m ;; k" := (bind m (fun x => k))
  (at level 20, m at level 99, k at level 200) : js_scope.
Notation "m ;; k" := (bind m (fun _ => k))
  (at level 100, k at level 200, right associativity) : js_scope.
Local Open Scope js_scope.

(** ** JavaScript 32-bit integer operators *)

Module JS.

(** [ToInt32] of an integer-valued number. *)
Definition toInt32 (z : Z) : Z := (z + 2 ^ 31) mod 2 ^ 32 - 2 ^ 31.

(** [a & b] *)
Definition band (a b : Z) : Z := Z.land (toInt32 a) (toInt32 b).
(** [a | b] *)
Definition bor (a b : Z) : Z := Z.lor (toInt32 a) (toInt32 b).
(** [a << n] *)
Definition shl (a n : Z) : Z := toInt32 (Z.shiftl (toInt32 a) (n mod 32)).
(** [a >> n] *)
Definition shr (a n : Z) : Z := Z.shiftr (toInt32 a) (n mod 32).

(** Truthiness of a number: [0] is falsy, everything else truthy. *)
Definition truthy (z : Z) : bool := negb (z =? 0).

End JS.

(** ** BinaryReader *)

Definition byte_val (b : byte) : Z := Z.of_N (Byte.to_N b).

(** Bytes of a buffer from their numeric values (used to write inputs). *)
Definition byte_of_Z (z : Z) : byte :=
  match Byte.of_N (Z.to_N z) with
  | Some b => b
  | None => "000"%byte
  end.

Definition bytes (l : list Z) : list byte := map byte_of_Z l.

Module DataView.

(** [view.getUint8(pos)]: [None] stands for the [RangeError] raised when
    [pos] is negative or beyond the buffer. *)
Definition getUint8 (buf : list byte) (pos : Z) : option Z :=
  if pos <? 0 then None else byte_val <$> buf !! Z.to_nat pos.

(** [view.getUint16(pos, true)] *)
Definition getUint16 (buf : list byte) (pos : Z) : option Z :=
  b0 ← getUint8 buf pos;
  b1 ← getUint8 buf (pos + 1);
  Some (b0 + 256 * b1).

(** [view.getUint32(pos, true)] *)
Definition getUint32 (buf : list byte) (pos : Z) : option Z :=
  b0 ← getUint8 buf pos;
  b1 ← getUint8 buf (pos + 1);
  b2 ← getUint8 buf (pos + 2);
  b3 ← getUint8 buf (pos + 3);
  Some (b0 + 256 * b1 + 65536 * b2 + 16777216 * b3).

(** Two's-complement reinterpretation of a [w]-bit unsigned value. *)
Definition signed (w : Z) (u : Z) : Z :=
  if u <? 2 ^ (w - 1) then u else u - 2 ^ w.

(** [view.getInt16(pos, true)] *)
Definition getInt16 (buf : list byte) (pos : Z) : option Z :=
  signed 16 <$> getUint16 buf pos.

(** [view.getInt32(pos, true)] *)
Definition getInt32 (buf : list byte) (pos : Z) : option Z :=
  signed 32 <$> getUint32 buf pos.

End DataView.

(** A single-precision float is kept as its IEEE-754 bit pattern; the
    number [0] returned by the fail-soft branch is the pattern [0]. *)
Record F32 : Type := mkF32 { f32_bits : Z }.

Definition f32_zero : F32 := mkF32 0.

(** Unary minus flips the sign bit. *)
Definition f32_neg (f : F32) : F32 := mkF32 (Z.lxor (f32_bits f) (2 ^ 31)).

Record BinaryReader : Type := mkReader {
  buffer : list byte;
  offset : Z
}.

Module Reader.

Definition new (buf : list byte) : BinaryReader := mkReader buf 0.

(** [this.size = buffer.byteLength] never changes after construction. *)
Definition size (r : BinaryReader) : Z := Z.of_nat (length (buffer r)).

Definition set_offset (r : BinaryReader) (o : Z) : BinaryReader :=
  mkReader (buffer r) o.

Definition canRead (r : BinaryReader) (len : Z) : bool :=
  offset r + len <=? size r.

(** The shape shared by every fixed-width read: a guard that clamps the
    cursor and returns [zero], else a [DataView] access and an advance. *)
Definition readFixed {A : Type} (width : Z) (zero : A)
    (access : list byte -> Z -> option A) : M BinaryReader A :=
  fun r =>
    if negb (canRead r width) then Ok (zero, set_offset r (size r))
    else match access (buffer r) (offset r) with
         | Some val => Ok (val, set_offset r (offset r + width))
         | None => Throw RangeError
         end.

Definition readUInt32 : M BinaryReader Z := readFixed 4 0 DataView.getUint32.
Definition readInt32 : M BinaryReader Z := readFixed 4 0 DataView.getInt32.
Definition readUInt16 : M BinaryReader Z := readFixed 2 0 DataView.getUint16.
Definition readUInt8 : M BinaryReader Z := readFixed 1 0 DataView.getUint8.
Definition readInt16 : M BinaryReader Z := readFixed 2 0 DataView.getInt16.
Definition readShort : M BinaryReader Z := readInt16.
Definition readUShort : M BinaryReader Z := readUInt16.
Definition readFloat32 : M BinaryReader F32 :=
  readFixed 4 f32_zero (fun buf pos => mkF32 <$> DataView.getUint32 buf pos).

(** [readUInt16At(pos)] does not move the cursor. *)
Definition readUInt16At (pos : Z) : M BinaryReader Z :=
  fun r =>
    if size r <? pos + 2 then Ok (0, r)
    else match DataView.getUint16 (buffer r) pos with
         | Some val => Ok (val, r)
         | None => Throw RangeError
         end.

(** [readBytes(len)]: the [Uint8Array] constructor raises a [RangeError]
    for a negative start offset. *)
Definition readBytes (len : Z) : M BinaryReader (list byte) :=
  fun r =>
    let actualLen := Z.min len (size r - offset r) in
    if actualLen <=? 0 then Ok ([], r)
    else if offset r <? 0 then Throw RangeError
    else Ok (take (Z.to_nat actualLen) (drop (Z.to_nat (offset r)) (buffer r)),
             set_offset r (offset r + actualLen)).

Definition seek (pos : Z) : M BinaryReader unit :=
  fun r => Ok (tt, set_offset r (Z.max 0 (Z.min pos (size r)))).

Definition skip (len : Z) : M BinaryReader unit :=
  fun r => seek (offset r + len) r.

Definition tell : M BinaryReader Z := fun r => Ok (offset r, r).

(** [this.offset += n], the unclamped update used by two callers. *)
Definition bump (n : Z) : M BinaryReader unit :=
  fun r => Ok (tt, set_offset r (offset r + n)).

Definition fromCharCode (c : Z) : string :=
  String (ascii_of_N (Z.to_N c)) EmptyString.

(** [readString(len)]: [n] counts the iterations still to run, so that
    [len - i - 1] of the source is the predecessor of [n]. *)
Fixpoint readString_loop (n : nat) (str : string) : M BinaryReader string :=
  match n with
  | O => ret str
  | S n' =>
      r <- get_state ;;
      if negb (canRead r 1) then ret str
      else
        charCode <- readUInt8 ;;
        if charCode =? 0 then bump (Z.of_nat n') ;; ret str
        else readString_loop n' (str ++ fromCharCode charCode)%string
  end.

Definition readString (len : nat) : M BinaryReader string :=
  readString_loop len EmptyString.

(** Reader states the class can reach: the cursor is never negative. *)
Definition wf (r : BinaryReader) : Prop := 0 <= offset r.

End Reader.

(** ** PvrDecoder *)

(** The fields of the texture object that [decode] fills in. *)
Record Texture : Type := mkTexture {
  tex_pixels : list Z;
  tex_width : Z;
  tex_height : Z;
  tex_hasAlpha : bool;
  tex_hasGradientAlpha : bool
}.

Module PvrDecoder.

Import Reader.

Definition decodeColor (v format : Z) : Z * Z * Z * Z :=
  if format =? 0 then
    let a := if JS.truthy (JS.band v 0x8000) then 255 else 0 in
    let r := JS.shl (JS.band (JS.shr v 10) 0x1f) 3 in
    let g := JS.shl (JS.band (JS.shr v 5) 0x1f) 3 in
    let b := JS.shl (JS.band v 0x1f) 3 in
    (r, g, b, a)
  else if format =? 1 then
    let a := 255 in
    let r := JS.shl (JS.band (JS.shr v 11) 0x1f) 3 in
    let g := JS.shl (JS.band (JS.shr v 5) 0x3f) 2 in
    let b := JS.shl (JS.band v 0x1f) 3 in
    (r, g, b, a)
  else if format =? 2 then
    let a := JS.shl (JS.band (JS.shr v 12) 0x0f) 4 in
    let r := JS.shl (JS.band (JS.shr v 8) 0x0f) 4 in
    let g := JS.shl (JS.band (JS.shr v 4) 0x0f) 4 in
    let b := JS.shl (JS.band v 0x0f) 4 in
    (r, g, b, a)
  else (255, 255, 255, 255).

(** The body of the [for (i = 0; i < 10; i++)] loop of [untwiddle];
    [n] iterations remain and [i] is the loop variable. *)
Fixpoint untwiddle_loop (n : nat) (i x y res : Z) : Z :=
  match n with
  | O => res
  | S n' =>
      let res1 :=
        JS.bor res (if JS.truthy (JS.band x (JS.shl 1 i))
                    then JS.shl 1 (2 * i + 1) else 0) in
      let res2 :=
        JS.bor res1 (if JS.truthy (JS.band y (JS.shl 1 i))
                     then JS.shl 1 (2 * i) else 0) in
      untwiddle_loop n' (i + 1) x y res2
  end.

Definition untwiddle (x y : Z) : Z := untwiddle_loop 10 0 x y 0.

(** A [Uint8Array] store: the value is reduced modulo 256 and a store
    outside the array is ignored. *)
Definition store8 (arr : list Z) (idx : Z) (v : Z) : list Z :=
  if idx <? 0 then arr else <[Z.to_nat idx := v mod 256]> arr.

Definition storeRGBA (arr : list Z) (destIdx : Z) (c : Z * Z * Z * Z) : list Z :=
  let '(r, g, b, a) := c in
  store8 (store8 (store8 (store8 arr destIdx r) (destIdx + 1) g)
                 (destIdx + 2) b) (destIdx + 3) a.

(** [new Uint8Array(n)] *)
Definition newUint8Array (n : Z) : list Z := replicate (Z.to_nat n) 0.

Section DecodeRaw.
Variables (width height colorFormat : Z) (isTwiddled : bool).

Definition dataStart : Z := 8.

Fixpoint decodeRaw_row (n : nat) (x y : Z) (rgba : list Z)
    : M BinaryReader (list Z) :=
  match n with
  | O => ret rgba
  | S n' =>
      let srcIdx := if isTwiddled then untwiddle x y else y * width + x in
      color <- readUInt16At (dataStart + srcIdx * 2) ;;
      let destIdx := (y * width + x) * 4 in
      decodeRaw_row n' (x + 1) y
        (storeRGBA rgba destIdx (decodeColor color colorFormat))
  end.

Fixpoint decodeRaw_rows (n : nat) (y : Z) (rgba : list Z)
    : M BinaryReader (list Z) :=
  match n with
  | O => ret rgba
  | S n' =>
      rgba' <- decodeRaw_row (Z.to_nat width) 0 y rgba ;;
      decodeRaw_rows n' (y + 1) rgba'
  end.

Definition decodeRaw : M BinaryReader (list Z) :=
  decodeRaw_rows (Z.to_nat height) 0 (newUint8Array (width * height * 4)).
End DecodeRaw.

Section DecodeVQ.
Variables (width height colorFormat : Z).

(** The 256 codebook entries, four colours each. *)
Fixpoint readCodebook (n : nat) (codebook : list (list Z))
    : M BinaryReader (list (list Z)) :=
  match n with
  | O => ret codebook
  | S n' =>
      c0 <- readUInt16 ;;
      c1 <- readUInt16 ;;
      c2 <- readUInt16 ;;
      c3 <- readUInt16 ;;
      readCodebook n' (codebook ++ [[c0; c1; c2; c3]])
  end.

(** The four texels of one 2x2 block, [i] = 0..3. *)
Fixpoint vq_block (n : nat) (i x y : Z) (block : list Z) (rgba : list Z)
    : list Z :=
  match n with
  | O => rgba
  | S n' =>
      let bx := i mod 2 in
      let by_ := i / 2 in
      let destIdx := ((y * 2 + by_) * width + (x * 2 + bx)) * 4 in
      let c := decodeColor (nth (Z.to_nat i) block 0) colorFormat in
      vq_block n' (i + 1) x y block (storeRGBA rgba destIdx c)
  end.

Fixpoint decodeVQ_row (n : nat) (x y start : Z) (codebook : list (list Z))
    (rgba : list Z) : M BinaryReader (list Z) :=
  match n with
  | O => ret rgba
  | S n' =>
      let twiddledIdx := untwiddle x y in
      seek (start + twiddledIdx) ;;
      codeIdx <- readUInt8 ;;
      if Z.of_nat (length codebook) <=? codeIdx
      then decodeVQ_row n' (x + 1) y start codebook rgba
      else
        let block := nth (Z.to_nat codeIdx) codebook [] in
        decodeVQ_row n' (x + 1) y start codebook (vq_block 4 0 x y block rgba)
  end.

(** Number of integers [k >= 0] with [k < d / 2], the trip count of a
    loop bounded by the real number [d / 2]. *)
Definition half_trips (d : Z) : nat := Z.to_nat ((d + 1) / 2).

Fixpoint decodeVQ_rows (n : nat) (y start : Z) (codebook : list (list Z))
    (rgba : list Z) : M BinaryReader (list Z) :=
  match n with
  | O => ret rgba
  | S n' =>
      rgba' <- decodeVQ_row (half_trips width) 0 y start codebook rgba ;;
      decodeVQ_rows n' (y + 1) start codebook rgba'
  end.

Definition decodeVQ : M BinaryReader (list Z) :=
  codebook <- readCodebook 256 [] ;;
  let rgba := newUint8Array (width * height * 4) in
  start <- tell ;;
  decodeVQ_rows (half_trips height) 0 start codebook rgba.
End DecodeVQ.

(** [decode(scene)]; the pixel array is always truthy, so the
    [return null] of the source is never taken. *)
Definition decode : M BinaryReader Texture :=
  sig <- readString 4 ;;
  (if String.eqb sig "PVRT" then skip 4 else seek 0) ;;
  colorFormat <- readUInt8 ;;
  dataFormat <- readUInt8 ;;
  bump 2 ;;
  width <- readUInt16 ;;
  height <- readUInt16 ;;
  let hasAlpha := (colorFormat =? 0) || (colorFormat =? 2) in
  let hasGradientAlpha := colorFormat =? 2 in
  let isVQ := (dataFormat =? 0x03) || (dataFormat =? 0x04) in
  let isTwiddled :=
    (dataFormat =? 0x01) || (dataFormat =? 0x02) || (dataFormat =? 0x03)
    || (dataFormat =? 0x04) || (dataFormat =? 0x11) in
  pixelData <- (if isVQ then decodeVQ width height colorFormat
                else decodeRaw width height colorFormat isTwiddled) ;;
  ret (mkTexture pixelData width height hasAlpha hasGradientAlpha).

(** [new PvrDecoder(arrayBuffer).decode(scene)] *)
Definition decodeBuffer (buf : list byte) : Outcome Texture :=
  match decode (Reader.new buf) with
  | Ok (t, _) => Ok t
  | Throw e => Throw e
  | OutOfFuel => OutOfFuel
  end.

End PvrDecoder.

(** ** Mt5Loader *)

(** UV coordinates and vertex colours are JavaScript doubles computed from
    small integers by one multiplication or division; they are kept as the
    exact rationals those doubles round.  The only test made on them,
    [Math.abs(u) > 1.0], has the same outcome on the rational and on its
    rounding, since a quotient of 16-bit integers that exceeds 1 exceeds it
    by more than the rounding error. *)
Record StripVertex : Type := mkStripVertex {
  sv_idx : Z;
  sv_u : Q;
  sv_v : Q;
  sv_color : list Q
}.

Record Poly : Type := mkPoly {
  poly_strips : list (list StripVertex);
  poly_head : Z;
  poly_texId : Z
}.

Record Vertex : Type := mkVertex {
  v_pos : list F32;
  v_norm : list F32
}.

Record Model : Type := mkModel {
  m_flag : Z;
  m_vertexAddr : Z;
  m_nbVertex : Z;
  m_polygonAddr : Z;
  m_center : F32 * F32 * F32;
  m_radius : F32;
  m_vertexBase : Z;
  m_polygons : option (list Poly)
}.

(** What [node.mesh] is bound to; the Babylon objects themselves belong to
    the renderer. *)
Inductive MeshKind : Type :=
| MeshFromModel
| DummyTransform.

(** A node record.  The three rotation angles are kept as the signed
    fixed-point values read from the buffer (unit 1/65536 turn); their
    conversion to radians is floating-point arithmetic on the renderer's
    side of the interface. *)
Record Node : Type := mkNode {
  n_addr : Z;
  n_flag : Z;
  n_modelAddr : Z;
  n_rot : Z * Z * Z;
  n_scl : F32 * F32 * F32;
  n_pos : F32 * F32 * F32;
  n_child : Z;
  n_sibling : Z;
  n_parentAddr : Z;
  n_unk1 : Z;
  n_unk2 : Z;
  n_model : option Model;
  n_mesh : option MeshKind
}.

(** A pending external reference: the identifier bytes [readBytes(8)]
    returned and the slot ordinal at enumeration time. *)
Record NameRequest : Type := mkNameRequest {
  req_id : list byte;
  req_index : Z
}.

(** The mutable state an [Mt5Loader] method can reach: the fields of the
    loader, the [reader] it is handed and the [nodes] array of [load].
    [st_cacheSets] is a history variable: the keys passed to
    [textureCache.set], in call order.  No modelled statement reads it. *)
Record State : Type := mkState {
  st_reader : BinaryReader;
  st_textureCache : gmap Z Texture;
  st_globalVertices : list Vertex;
  st_vertexOffset : Z;
  st_nodes : list Node;
  st_cacheSets : list Z
}.

(** The [secondaryBuffer] argument of [load]. *)
Inductive Secondary : Type :=
| NoSecondary
| LegacyBuffer (buf : list byte)
| Packs (base time : option (list byte)).

Module Mt5Loader.

Import Reader.

(** *** Polygon command stream *)

(** [0.000015258789] and [0.00000000023283064] *)
Definition uvh_scale : Q := 15258789 # 1000000000000.
Definition large_scale : Q := 23283064 # 100000000000000000.

(** The standard-mode branch on [Math.abs(tex) < 0xF000]. *)
Definition scaleStandard (uvSize tex : Z) : Q :=
  if Z.abs tex <? 0xF000 then (inject_Z tex / inject_Z uvSize)%Q
  else (inject_Z tex * large_scale)%Q.

Definition scaleUV (isUVH : bool) (uvSize tex : Z) : Q :=
  if isUVH then (inject_Z tex * uvh_scale)%Q else scaleStandard uvSize tex.

(** [if (mirror && Math.abs(u) > 1.0) u /= 2.0] *)
Definition mirrorUV (mirror : bool) (u : Q) : Q :=
  if mirror && negb (Qle_bool (Qabs u) 1) then (u / 2)%Q else u.

(** Relative vertex index of a strip entry. *)
Definition resolveIndex (vertexBase nbVertex rawIdx : Z) : Z :=
  if rawIdx <? 0 then vertexBase + nbVertex + rawIdx
  else vertexBase + rawIdx.

Definition hasUV (type : Z) : bool :=
  (type =? 0x11) || (type =? 0x14) || (type =? 0x19) || (type =? 0x1C).

Definition hasColor (type : Z) : bool :=
  (type =? 0x12) || (type =? 0x14) || (type =? 0x1A) || (type =? 0x1C).

(** The variables of [readPolygons] that live across records. *)
Record PolyState : Type := mkPolyState {
  ps_polygons : list Poly;
  ps_currentTexIdx : Z;
  ps_isUVH : bool;
  ps_uvSize : Z;
  ps_uMirror : bool;
  ps_vMirror : bool
}.

Definition ps_init : PolyState := mkPolyState [] 0 false 1024 false false.

Section Strips.
Variables (vertexBase nbVertex : Z) (type : Z) (ps : PolyState).

(** One pass of the [for (k ...)] body: a strip entry. *)
Definition readStripEntry : M BinaryReader StripVertex :=
  rawIdx <- readShort ;;
  let idx := resolveIndex vertexBase nbVertex rawIdx in
  uv <- (if hasUV type then
           texU <- readShort ;;
           texV <- readShort ;;
           let u := scaleUV (ps_isUVH ps) (ps_uvSize ps) texU in
           let v := scaleUV (ps_isUVH ps) (ps_uvSize ps) texV in
           ret (mirrorUV (ps_uMirror ps) u, mirrorUV (ps_vMirror ps) v)
         else ret (0%Q, 0%Q)) ;;
  color <- (if hasColor type then
              b <- readUInt8 ;;
              g <- readUInt8 ;;
              r <- readUInt8 ;;
              a <- readUInt8 ;;
              ret [(inject_Z r / 255)%Q; (inject_Z g / 255)%Q;
                   (inject_Z b / 255)%Q; (inject_Z a / 255)%Q]
            else ret [1%Q; 1%Q; 1%Q; 1%Q]) ;;
  ret (mkStripVertex idx uv.1 uv.2 color).

Fixpoint readStrip (n : nat) (strip : list StripVertex)
    : M BinaryReader (list StripVertex) :=
  match n with
  | O => ret strip
  | S n' =>
      entry <- readStripEntry ;;
      readStrip n' (strip ++ [entry])
  end.

(** The [for (i < nbStrips)] loop. *)
Fixpoint readStrips (n : nat) (strips : list (list StripVertex))
    : M BinaryReader (list (list StripVertex)) :=
  match n with
  | O => ret strips
  | S n' =>
      stripLenRaw <- readShort ;;
      let absStripLen := Z.abs stripLenRaw in
      strip <- readStrip (Z.to_nat absStripLen) [] ;;
      readStrips n' (strips ++ [strip])
  end.
End Strips.

Definition byteAt (data : list byte) (i : nat) : Z :=
  byte_val (nth i data "000"%byte).

Section Polygons.
Variables (vertexBase nbVertex : Z).

(** The [while] loop of [readPolygons]; [n] is [10000 - iterations]. *)
Fixpoint readPolygons_loop (n : nat) (ps : PolyState)
    : M BinaryReader (list Poly) :=
  match n with
  | O => ret (ps_polygons ps)
  | S n' =>
      r <- get_state ;;
      if negb (offset r <? size r - 2) then ret (ps_polygons ps)
      else
        type <- readUShort ;;
        if type =? 0x8000 then ret (ps_polygons ps)
        else if (type =? 0x0000) || (type =? 0xFFFF) then
          readPolygons_loop n' ps
        else if (0x0002 <=? type) && (type <=? 0x0007) then
          sz <- readUShort ;;
          data <- readBytes sz ;;
          let isUVH :=
            if 1 <=? Z.of_nat (length data)
            then JS.band (byteAt data 0) 1 =? 1 else ps_isUVH ps in
          let uMirror :=
            if 11 <=? Z.of_nat (length data)
            then JS.band (byteAt data 10) 4 =? 4 else ps_uMirror ps in
          let vMirror :=
            if 11 <=? Z.of_nat (length data)
            then JS.band (byteAt data 10) 2 =? 2 else ps_vMirror ps in
          readPolygons_loop n'
            (mkPolyState (ps_polygons ps) (ps_currentTexIdx ps) isUVH
                         (ps_uvSize ps) uMirror vMirror)
        else if type =? 0x0009 then
          texIdx <- readUShort ;;
          readPolygons_loop n'
            (mkPolyState (ps_polygons ps) texIdx (ps_isUVH ps)
                         (ps_uvSize ps) (ps_uMirror ps) (ps_vMirror ps))
        else if type =? 0x000B then
          sizeVal <- readUShort ;;
          let uvSize := if sizeVal =? 0 then ps_uvSize ps else sizeVal in
          readPolygons_loop n'
            (mkPolyState (ps_polygons ps) (ps_currentTexIdx ps)
                         (ps_isUVH ps) uvSize (ps_uMirror ps) (ps_vMirror ps))
        else if (type =? 0x0008) || (type =? 0x000A) then
          skip 2 ;;
          readPolygons_loop n' ps
        else if (type =? 0x000E) || (type =? 0x000F) then
          skip 10 ;;
          readPolygons_loop n' ps
        else if (0x10 <=? type) && (type <=? 0x1F) then
          unknown <- readUShort ;;
          nbStrips <- readUShort ;;
          strips <- readStrips vertexBase nbVertex type ps
                      (Z.to_nat nbStrips) [] ;;
          let poly := mkPoly strips type (ps_currentTexIdx ps) in
          readPolygons_loop n'
            (mkPolyState (ps_polygons ps ++ [poly]) (ps_currentTexIdx ps)
                         (ps_isUVH ps) (ps_uvSize ps) (ps_uMirror ps)
                         (ps_vMirror ps))
        else ret (ps_polygons ps)
  end.

Definition readPolygons : M BinaryReader (list Poly) :=
  readPolygons_loop (Z.to_nat 10000) ps_init.
End Polygons.

(** *** Lifting reader methods to the loader state *)

Definition set_reader (s : State) (r : BinaryReader) : State :=
  mkState r (st_textureCache s) (st_globalVertices s) (st_vertexOffset s)
          (st_nodes s) (st_cacheSets s).

Definition rd {A : Type} (m : M BinaryReader A) : M State A :=
  fun s =>
    match m (st_reader s) with
    | Ok (a, r') => Ok (a, set_reader s r')
    | Throw e => Throw e
    | OutOfFuel => OutOfFuel
    end.

(** [this.globalVertices.push(v)] *)
Definition pushVertex (v : Vertex) : M State unit :=
  fun s => Ok (tt, mkState (st_reader s) (st_textureCache s)
                           (st_globalVertices s ++ [v]) (st_vertexOffset s)
                           (st_nodes s) (st_cacheSets s)).

(** [this.vertexOffset += n] *)
Definition addVertexOffset (n : Z) : M State unit :=
  fun s => Ok (tt, mkState (st_reader s) (st_textureCache s)
                           (st_globalVertices s) (st_vertexOffset s + n)
                           (st_nodes s) (st_cacheSets s)).

(** [nodes.push(node)] *)
Definition pushNode (nd : Node) : M State unit :=
  fun s => Ok (tt, mkState (st_reader s) (st_textureCache s)
                           (st_globalVertices s) (st_vertexOffset s)
                           (st_nodes s ++ [nd]) (st_cacheSets s)).

(** [this.textureCache.set(k, tex)] *)
Definition cacheSet (k : Z) (tex : Texture) : M State unit :=
  fun s => Ok (tt, mkState (st_reader s) (<[k := tex]> (st_textureCache s))
                           (st_globalVertices s) (st_vertexOffset s)
                           (st_nodes s) (st_cacheSets s ++ [k])).

(** [this.textureCache.has(k)] *)
Definition cacheHas (k : Z) : M State bool :=
  fun s => Ok (bool_decide (is_Some (st_textureCache s !! k)), s).

(** The test [addr && addr > 0 && addr < reader.size]. *)
Definition validAddr (addr sz : Z) : bool :=
  negb (addr =? 0) && (0 <? addr) && (addr <? sz).

(** *** Mesh decode *)

(** The [for (i < nbVertex)] loop with its [break]. *)
Fixpoint readVertices (n : nat) : M State unit :=
  match n with
  | O => ret tt
  | S n' =>
      s <- get_state ;;
      if negb (canRead (st_reader s) 24) then ret tt
      else
        x <- rd readFloat32 ;;
        y <- rd readFloat32 ;;
        z <- rd readFloat32 ;;
        nx <- rd readFloat32 ;;
        ny <- rd readFloat32 ;;
        nz <- rd readFloat32 ;;
        pushVertex (mkVertex [f32_neg x; y; z] [f32_neg nx; ny; nz]) ;;
        readVertices n'
  end.

(** The body of [if (model.polygonAddr && ...)]: the polygon stream of one
    mesh, decoded between a save and a restore of the cursor. *)
Definition readModelPolygons (polygonAddr vertexBase nbVertex : Z)
    : M State (list Poly) :=
  saved <- rd tell ;;
  rd (seek polygonAddr) ;;
  polys <- rd (readPolygons vertexBase nbVertex) ;;
  rd (seek saved) ;;
  ret polys.

Definition readModel : M State Model :=
  addr <- rd tell ;;
  flag <- rd readUInt32 ;;
  vertexAddr <- rd readUInt32 ;;
  nbVertex <- rd readUInt32 ;;
  polygonAddr <- rd readUInt32 ;;
  cx <- rd readFloat32 ;;
  cy <- rd readFloat32 ;;
  cz <- rd readFloat32 ;;
  radius <- rd readFloat32 ;;
  s0 <- get_state ;;
  let vertexBase := st_vertexOffset s0 in
  (if validAddr vertexAddr (size (st_reader s0)) then
     saved <- rd tell ;;
     rd (seek vertexAddr) ;;
     readVertices (Z.to_nat nbVertex) ;;
     addVertexOffset nbVertex ;;
     rd (seek saved)
   else ret tt) ;;
  polygons <- (if validAddr polygonAddr (size (st_reader s0)) then
                 polys <- readModelPolygons polygonAddr vertexBase nbVertex ;;
                 ret (Some polys)
               else ret None) ;;
  ret (mkModel flag vertexAddr nbVertex polygonAddr (cx, cy, cz) radius
               vertexBase polygons).

(** [createMeshFromModel] returns [null] without polygons and a Babylon
    mesh otherwise; it only reads the loader's fields. *)
Definition createMeshFromModel (model : Model) : option MeshKind :=
  match m_polygons model with
  | None => None
  | Some [] => None
  | Some (_ :: _) => Some MeshFromModel
  end.

(** *** Node tree *)

Definition visited (nodes : list Node) (nodeAddr : Z) : bool :=
  existsb (fun n => n_addr n =? nodeAddr) nodes.

(** [readNode(reader, nodes)].  The recursion of the source is bounded by
    [fuel] calls of depth; [OutOfFuel] stands for a recursion deeper than
    that. *)
Fixpoint readNode (fuel : nat) : M State unit :=
  match fuel with
  | O => fun _ => OutOfFuel
  | S fuel' =>
      s <- get_state ;;
      if negb (canRead (st_reader s) 64) then ret tt
      else
        let nodeAddr := offset (st_reader s) in
        if visited (st_nodes s) nodeAddr then ret tt
        else
          flag <- rd readUInt32 ;;
          modelAddr <- rd readUInt32 ;;
          rx <- rd readInt32 ;;
          ry <- rd readInt32 ;;
          rz <- rd readInt32 ;;
          sx <- rd readFloat32 ;;
          sy <- rd readFloat32 ;;
          sz <- rd readFloat32 ;;
          px <- rd readFloat32 ;;
          py <- rd readFloat32 ;;
          pz <- rd readFloat32 ;;
          child <- rd readUInt32 ;;
          sibling <- rd readUInt32 ;;
          parentAddr <- rd readUInt32 ;;
          unk1 <- rd readUInt32 ;;
          unk2 <- rd readUInt32 ;;
          model <- (if validAddr modelAddr (size (st_reader s)) then
                      saved <- rd tell ;;
                      rd (seek modelAddr) ;;
                      m <- readModel ;;
                      rd (seek saved) ;;
                      ret (Some m)
                    else ret None) ;;
          let mesh :=
            match model with
            | Some m => createMeshFromModel m
            | None => Some DummyTransform
            end in
          pushNode (mkNode nodeAddr flag modelAddr (rx, ry, rz) (sx, sy, sz)
                           (px, py, pz) child sibling parentAddr unk1 unk2
                           model mesh) ;;
          (if negb (child =? 0) && (child <? size (st_reader s)) then
             rd (seek child) ;;
             readNode fuel'
           else ret tt) ;;
          (if negb (sibling =? 0) && (sibling <? size (st_reader s)) then
             rd (seek sibling) ;;
             readNode fuel'
           else ret tt)
  end.

(** *** Texture directory *)

(** [buffer.slice(begin, end)] *)
Definition slice (buf : list byte) (b e : Z) : list byte :=
  let len := Z.of_nat (length buf) in
  let first := if b <? 0 then Z.max (len + b) 0 else Z.min b len in
  let final := if e <? 0 then Z.max (len + e) 0 else Z.min e len in
  take (Z.to_nat (final - first)) (drop (Z.to_nat first) buf).

(** [new PvrDecoder(pvrBuffer).decode(this.scene)] *)
Definition decodePvr (pvrBuffer : list byte) : M State Texture :=
  fun s =>
    match PvrDecoder.decodeBuffer pvrBuffer with
    | Ok tex => Ok (tex, s)
    | Throw e => Throw e
    | OutOfFuel => OutOfFuel
    end.

(** A method call on a reader other than [reader], here the pack reader:
    the call returns its result and the reader it leaves behind. *)
Definition onReader {A : Type} (m : M BinaryReader A) (sec : BinaryReader)
    : M State (A * BinaryReader) :=
  fun s =>
    match m sec with
    | Ok (a, sec') => Ok ((a, sec'), s)
    | Throw e => Throw e
    | OutOfFuel => OutOfFuel
    end.

(** Trip count of [for (i = 0; i < a / b; i++)] for [0 <= a], [0 < b]. *)
Definition trips (a b : Z) : nat := Z.to_nat ((a + b - 1) / b).

Section Directory.
Variables (nbTex : Z) (skipExisting : bool).

(** The scan for the nested tag inside an embedded-image block. *)
Fixpoint texnScan (fuel : nat) (nodeEnd texCounter : Z) : M State unit :=
  match fuel with
  | O => fun _ => OutOfFuel
  | S fuel' =>
      pos <- rd tell ;;
      if negb (pos <? nodeEnd - 4) then ret tt
      else
        tag <- rd (readString 4) ;;
        if String.eqb tag "PVRT" then
          pvrLen <- rd readUInt32 ;;
          s <- get_state ;;
          let start := offset (st_reader s) in
          tex <- decodePvr (slice (buffer (st_reader s)) start (start + pvrLen)) ;;
          cacheSet texCounter tex
        else
          rd (skip (-3)) ;;
          texnScan fuel' nodeEnd texCounter
  end.

(** The [for (i < numEntries)] loop of an external-reference block; it
    returns the slot counter and the pending requests. *)
Fixpoint nameLoop (n : nat) (texCounter : Z) (reqs : list NameRequest)
    : M State (Z * list NameRequest) :=
  match n with
  | O => ret (texCounter, reqs)
  | S n' =>
      id <- rd (readBytes 8) ;;
      has <- cacheHas texCounter ;;
      if skipExisting && has then
        if nbTex <=? texCounter + 1 then ret (texCounter + 1, reqs)
        else nameLoop n' (texCounter + 1) reqs
      else
        let reqs' := reqs ++ [mkNameRequest id texCounter] in
        if nbTex <=? texCounter + 1 then ret (texCounter + 1, reqs')
        else nameLoop n' (texCounter + 1) reqs'
  end.

(** The [while (texCounter < nbTex && reader.canRead(8))] loop. *)
Fixpoint dirLoop (scanFuel fuel : nat) (texCounter : Z)
    (reqs : list NameRequest) : M State (list NameRequest) :=
  match fuel with
  | O => fun _ => OutOfFuel
  | S fuel' =>
      s <- get_state ;;
      if negb ((texCounter <? nbTex) && canRead (st_reader s) 8) then ret reqs
      else
        let startPos := offset (st_reader s) in
        marker <- rd (readString 4) ;;
        nodeSize <- rd readUInt32 ;;
        if (nodeSize <? 8) || (0x1000000 <? nodeSize) then ret reqs
        else
          let nodeEnd := startPos + nodeSize in
          if String.eqb marker "TEXN" then
            has <- cacheHas texCounter ;;
            if skipExisting && has then
              rd (seek nodeEnd) ;;
              dirLoop scanFuel fuel' (texCounter + 1) reqs
            else
              id <- rd (readBytes 8) ;;
              texnScan scanFuel nodeEnd texCounter ;;
              rd (seek nodeEnd) ;;
              dirLoop scanFuel fuel' (texCounter + 1) reqs
          else if String.eqb marker "NAME" then
            res <- nameLoop (trips (nodeSize - 8) 8) texCounter reqs ;;
            rd (seek nodeEnd) ;;
            dirLoop scanFuel fuel' res.1 res.2
          else if String.eqb marker "PVRT" then
            has <- cacheHas texCounter ;;
            if skipExisting && has then
              rd (seek nodeEnd) ;;
              dirLoop scanFuel fuel' (texCounter + 1) reqs
            else
              pvrLen <- rd readUInt32 ;;
              s1 <- get_state ;;
              let start := offset (st_reader s1) in
              tex <- decodePvr (slice (buffer (st_reader s1)) start
                                      (start + pvrLen)) ;;
              cacheSet texCounter tex ;;
              rd (seek nodeEnd) ;;
              dirLoop scanFuel fuel' (texCounter + 1) reqs
          else
            rd (seek nodeEnd) ;;
            dirLoop scanFuel fuel' texCounter reqs
  end.
End Directory.

(** The [while] loop over the records of a pack, for one request. *)
Fixpoint packScan (fuel : nat) (reqHi reqLo index : Z) (sec : BinaryReader)
    : M State BinaryReader :=
  match fuel with
  | O => fun _ => OutOfFuel
  | S fuel' =>
      if negb (offset sec <? size sec - 12) then ret sec
      else
        let entryPos := offset sec in
        match DataView.getUint32 (buffer sec) entryPos,
              DataView.getUint32 (buffer sec) (entryPos + 4),
              DataView.getUint32 (buffer sec) (entryPos + 8) with
        | Some entryHi, Some entryLo, Some entryLen =>
            if (entryLen =? 0) || (0x1000000 <? entryLen) then ret sec
            else
              sec1 <- onReader (seek (entryPos + 12)) sec ;;
              if (entryHi =? reqHi) && (entryLo =? reqLo) then
                let start := offset sec1.2 in
                tex <- decodePvr (slice (buffer sec1.2) start (start + entryLen)) ;;
                cacheSet index tex ;;
                ret sec1.2
              else
                sec2 <- onReader (skip entryLen) sec1.2 ;;
                packScan fuel' reqHi reqLo index sec2.2
        | _, _, _ => throw RangeError
        end
  end.

(** [nameRequests.forEach(...)].  [req.id] is a view of the model buffer
    at the position it was read from, so the 8-byte [DataView] built on it
    raises a [RangeError] exactly when fewer than 8 bytes were left. *)
Fixpoint resolveAll (fuel : nat) (reqs : list NameRequest) (sec : BinaryReader)
    : M State BinaryReader :=
  match reqs with
  | [] => ret sec
  | req :: rest =>
      if Z.of_nat (length (req_id req)) <? 8 then throw RangeError
      else
        match DataView.getUint32 (req_id req) 0,
              DataView.getUint32 (req_id req) 4 with
        | Some reqHi, Some reqLo =>
            sec0 <- onReader (seek 0) sec ;;
            sec' <- packScan fuel reqHi reqLo (req_index req) sec0.2 ;;
            resolveAll fuel rest sec'
        | _, _ => throw RangeError
        end
  end.

(** [readTextures(reader, secondaryReader, skipExisting)]; [fuel] bounds
    each of its three [while] loops. *)
Definition readTextures (fuel : nat) (secondaryReader : option BinaryReader)
    (skipExisting : bool) : M State unit :=
  texdStart <- rd tell ;;
  tag <- rd (readString 4) ;;
  if negb (String.eqb tag "TEXD") then ret tt
  else
    headerSize <- rd readUInt32 ;;
    nbTex <- rd readUInt32 ;;
    rd (seek (texdStart + headerSize)) ;;
    nameRequests <- dirLoop nbTex skipExisting fuel fuel 0 [] ;;
    match secondaryReader with
    | Some sec =>
        if 0 <? Z.of_nat (length nameRequests)
        then resolveAll fuel nameRequests sec ;; ret tt
        else ret tt
    | None => ret tt
    end.

(** *** load *)

(** The two-pass block of [load]: the time pack first, then the base
    pack with [skipExisting = true]. *)
Definition loadTextures (fuel : nat) (texOffset : Z)
    (baseReader timeReader : option BinaryReader) : M State unit :=
  match timeReader with
  | Some _ =>
      readTextures fuel timeReader false ;;
      rd (seek texOffset) ;;
      readTextures fuel baseReader true
  | None => readTextures fuel baseReader false
  end.

Definition baseReaderOf (sec : Secondary) : option BinaryReader :=
  match sec with
  | NoSecondary => None
  | LegacyBuffer buf => Some (Reader.new buf)
  | Packs base _ => Reader.new <$> base
  end.

Definition timeReaderOf (sec : Secondary) : option BinaryReader :=
  match sec with
  | Packs _ time => Reader.new <$> time
  | _ => None
  end.

(** [load(buffer, secondaryBuffer)] up to the decoded node list; the
    parenting of the Babylon meshes that follows is the renderer's. *)
Definition load (fuel : nat) (buf : list byte) (secondaryBuffer : Secondary)
    : M State (list Node) :=
  s <- get_state ;;
  put_state (set_reader s (Reader.new buf)) ;;
  signature <- rd (readString 4) ;;
  if negb (String.eqb signature "HRCM") then throw InvalidSignature
  else
    texOffset <- rd readUInt32 ;;
    modelOffset <- rd readUInt32 ;;
    s1 <- get_state ;;
    put_state (mkState (st_reader s1) ∅ [] 0 (st_nodes s1) (st_cacheSets s1)) ;;
    let baseReader := baseReaderOf secondaryBuffer in
    let timeReader := timeReaderOf secondaryBuffer in
    (if (0 <? texOffset) && (texOffset <? size (st_reader s1)) then
       currentPos <- rd tell ;;
       rd (seek texOffset) ;;
       loadTextures fuel texOffset baseReader timeReader ;;
       rd (seek currentPos)
     else ret tt) ;;
    s2 <- get_state ;;
    put_state (mkState (st_reader s2) (st_textureCache s2)
                       (st_globalVertices s2) (st_vertexOffset s2) []
                       (st_cacheSets s2)) ;;
    rd (seek modelOffset) ;;
    readNode fuel ;;
    s3 <- get_state ;;
    ret (st_nodes s3).

(** A loader as its constructor leaves it. *)
Definition initial : State := mkState (Reader.new []) ∅ [] 0 [] [].

End Mt5Loader.

(** Projections of a decoded colour. *)
Definition alpha (c : Z * Z * Z * Z) : Z := c.2.

(** ** Inputs used by the examples *)

(** Bare header: pixel format 1 (565), data format 9 (rectangle), width 2,
    height 1, then the pixels 0xF800 and 0x07E0, little-endian. *)
Definition rect565_payload : list byte :=
  bytes [1; 9; 0; 0; 2; 0; 1; 0; 0x00; 0xF8; 0xE0; 0x07].

(** The same payload behind the 4-byte tag and a 4-byte length. *)
Definition pvrt_wrap (payload : list byte) : list byte :=
  bytes [80; 86; 82; 84] ++ bytes [Z.of_nat (length payload); 0; 0; 0] ++ payload.

(** A 192-byte buffer with two node records: the record at 64 has the
    record at 128 as child; the record at 128 names its ancestor at 64 as
    child and itself as sibling. *)
Definition cyclic_nodes : list byte :=
  bytes (replicate 64 0
         ++ replicate 44 0 ++ [128; 0; 0; 0] ++ replicate 16 0
         ++ replicate 44 0 ++ [64; 0; 0; 0] ++ [128; 0; 0; 0] ++ replicate 12 0).

Definition cyclic_start : State :=
  mkState (mkReader cyclic_nodes 64) ∅ [] 0 [] [].

(** Little-endian 32-bit field. *)
Definition u32 (n : Z) : list Z :=
  [n mod 256; (n / 256) mod 256; (n / 65536) mod 256; (n / 16777216) mod 256].

(** A model buffer whose texture directory, at offset 12, declares two
    slots by external reference: identifiers 01..08 and 09 x 8. *)
Definition two_slot_model : list byte :=
  bytes ([72; 82; 67; 77] ++ u32 12 ++ u32 0
         ++ [84; 69; 88; 68] ++ u32 12 ++ u32 2
         ++ [78; 65; 77; 69] ++ u32 24
         ++ [1; 2; 3; 4; 5; 6; 7; 8] ++ [9; 9; 9; 9; 9; 9; 9; 9]).

(** A time pack with a 2x1 texture for the first identifier only. *)
Definition time_pack : list byte :=
  bytes ([1; 2; 3; 4; 5; 6; 7; 8] ++ u32 12
         ++ [1; 9; 0; 0; 2; 0; 1; 0; 0x00; 0xF8; 0xE0; 0x07]).

(** A base pack with a 1x1 texture for each of the two identifiers. *)
Definition base_pack : list byte :=
  bytes ([1; 2; 3; 4; 5; 6; 7; 8] ++ u32 12
         ++ [1; 9; 0; 0; 1; 0; 1; 0; 0x1F; 0x00; 0; 0]
         ++ [9; 9; 9; 9; 9; 9; 9; 9] ++ u32 12
         ++ [1; 9; 0; 0; 1; 0; 1; 0; 0x1F; 0x00; 0; 0]).

(** The loader state of [load] on [two_slot_model] when it reaches the
    texture block: cursor at the directory, everything else cleared. *)
Definition two_slot_start : State :=
  mkState (mkReader two_slot_model 12) ∅ [] 0 [] [].

(** A 33-byte texture directory with one embedded-image block that
    declares 100 bytes but is cut after its identifier and five more bytes,
    none of them the nested tag. *)
Definition truncated_texn : list byte :=
  bytes ([84; 69; 88; 68] ++ u32 12 ++ u32 1
         ++ [84; 69; 88; 78] ++ u32 100 ++ [1; 2; 3; 4; 5; 6; 7; 8]
         ++ [7; 7; 7; 7; 7]).

Definition truncated_at (pos : Z) : State :=
  mkState (mkReader truncated_texn pos) ∅ [] 0 [] [].

(** A directory whose external-reference block is cut inside its second
    identifier. *)
Definition truncated_name : list byte :=
  bytes ([84; 69; 88; 68] ++ u32 12 ++ u32 2
         ++ [78; 65; 77; 69] ++ u32 24 ++ [1; 2; 3; 4; 5; 6; 7; 8]
         ++ [7; 7; 7]).

(** Following the spec's words: the inverse of the bit interleave, which
    reads bit [2i+1] back into bit [i] of [x] and bit [2i] into bit [i] of
    [y], for the ten bit positions of a coordinate. *)
Fixpoint spec_deinterleave_loop (n : nat) (i m x y : Z) : Z * Z :=
  match n with
  | O => (x, y)
  | S n' =>
      spec_deinterleave_loop n' (i + 1) m
        (Z.lor x (if Z.testbit m (2 * i + 1) then 2 ^ i else 0))
        (Z.lor y (if Z.testbit m (2 * i) then 2 ^ i else 0))
  end.

Definition spec_deinterleave (m : Z) : Z * Z := spec_deinterleave_loop 10 0 m 0 0.

(** Bit [k] of the interleaving of the bits [lo .. hi - 1] of [x] (odd
    positions) and [y] (even positions); used to state what the loop of
    [untwiddle] has built after some iterations. *)
Definition interleaved_bit (x y lo hi k : Z) : bool :=
  (lo <=? k / 2) && (k / 2 <? hi)
  && Z.testbit (if k mod 2 =? 1 then x else y) (k / 2).

(** ** Specification predicates *)

(** A reader computation that, from every reachable reader state, returns
    normally, reaches a reachable state and leaves the buffer alone. *)
Definition rsafe {A : Type} (m : M BinaryReader A) : Prop :=
  forall r, Reader.wf r ->
    exists a r', m r = Ok (a, r') /\ Reader.wf r' /\ buffer r' = buffer r.

(** The same for a loader computation, which in addition leaves the node
    list alone. *)
Definition ssafe {A : Type} (m : M State A) : Prop :=
  forall s, Reader.wf (st_reader s) ->
    exists a s', m s = Ok (a, s')
      /\ Reader.wf (st_reader s')
      /\ buffer (st_reader s') = buffer (st_reader s)
      /\ st_nodes s' = st_nodes s.

(** Total correctness of a loader computation: from a state satisfying
    [P] it returns normally, with a result and a state satisfying [Q]. *)
Definition total {A : Type} (P : State -> Prop) (m : M State A)
    (Q : A -> State -> Prop) : Prop :=
  forall s, P s -> exists a s', m s = Ok (a, s') /\ Q a s'.

(** [s] differs from [s0] at most in the cursor, the vertex pool and the
    texture cache: same buffer, same node list, cursor not negative. *)
Definition same_nodes (s0 s : State) : Prop :=
  Reader.wf (st_reader s)
  /\ buffer (st_reader s) = buffer (st_reader s0)
  /\ st_nodes s = st_nodes s0.

(** The node list holds each address once and only addresses at which a
    64-byte record fits in the buffer. *)
Definition nodes_ok (s : State) : Prop :=
  NoDup (map n_addr (st_nodes s))
  /\ Forall (fun a => 0 <= a <= Reader.size (st_reader s) - 64)
            (map n_addr (st_nodes s)).

(** Addresses at which a record fits and that are not yet in the list,
    counted from above: no list satisfying [nodes_ok] is longer than the
    first term. *)
Definition unvisited_bound (s : State) : Z :=
  Z.max 0 (Reader.size (st_reader s) - 63) - Z.of_nat (length (st_nodes s)).

(** What a call of [readNode] leaves behind: the same buffer, the node
    list extended at its end, and still without a repeated address. *)
Definition node_post (s s' : State) : Prop :=
  Reader.wf (st_reader s')
  /\ buffer (st_reader s') = buffer (st_reader s)
  /\ (exists new, st_nodes s' = st_nodes s ++ new)
  /\ nodes_ok s'.

(** [readNode] with [fuel] returns from every state whose bound is below
    [fuel]. *)
Definition node_goal (fuel : nat) : Prop :=
  forall s, Reader.wf (st_reader s) -> nodes_ok s ->
    unvisited_bound s < Z.of_nat fuel ->
    exists s', Mt5Loader.readNode fuel s = Ok (tt, s') /\ node_post s s'.

(** [m2] returns whatever [m1] returns (it may return where [m1] runs
    out of fuel or throws). *)
Definition refines {S A : Type} (m1 m2 : M S A) : Prop :=
  forall s res, m1 s = Ok res -> m2 s = Ok res.

(** Relative to a cache [c1] and a history [w1] taken at an earlier
    moment: every [textureCache.set] since then went to a slot that [c1]
    leaves unbound, and the cache differs from [c1] only at those slots. *)
Definition fills_only (c1 : gmap Z Texture) (w1 : list Z) (s : State) : Prop :=
  exists w,
    st_cacheSets s = w1 ++ w
    /\ Forall (fun k => c1 !! k = None) w
    /\ (forall k, k ∉ w -> st_textureCache s !! k = c1 !! k).

(** Every pending request is for a slot that [c1] leaves unbound. *)
Definition pending_ok (c1 : gmap Z Texture) (reqs : list NameRequest) : Prop :=
  Forall (fun q => c1 !! req_index q = None) reqs.

(** Partial correctness with an invariant: if [m] returns from a state
    satisfying [I], the state it leaves satisfies [I] and its result [Q]. *)
Definition keeps {A : Type} (I : State -> Prop) (m : M State A)
    (Q : A -> Prop) : Prop :=
  forall s a s', I s -> m s = Ok (a, s') -> I s' /\ Q a.

(** Partial correctness of a reader computation: whatever it returns
    satisfies [Q]. *)
Definition returns {A : Type} (m : M BinaryReader A) (Q : A -> Prop) : Prop :=
  forall r a r', m r = Ok (a, r') -> Q a.


(** ** Mesh assembly

    The three index loops of [createMeshFromModel] that do not touch a
    Babylon object: the grouping of polygons by texture id, the emission of
    triangles from a strip and the duplication of triangles for two-sided
    glass.  An array read outside its bounds yields [undefined]; the element
    type is a parameter and [undefined] a value of it. *)

Module MeshBuild.

(** [texGroups.has(tid)] on a [Map] kept in insertion order. *)
Fixpoint mapHas (tid : Z) (groups : list (Z * list Poly)) : bool :=
  match groups with
  | [] => false
  | (k, _) :: rest => (k =? tid) || mapHas tid rest
  end.

(** [texGroups.get(tid).push(poly)] *)
Fixpoint mapPush (tid : Z) (poly : Poly) (groups : list (Z * list Poly))
    : list (Z * list Poly) :=
  match groups with
  | [] => []
  | (k, ps) :: rest =>
      if k =? tid then (k, ps ++ [poly]) :: rest
      else (k, ps) :: mapPush tid poly rest
  end.

(** One pass of [for (const poly of model.polygons)]. *)
Definition groupStep (groups : list (Z * list Poly)) (poly : Poly)
    : list (Z * list Poly) :=
  let tid := poly_texId poly in
  let groups1 := if mapHas tid groups then groups else groups ++ [(tid, [])] in
  mapPush tid poly groups1.

Definition texGroups (polygons : list Poly) : list (Z * list Poly) :=
  fold_left groupStep polygons [].

Section Indices.
Context {A : Type} (undefined : A).

(** [arr[i]] *)
Definition at_ (arr : list A) (i : Z) : A :=
  if i <? 0 then undefined else nth (Z.to_nat i) arr undefined.

(** The loop [for (i = 0; i < stripIndices.length - 2; i++)]; [n] passes
    remain. *)
Fixpoint stripTriangles_loop (n : nat) (i : Z) (stripIndices indices : list A)
    : list A :=
  match n with
  | O => indices
  | S n' =>
      let a := at_ stripIndices i in
      let b := at_ stripIndices (i + 1) in
      let c := at_ stripIndices (i + 2) in
      stripTriangles_loop n' (i + 1) stripIndices
        (if i mod 2 =? 0 then indices ++ [a; b; c] else indices ++ [a; c; b])
  end.

Definition stripTriangles (stripIndices indices : list A) : list A :=
  stripTriangles_loop (Z.to_nat (Z.of_nat (length stripIndices) - 2)) 0
                      stripIndices indices.

(** The loop [for (i = 0; i < originalIndicesCount; i += 3)] of the glass
    branch; the reads stay below [originalIndicesCount + 2]. *)
Fixpoint reverseCopies_loop (n : nat) (i : Z) (indices : list A) : list A :=
  match n with
  | O => indices
  | S n' =>
      reverseCopies_loop n' (i + 3)
        (indices ++ [at_ indices i; at_ indices (i + 2); at_ indices (i + 1)])
  end.

Definition reverseCopies (indices : list A) : list A :=
  reverseCopies_loop (Z.to_nat ((Z.of_nat (length indices) + 2) / 3)) 0 indices.

End Indices.

End MeshBuild.

(** ** Viewer

    The index arithmetic of [navigateModel]: [length] is [items.length]
    (the function returns before it when the list is empty),
    [currentIndex] the position of the active item, if there is one, and
    the result the index of the item that gets the click. *)

Module Viewer.

Definition navigateIndex (length : Z) (currentIndex : option Z) (dir : Z) : Z :=
  let nextIndex :=
    match currentIndex with
    | Some i => i + dir
    | None => if 0 <? dir then 0 else length - 1
    end in
  let nextIndex := if nextIndex <? 0 then length - 1 else nextIndex in
  if length <=? nextIndex then 0 else nextIndex.

End Viewer.

(** ** Further specification predicates *)

(** The cursor is inside the buffer. *)
Definition in_buffer (r : BinaryReader) : Prop :=
  0 <= offset r <= Reader.size r.

(** The characters [readString] collects from a window of bytes: those
    before the first NUL. *)
Fixpoint chars_until_nul (l : list byte) : string :=
  match l with
  | [] => EmptyString
  | b :: rest =>
      if byte_val b =? 0 then EmptyString
      else (Reader.fromCharCode (byte_val b) ++ chars_until_nul rest)%string
  end.


(** The four channels of a colour in buffer order. *)
Definition channels (c : Z * Z * Z * Z) : list Z :=
  let '(r, g, b, a) := c in [r; g; b; a].

(** The four bytes of pixel number [k] of an RGBA buffer. *)
Definition pixelAt (rgba : list Z) (k : Z) : list Z :=
  take 4 (drop (Z.to_nat (4 * k)) rgba).

(** A value a [Uint8Array] cell can hold. *)
Definition is_byte (c : Z) : Prop := 0 <= c <= 255.

(** The source index [decodeRaw] computes for column [x] of row [y]. *)
Definition srcIdx (width : Z) (isTwiddled : bool) (x y : Z) : Z :=
  if isTwiddled then PvrDecoder.untwiddle x y else y * width + x.

(** Pixel [k] of [rgba] holds the decoding of some source value. *)
Definition decoded_pixel (colorFormat : Z) (rgba : list Z) (k : Z) : Prop :=
  exists v, pixelAt rgba k = channels (PvrDecoder.decodeColor v colorFormat).

(** The pixel that pass [i] of the inner loop of [decodeVQ] addresses in
    block [(x, y)]: [destIdx / 4]. *)
Definition blockPixel (width x y i : Z) : Z :=
  (y * 2 + i / 2) * width + (x * 2 + i mod 2).

(** The reader states a computation started at [r0] can be in. *)
Definition sameBuffer (r0 r : BinaryReader) : Prop :=
  Reader.wf r /\ buffer r = buffer r0.

(** What every strip group of a result satisfies. *)
Definition groupOk (p : Poly) : Prop :=
  0x10 <= poly_head p <= 0x1F /\ 0 <= poly_texId p <= 65535.

(** The reader a fixed-width read of [w] bytes leaves behind: the cursor
    moves by [w], or to the end of the buffer when fewer bytes are left. *)
Definition after_read (w : Z) (r : BinaryReader) : BinaryReader :=
  Reader.set_offset r (Z.min (offset r + w) (Reader.size r)).

(** State [s] with another reader and the vertex pool extended by [new]. *)
Definition with_pool (s : State) (r : BinaryReader) (new : list Vertex)
    : State :=
  mkState r (st_textureCache s) (st_globalVertices s ++ new)
          (st_vertexOffset s) (st_nodes s) (st_cacheSets s).

(** Triangle number [k] of a strip: the window of three entries at [k],
    with the last two exchanged at odd [k]. *)
Definition triangleAt {A : Type} (strip : list A) (k : nat) : list A :=
  if Nat.even k
  then take 1 (drop k strip) ++ take 1 (drop (k + 1) strip)
       ++ take 1 (drop (k + 2) strip)
  else take 1 (drop k strip) ++ take 1 (drop (k + 2) strip)
       ++ take 1 (drop (k + 1) strip).

(** Each triple of a list with its last two entries exchanged; a tail of
    fewer than three entries is dropped. *)
Fixpoint swapWinding {A : Type} (l : list A) : list A :=
  match l with
  | a :: b :: c :: rest => a :: c :: b :: swapWinding rest
  | _ => []
  end.

(** What the texture-group map holds after the polygons [seen]: each key
    once, under a key the polygons seen with that id, in order, and a key
    for every polygon seen. *)
Definition grouped (seen : list Poly) (groups : list (Z * list Poly)) : Prop :=
  NoDup (map fst groups)
  /\ (forall tid ps, (tid, ps) ∈ groups ->
        ps <> []
        /\ ps = List.filter (fun p => poly_texId p =? tid) seen)
  /\ (forall p, p ∈ seen -> poly_texId p ∈ map fst groups).

(** The reader [r] seen behind a prefix [pre]: the same bytes and the same
    cursor, both moved by the length of the prefix. *)
Definition behind (pre : list byte) (r : BinaryReader) : BinaryReader :=
  mkReader (pre ++ buffer r) (offset r + Z.of_nat (length pre)).

Definition lift_behind {A : Type} (pre : list byte)
    (o : Outcome (A * BinaryReader)) : Outcome (A * BinaryReader) :=
  match o with
  | Ok (a, r) => Ok (a, behind pre r)
  | Throw e => Throw e
  | OutOfFuel => OutOfFuel
  end.

(** A reader computation that does behind a prefix what it does without
    it. *)
Definition behind_inv {A : Type} (pre : list byte) (m : M BinaryReader A)
    : Prop :=
  forall r, Reader.wf r -> m (behind pre r) = lift_behind pre (m r).

(** The wrapper tag, [PVRT]. *)
Definition pvrt_tag : list byte := bytes [80; 86; 82; 84].

(** The texture count [readTextures] reads from the directory header at
    the cursor of [r]: the third field, after the tag and the header
    size. *)
Definition declaredCount (r : BinaryReader) : Z :=
  match (Reader.readString 4 ;; Reader.readUInt32 ;; Reader.readUInt32) r with
  | Ok (nbTex, _) => nbTex
  | _ => 0
  end.





(** Bytes a strip entry occupies under opcode [type]. *)
Definition entrySize (type : Z) : Z :=
  2 + (if Mt5Loader.hasUV type then 4 else 0)
    + (if Mt5Loader.hasColor type then 4 else 0).

(** Partial correctness of a loader computation. *)
Definition triple {A : Type} (P : State -> Prop) (m : M State A)
    (Q : A -> State -> Prop) : Prop :=
  forall s a s', P s -> m s = Ok (a, s') -> Q a s'.

(** Total correctness of a reader computation. *)
Definition rtotal {A : Type} (P : BinaryReader -> Prop) (m : M BinaryReader A)
    (Q : A -> BinaryReader -> Prop) : Prop :=
  forall r, P r -> exists a r', m r = Ok (a, r') /\ Q a r'.

(** * Properties *)

(** [lia] after the quotients and remainders of the goal are replaced by
    their defining equations. *)
Ltac div_lia := Z.to_euclidean_division_equations; lia.

(** ** The monad *)

Lemma bind_Ok {S A B : Type} (m : M S A) (k : A -> M S B) s a s' :
  m s = Ok (a, s') -> bind m k s = k a s'.
Proof. intros Hm. unfold bind. rewrite Hm. reflexivity. Qed.

Lemma bind_Ok_inv {S A B : Type} (m : M S A) (k : A -> M S B) s b s2 :
  bind m k s = Ok (b, s2) ->
  exists a s1, m s = Ok (a, s1) /\ k a s1 = Ok (b, s2).
Proof.
  unfold bind. destruct (m s) as [[a s1] | e | ]; try discriminate.
  intros Hk. exists a, s1. split; [reflexivity | exact Hk].
Qed.

(** ** 32-bit operators on small operands *)

Lemma toInt32_small z : - 2 ^ 31 <= z < 2 ^ 31 -> JS.toInt32 z = z.
Proof.
  intros Hz. unfold JS.toInt32.
  rewrite Z.mod_small by lia. lia.
Qed.

Lemma band_mask_range a k :
  0 <= k -> 0 <= JS.band a (Z.ones k) < 2 ^ k \/ 31 < k.
Proof.
  intros Hk. destruct (Z_lt_le_dec 31 k) as [Hbig | Hsmall]; [right; lia | left].
  unfold JS.band.
  assert (Hones : 0 <= Z.ones k < 2 ^ 31).
  { rewrite Z.ones_equiv. split; [ lia | ].
    assert (2 ^ k <= 2 ^ 31) by (apply Z.pow_le_mono_r; lia). lia. }
  rewrite (toInt32_small (Z.ones k)) by lia.
  rewrite Z.land_ones by lia.
  apply Z.mod_pos_bound. lia.
Qed.

Lemma shl_small a n :
  0 <= n < 32 -> 0 <= a -> a * 2 ^ n < 2 ^ 31 -> JS.shl a n = a * 2 ^ n.
Proof.
  intros Hn Ha Hprod. unfold JS.shl.
  assert (0 < 2 ^ n) by lia.
  assert (a < 2 ^ 31) by nia.
  rewrite (toInt32_small a) by lia.
  rewrite Z.mod_small by lia.
  rewrite Z.shiftl_mul_pow2 by lia.
  apply toInt32_small. lia.
Qed.

(** ** Colour expansion *)

Lemma nibble_shift a : exists k, 0 <= k < 16 /\ JS.shl (JS.band a 0x0f) 4 = 16 * k.
Proof.
  destruct (band_mask_range a 4) as [Hr | Hr]; [lia | | lia].
  change (Z.ones 4) with 15 in Hr. change (2 ^ 4) with 16 in Hr.
  exists (JS.band a 15). split; [exact Hr | ].
  rewrite shl_small; lia.
Qed.

(** C4 (as amended): for every source colour value [v], format 565 yields
    alpha 255, format 1555 yields alpha 0 or 255, and format 4444 yields an
    alpha that is one of the sixteen multiples of 16 from 0 to 240. *)
Theorem decodeColor_alpha_levels (v : Z) :
  alpha (PvrDecoder.decodeColor v 1) = 255
  /\ (alpha (PvrDecoder.decodeColor v 0) = 0
      \/ alpha (PvrDecoder.decodeColor v 0) = 255)
  /\ (exists k, 0 <= k < 16 /\ alpha (PvrDecoder.decodeColor v 2) = 16 * k).
Proof.
  split; [reflexivity | split].
  - unfold PvrDecoder.decodeColor, alpha. simpl.
    destruct (JS.truthy _); [right | left]; reflexivity.
  - unfold PvrDecoder.decodeColor, alpha. simpl.
    apply nibble_shift.
Qed.

(** C4, the claim as stated fails: the 4444 alpha of 0x1000 is 16, which is
    not a multiple of 17. *)
Lemma decodeColor_alpha_not_mult17 :
  ~ (exists k, alpha (PvrDecoder.decodeColor 0x1000 2) = 17 * k).
Proof.
  intros [k Hk].
  change (alpha (PvrDecoder.decodeColor 0x1000 2)) with 16 in Hk. lia.
Qed.

(** ** Decoding the 565 rectangle example *)

Lemma decode_rect565_example_eval :
  PvrDecoder.decodeBuffer rect565_payload
  = Ok (mkTexture [248; 0; 0; 255; 0; 252; 0; 255] 2 1 false false).
Proof. vm_compute. reflexivity. Qed.

(** C1 (as amended): the two pixels 0xF800 and 0x07E0 of the 2x1 565
    rectangle decode to [248,0,0,255, 0,252,0,255]: the five and six bit
    channels are shifted left, not rescaled to 255. *)
Theorem decode_rect565_example :
  PvrDecoder.decodeBuffer rect565_payload
  = Ok (mkTexture [248; 0; 0; 255; 0; 252; 0; 255] 2 1 false false).
Proof. exact decode_rect565_example_eval. Qed.

(** C1, the claim as stated fails: the decoded pixel buffer is not
    [255,0,0,255, 0,255,0,255]. *)
Lemma decode_rect565_not_saturated :
  ~ (exists t, PvrDecoder.decodeBuffer rect565_payload = Ok t
               /\ tex_pixels t = [255; 0; 0; 255; 0; 255; 0; 255]).
Proof.
  intros [t [Hdec Hpix]]. rewrite decode_rect565_example_eval in Hdec.
  inversion Hdec; subst t. discriminate Hpix.
Qed.

(** ** The tagged wrapper *)

(** C2, the code at the failing input: behind the wrapper the raw path still
    fetches its pixels from absolute offset 8, which is now the header, so
    the wrapped 565 rectangle decodes to the header bytes read as colours. *)
Theorem decode_wrapped_rect565_differs :
  PvrDecoder.decodeBuffer (pvrt_wrap rect565_payload)
  = Ok (mkTexture [8; 32; 8; 255; 0; 0; 0; 255] 2 1 false false)
  /\ PvrDecoder.decodeBuffer (pvrt_wrap rect565_payload)
     <> PvrDecoder.decodeBuffer rect565_payload.
Proof.
  split; [vm_compute; reflexivity | ].
  vm_compute. discriminate.
Qed.

(** ** Reads past the end of the buffer *)

Section FailSoft.
Import Reader.

Lemma readFixed_short {A : Type} (w : Z) (zero : A) access r :
  size r < offset r + w ->
  readFixed w zero access r = Ok (zero, set_offset r (size r)).
Proof.
  intros Hshort. unfold readFixed, canRead.
  destruct (Z.leb_spec (offset r + w) (size r)); [lia | reflexivity].
Qed.

Lemma readBytes_short len r :
  wf r -> size r < offset r + len ->
  readBytes len r
  = Ok (drop (Z.to_nat (offset r)) (buffer r),
        set_offset r (Z.max (offset r) (size r))).
Proof.
  unfold wf, readBytes, size. intros Hwf Hshort.
  destruct r as [buf off]; simpl in *.
  rewrite Z.min_r by lia.
  destruct (Z.leb_spec (Z.of_nat (length buf) - off) 0) as [Hnone | Hsome].
  - rewrite drop_ge by lia. unfold set_offset; simpl.
    rewrite Z.max_l by lia. reflexivity.
  - destruct (Z.ltb_spec off 0); [lia | ].
    rewrite take_ge by (rewrite length_drop; lia).
    unfold set_offset; simpl. rewrite Z.max_r by lia.
    do 3 f_equal. lia.
Qed.

(** C3 (as amended): in a cursor state where fewer bytes remain than a read
    requires, every fixed-width read returns zero and leaves the cursor at
    the end of the buffer; the byte-slice read returns the bytes that do
    remain (none when the cursor is at or past the end) and leaves the
    cursor at the end unless it already was past it. No read throws. *)
Theorem reads_past_end_fail_soft (r : BinaryReader) :
  wf r ->
  (size r < offset r + 1 ->
     readUInt8 r = Ok (0, set_offset r (size r)))
  /\ (size r < offset r + 2 ->
        readUInt16 r = Ok (0, set_offset r (size r))
        /\ readInt16 r = Ok (0, set_offset r (size r)))
  /\ (size r < offset r + 4 ->
        readUInt32 r = Ok (0, set_offset r (size r))
        /\ readInt32 r = Ok (0, set_offset r (size r))
        /\ readFloat32 r = Ok (f32_zero, set_offset r (size r)))
  /\ (forall len, size r < offset r + len ->
        readBytes len r
        = Ok (drop (Z.to_nat (offset r)) (buffer r),
              set_offset r (Z.max (offset r) (size r)))).
Proof.
  intros Hwf. repeat split; intros;
    try (apply readFixed_short; assumption).
  apply readBytes_short; assumption.
Qed.

(** C3, the claim as stated fails: with two of three bytes left, a
    five-byte slice read returns those two bytes, not an empty slice. *)
Lemma readBytes_partial_not_empty :
  let r := mkReader (bytes [1; 2; 3]) 1 in
  size r < offset r + 5
  /\ readBytes 5 r = Ok (bytes [2; 3], set_offset r 3)
  /\ ~ (exists r', readBytes 5 r = Ok ([], r')).
Proof.
  split; [vm_compute; reflexivity | split; [reflexivity | ]].
  intros [r' Hr']. vm_compute in Hr'. discriminate Hr'.
Qed.

Lemma reads_past_end_fail_soft_witness :
  let r := mkReader (bytes [1; 2; 3]) 2 in
  wf r
  /\ readUInt16 r = Ok (0, set_offset r 3)
  /\ readFloat32 r = Ok (f32_zero, set_offset r 3)
  /\ readBytes 5 r = Ok (bytes [3], set_offset r 3).
Proof.
  assert (Hwf : wf (mkReader (bytes [1; 2; 3]) 2)) by (unfold wf; simpl; lia).
  destruct (reads_past_end_fail_soft _ Hwf) as (_ & H16 & H32 & Hbytes).
  split; [exact Hwf | ].
  split; [apply H16; vm_compute; reflexivity | ].
  split; [apply H32; vm_compute; reflexivity | ].
  apply (Hbytes 5). vm_compute. reflexivity.
Defined.

End FailSoft.

(** ** The twiddled address *)

Section Twiddle.
Import PvrDecoder.

(** A single selected bit, as the conditional of the loop body builds it. *)
Lemma testbit_select (b : bool) (p k : Z) :
  0 <= p -> 0 <= k ->
  Z.testbit (if b then 2 ^ p else 0) k = b && (k =? p).
Proof.
  intros Hp Hk. destruct b; simpl.
  - destruct (Z.eqb_spec k p) as [-> | Hne].
    + apply Z.pow2_bits_true; lia.
    + apply Z.pow2_bits_false; lia.
  - apply Z.bits_0.
Qed.

Lemma select_range (b : bool) (p : Z) :
  0 <= p < 20 -> 0 <= (if b then 2 ^ p else 0) < 2 ^ 20.
Proof.
  intros Hp. destruct b; [ | lia].
  split; [lia | apply Z.pow_lt_mono_r; lia].
Qed.

Lemma band_pow2_truthy (x i : Z) :
  0 <= x < 2 ^ 31 -> 0 <= i < 10 ->
  JS.truthy (JS.band x (JS.shl 1 i)) = Z.testbit x i.
Proof.
  intros Hx Hi.
  assert (Hpow : 0 < 2 ^ i < 2 ^ 31).
  { split; [lia | apply Z.pow_lt_mono_r; lia]. }
  rewrite shl_small by lia. rewrite Z.mul_1_l.
  unfold JS.band, JS.truthy.
  rewrite !toInt32_small by lia.
  destruct (Z.testbit x i) eqn:Hbit.
  - apply negb_true_iff, Z.eqb_neq. intros Hzero.
    assert (Hb : Z.testbit (Z.land x (2 ^ i)) i = true).
    { rewrite Z.land_spec, Hbit, Z.pow2_bits_true by lia. reflexivity. }
    rewrite Hzero, Z.bits_0 in Hb. discriminate.
  - apply negb_false_iff, Z.eqb_eq. apply Z.bits_inj'. intros k Hk.
    rewrite Z.land_spec, Z.bits_0.
    destruct (Z.eq_dec k i) as [-> | Hne].
    + rewrite Hbit. reflexivity.
    + rewrite Z.pow2_bits_false by lia. apply andb_false_r.
Qed.

Lemma lor_range (a b : Z) :
  0 <= a < 2 ^ 20 -> 0 <= b < 2 ^ 20 -> 0 <= Z.lor a b < 2 ^ 20.
Proof.
  intros Ha Hb. split; [apply Z.lor_nonneg; lia | ].
  destruct (Z.eq_dec (Z.lor a b) 0) as [-> | Hnz]; [lia | ].
  apply Z.log2_lt_pow2; [ | rewrite Z.log2_lor by lia ].
  - assert (0 <= Z.lor a b) by (apply Z.lor_nonneg; lia). lia.
  - apply Z.max_lub_lt.
    + destruct (Z.eq_dec a 0) as [-> | ?]; [simpl; lia | ].
      apply Z.log2_lt_pow2; lia.
    + destruct (Z.eq_dec b 0) as [-> | ?]; [simpl; lia | ].
      apply Z.log2_lt_pow2; lia.
Qed.

Lemma bor_small (a b : Z) :
  0 <= a < 2 ^ 20 -> 0 <= b < 2 ^ 20 -> JS.bor a b = Z.lor a b.
Proof.
  intros Ha Hb. unfold JS.bor. rewrite !toInt32_small by lia. reflexivity.
Qed.

Lemma untwiddle_loop_bits (x y : Z) :
  0 <= x < 2 ^ 31 -> 0 <= y < 2 ^ 31 ->
  forall (n : nat) (i res : Z),
    0 <= i -> i + Z.of_nat n <= 10 -> 0 <= res < 2 ^ 20 ->
    0 <= untwiddle_loop n i x y res < 2 ^ 20
    /\ forall k, 0 <= k ->
         Z.testbit (untwiddle_loop n i x y res) k
         = Z.testbit res k || interleaved_bit x y i (i + Z.of_nat n) k.
Proof.
  intros Hx Hy. induction n as [ | n IH]; intros i res Hi Hn Hres.
  - simpl. split; [exact Hres | ]. intros k Hk.
    unfold interleaved_bit.
    destruct (Z.leb_spec i (k / 2)), (Z.ltb_spec (k / 2) (i + Z.of_nat 0));
      simpl; try lia; rewrite orb_false_r; reflexivity.
  - cbn [untwiddle_loop].
    rewrite !band_pow2_truthy by lia.
    rewrite (shl_small 1 (2 * i + 1)), (shl_small 1 (2 * i)), !Z.mul_1_l;
      try lia;
      try (rewrite Z.mul_1_l; apply Z.pow_lt_mono_r; lia).
    set (tx := if Z.testbit x i then 2 ^ (2 * i + 1) else 0).
    set (ty := if Z.testbit y i then 2 ^ (2 * i) else 0).
    assert (Htx : 0 <= tx < 2 ^ 20) by (apply select_range; lia).
    assert (Hty : 0 <= ty < 2 ^ 20) by (apply select_range; lia).
    assert (H1 : 0 <= Z.lor res tx < 2 ^ 20) by (apply lor_range; assumption).
    rewrite (bor_small res tx) by assumption.
    rewrite (bor_small (Z.lor res tx) ty) by assumption.
    assert (H2 : 0 <= Z.lor (Z.lor res tx) ty < 2 ^ 20)
      by (apply lor_range; assumption).
    destruct (IH (i + 1) (Z.lor (Z.lor res tx) ty)) as [Hrange Hbits];
      [lia | lia | exact H2 | ].
    split; [exact Hrange | ]. intros k Hk.
    rewrite Hbits, !Z.lor_spec by exact Hk.
    subst tx ty. rewrite !testbit_select by lia.
    unfold interleaved_bit.
    replace (i + 1 + Z.of_nat n) with (i + Z.of_nat (S n)) by lia.
    destruct (Z.testbit res k); cbn [orb]; [reflexivity | ].
    destruct (Z.eqb_spec k (2 * i + 1)) as [-> | Hodd].
    + replace ((2 * i + 1) / 2) with i by div_lia.
      replace ((2 * i + 1) mod 2) with 1 by div_lia.
      replace (2 * i + 1 =? 2 * i) with false by (symmetry; apply Z.eqb_neq; lia).
      destruct (Z.leb_spec (i + 1) i), (Z.leb_spec i i),
               (Z.ltb_spec i (i + Z.of_nat (S n))); try lia.
      cbn [andb orb Z.eqb Pos.eqb]. rewrite !andb_false_r, !andb_true_r, !orb_false_r.
      reflexivity.
    + rewrite andb_false_r. cbn [orb].
      destruct (Z.eqb_spec k (2 * i)) as [-> | Heven].
      * replace (2 * i / 2) with i by div_lia.
        replace ((2 * i) mod 2) with 0 by div_lia.
        destruct (Z.leb_spec (i + 1) i), (Z.leb_spec i i),
                 (Z.ltb_spec i (i + Z.of_nat (S n))); try lia.
        cbn [andb orb Z.eqb]. rewrite !andb_true_r, !orb_false_r. reflexivity.
      * rewrite andb_false_r. cbn [orb].
        destruct (Z.leb_spec (i + 1) (k / 2)), (Z.leb_spec i (k / 2));
          try div_lia; reflexivity.
Qed.

Lemma untwiddle_bits (x y k : Z) :
  0 <= x < 2 ^ 31 -> 0 <= y < 2 ^ 31 -> 0 <= k ->
  Z.testbit (untwiddle x y) k = interleaved_bit x y 0 10 k.
Proof.
  intros Hx Hy Hk. unfold untwiddle.
  destruct (untwiddle_loop_bits x y Hx Hy 10 0 0) as [_ Hbits]; try lia.
  rewrite Hbits by exact Hk. rewrite Z.bits_0. reflexivity.
Qed.

Lemma testbit_above (x k : Z) :
  0 <= x < 1024 -> 10 <= k -> Z.testbit x k = false.
Proof.
  intros Hx Hk. destruct (Z.eq_dec x 0) as [-> | Hnz]; [apply Z.bits_0 | ].
  apply Z.bits_above_log2; [lia | ].
  assert (Z.log2 x < 10) by (apply Z.log2_lt_pow2; lia). lia.
Qed.

Lemma spec_deinterleave_loop_bits (m : Z) :
  forall (n : nat) (i x0 y0 k : Z),
    0 <= i -> 0 <= k ->
    Z.testbit (spec_deinterleave_loop n i m x0 y0).1 k
    = Z.testbit x0 k
      || ((i <=? k) && (k <? i + Z.of_nat n) && Z.testbit m (2 * k + 1))
    /\ Z.testbit (spec_deinterleave_loop n i m x0 y0).2 k
       = Z.testbit y0 k
         || ((i <=? k) && (k <? i + Z.of_nat n) && Z.testbit m (2 * k)).
Proof.
  induction n as [ | n IH]; intros i x0 y0 k Hi Hk.
  - cbn [spec_deinterleave_loop fst snd].
    destruct (Z.leb_spec i k), (Z.ltb_spec k (i + Z.of_nat 0));
      cbn [andb]; try lia; rewrite !orb_false_r; split; reflexivity.
  - cbn [spec_deinterleave_loop].
    destruct (IH (i + 1)
                (Z.lor x0 (if Z.testbit m (2 * i + 1) then 2 ^ i else 0))
                (Z.lor y0 (if Z.testbit m (2 * i) then 2 ^ i else 0))
                k) as [Hx Hy]; [lia | lia | ].
    rewrite Hx, Hy, !Z.lor_spec, !testbit_select by lia.
    replace (i + 1 + Z.of_nat n) with (i + Z.of_nat (S n)) by lia.
    destruct (Z.eqb_spec k i) as [-> | Hne].
    + destruct (Z.leb_spec (i + 1) i), (Z.leb_spec i i),
               (Z.ltb_spec i (i + Z.of_nat (S n))); try lia.
      cbn [andb]. rewrite !andb_true_r, !orb_false_r. split; reflexivity.
    + rewrite !andb_false_r, !orb_false_r.
      destruct (Z.leb_spec (i + 1) k), (Z.leb_spec i k); try lia;
        split; reflexivity.
Qed.

Lemma untwiddle_roundtrip (x y : Z) :
  0 <= x < 1024 -> 0 <= y < 1024 ->
  spec_deinterleave (untwiddle x y) = (x, y).
Proof.
  intros Hx Hy. unfold spec_deinterleave.
  rewrite (surjective_pairing (spec_deinterleave_loop _ _ _ _ _)).
  f_equal; apply Z.bits_inj'; intros k Hk;
    destruct (spec_deinterleave_loop_bits (untwiddle x y) 10 0 0 0 k)
      as [Hbx Hby]; try lia.
  - rewrite Hbx, Z.bits_0, untwiddle_bits by lia. unfold interleaved_bit.
    replace ((2 * k + 1) / 2) with k by div_lia.
    replace ((2 * k + 1) mod 2) with 1 by div_lia.
    cbn [orb Z.eqb Pos.eqb].
    destruct (Z.leb_spec 0 k), (Z.ltb_spec k (0 + Z.of_nat 10)),
             (Z.ltb_spec k 10); try lia; cbn [andb].
    + reflexivity.
    + symmetry. apply testbit_above; lia.
  - rewrite Hby, Z.bits_0, untwiddle_bits by lia. unfold interleaved_bit.
    replace (2 * k / 2) with k by div_lia.
    replace ((2 * k) mod 2) with 0 by div_lia.
    cbn [orb Z.eqb].
    destruct (Z.leb_spec 0 k), (Z.ltb_spec k (0 + Z.of_nat 10)),
             (Z.ltb_spec k 10); try lia; cbn [andb].
    + reflexivity.
    + symmetry. apply testbit_above; lia.
Qed.

(** C5: for coordinates below 1024 the twiddled address carries bit [i] of
    [x] at bit [2i+1] and bit [i] of [y] at bit [2i]; reading those bits
    back returns the pair, so the address function is injective there. *)
Theorem untwiddle_bijective (x y : Z) :
  0 <= x < 1024 -> 0 <= y < 1024 ->
  (forall i, 0 <= i < 10 ->
     Z.testbit (untwiddle x y) (2 * i + 1) = Z.testbit x i
     /\ Z.testbit (untwiddle x y) (2 * i) = Z.testbit y i)
  /\ spec_deinterleave (untwiddle x y) = (x, y)
  /\ (forall x' y', 0 <= x' < 1024 -> 0 <= y' < 1024 ->
        untwiddle x' y' = untwiddle x y -> x' = x /\ y' = y).
Proof.
  intros Hx Hy. split; [ | split].
  - intros i Hi. rewrite !untwiddle_bits by lia. unfold interleaved_bit.
    replace ((2 * i + 1) / 2) with i by div_lia.
    replace ((2 * i + 1) mod 2) with 1 by div_lia.
    replace (2 * i / 2) with i by div_lia.
    replace ((2 * i) mod 2) with 0 by div_lia.
    destruct (Z.leb_spec 0 i), (Z.ltb_spec i 10); try lia.
    split; reflexivity.
  - apply untwiddle_roundtrip; assumption.
  - intros x' y' Hx' Hy' Heq.
    pose proof (untwiddle_roundtrip x' y' Hx' Hy') as Hrt'.
    rewrite Heq, untwiddle_roundtrip in Hrt' by assumption.
    inversion Hrt'. split; reflexivity.
Qed.

Lemma untwiddle_bijective_witness :
  Z.testbit (untwiddle 3 5) 1 = Z.testbit 3 0
  /\ spec_deinterleave (untwiddle 3 5) = (3, 5).
Proof.
  destruct (untwiddle_bijective 3 5) as (Hbits & Hrt & _); [lia | lia | ].
  split; [ | exact Hrt].
  destruct (Hbits 0) as [Hodd _]; [lia | exact Hodd].
Defined.

(** Beyond the ten bits the loop looks at, coordinates collide. *)
Remark untwiddle_ignores_bit_10 :
  PvrDecoder.untwiddle 1024 0 = PvrDecoder.untwiddle 0 0.
Proof. vm_compute. reflexivity. Qed.

End Twiddle.

(** ** Reader methods never throw *)

Section ReaderSafety.
Import Reader.

Lemma byte_val_range (b : byte) : 0 <= byte_val b <= 255.
Proof.
  unfold byte_val. pose proof (Byte.to_N_bounded b) as Hb. lia.
Qed.

Lemma getUint8_Some (buf : list byte) (pos : Z) :
  0 <= pos < Z.of_nat (length buf) ->
  exists v, DataView.getUint8 buf pos = Some v /\ 0 <= v <= 255.
Proof.
  intros Hpos. unfold DataView.getUint8.
  destruct (Z.ltb_spec pos 0); [lia | ].
  destruct (lookup_lt_is_Some_2 buf (Z.to_nat pos)) as [b Hb]; [lia | ].
  rewrite Hb. exists (byte_val b). split; [reflexivity | apply byte_val_range].
Qed.

Lemma getUint8_Some_inv (buf : list byte) (pos v : Z) :
  DataView.getUint8 buf pos = Some v -> 0 <= pos /\ 0 <= v <= 255.
Proof.
  unfold DataView.getUint8. destruct (Z.ltb_spec pos 0); [discriminate | ].
  destruct (buf !! Z.to_nat pos) as [b | ]; [ | discriminate].
  intros [= <-]. split; [assumption | apply byte_val_range].
Qed.

Lemma getUint16_Some (buf : list byte) (pos : Z) :
  0 <= pos -> pos + 2 <= Z.of_nat (length buf) ->
  exists v, DataView.getUint16 buf pos = Some v /\ 0 <= v < 65536.
Proof.
  intros Hlo Hhi. unfold DataView.getUint16.
  destruct (getUint8_Some buf pos) as (b0 & -> & H0); [lia | ].
  destruct (getUint8_Some buf (pos + 1)) as (b1 & -> & H1); [lia | ].
  simpl. eexists. split; [reflexivity | lia].
Qed.

Lemma getUint16_Some_inv (buf : list byte) (pos v : Z) :
  DataView.getUint16 buf pos = Some v -> 0 <= pos /\ 0 <= v < 65536.
Proof.
  unfold DataView.getUint16.
  destruct (DataView.getUint8 buf pos) as [b0 | ] eqn:H0; [ | discriminate].
  destruct (DataView.getUint8 buf (pos + 1)) as [b1 | ] eqn:H1; [ | discriminate].
  simpl. intros [= <-].
  apply getUint8_Some_inv in H0, H1. lia.
Qed.

Lemma getUint32_Some (buf : list byte) (pos : Z) :
  0 <= pos -> pos + 4 <= Z.of_nat (length buf) ->
  exists v, DataView.getUint32 buf pos = Some v /\ 0 <= v < 2 ^ 32.
Proof.
  intros Hlo Hhi. unfold DataView.getUint32.
  destruct (getUint8_Some buf pos) as (b0 & -> & H0); [lia | ].
  destruct (getUint8_Some buf (pos + 1)) as (b1 & -> & H1); [lia | ].
  destruct (getUint8_Some buf (pos + 2)) as (b2 & -> & H2); [lia | ].
  destruct (getUint8_Some buf (pos + 3)) as (b3 & -> & H3); [lia | ].
  simpl. eexists. split; [reflexivity | lia].
Qed.

Lemma signed16_range (u : Z) :
  0 <= u < 65536 -> -32768 <= DataView.signed 16 u <= 32767.
Proof.
  intros Hu. unfold DataView.signed.
  change (2 ^ (16 - 1)) with 32768. change (2 ^ 16) with 65536.
  destruct (Z.ltb_spec u 32768); lia.
Qed.

(** A fixed-width read whose accessor succeeds inside the buffer. *)
Lemma readFixed_rsafe {A : Type} (w : Z) (zero : A) access :
  0 <= w ->
  (forall buf pos, 0 <= pos -> pos + w <= Z.of_nat (length buf) ->
                   is_Some (access buf pos)) ->
  rsafe (readFixed w zero access).
Proof.
  intros Hw Haccess r Hwf. unfold readFixed, canRead, wf, size in *.
  destruct (Z.leb_spec (offset r + w) (Z.of_nat (length (buffer r)))) as [Hin | Hout];
    simpl.
  - destruct (Haccess (buffer r) (offset r)) as [val Hval]; [lia | lia | ].
    rewrite Hval. eexists _, _. split; [reflexivity | ]. simpl. split; [lia | reflexivity].
  - eexists _, _. split; [reflexivity | ]. simpl. split; [lia | reflexivity].
Qed.

Lemma readUInt8_rsafe : rsafe readUInt8.
Proof.
  apply readFixed_rsafe; [lia | ]. intros buf pos Hlo Hhi.
  destruct (getUint8_Some buf pos) as (v & -> & _); [lia | eauto].
Qed.

Lemma readUInt16_rsafe : rsafe readUInt16.
Proof.
  apply readFixed_rsafe; [lia | ]. intros buf pos Hlo Hhi.
  destruct (getUint16_Some buf pos) as (v & -> & _); [lia | lia | eauto].
Qed.

Lemma readInt16_rsafe : rsafe readInt16.
Proof.
  apply readFixed_rsafe; [lia | ]. intros buf pos Hlo Hhi.
  unfold DataView.getInt16.
  destruct (getUint16_Some buf pos) as (v & -> & _); [lia | lia | ].
  simpl. eauto.
Qed.

Lemma readUInt32_rsafe : rsafe readUInt32.
Proof.
  apply readFixed_rsafe; [lia | ]. intros buf pos Hlo Hhi.
  destruct (getUint32_Some buf pos) as (v & -> & _); [lia | lia | eauto].
Qed.

Lemma readInt32_rsafe : rsafe readInt32.
Proof.
  apply readFixed_rsafe; [lia | ]. intros buf pos Hlo Hhi.
  unfold DataView.getInt32.
  destruct (getUint32_Some buf pos) as (v & -> & _); [lia | lia | ].
  simpl. eauto.
Qed.

Lemma readFloat32_rsafe : rsafe readFloat32.
Proof.
  apply readFixed_rsafe; [lia | ]. intros buf pos Hlo Hhi.
  destruct (getUint32_Some buf pos) as (v & -> & _); [lia | lia | ].
  simpl. eauto.
Qed.

Lemma readBytes_rsafe len : rsafe (readBytes len).
Proof.
  intros r Hwf. unfold readBytes, wf in *.
  destruct (Z.leb_spec (Z.min len (size r - offset r)) 0).
  - eexists _, _. split; [reflexivity | split; [assumption | reflexivity]].
  - destruct (Z.ltb_spec (offset r) 0); [lia | ].
    eexists _, _. split; [reflexivity | ]. simpl. split; [lia | reflexivity].
Qed.

Lemma seek_rsafe pos : rsafe (seek pos).
Proof.
  intros r Hwf. unfold seek, wf. eexists _, _.
  split; [reflexivity | ]. simpl. split; [lia | reflexivity].
Qed.

Lemma skip_rsafe len : rsafe (skip len).
Proof. intros r Hwf. unfold skip. apply seek_rsafe. exact Hwf. Qed.

Lemma tell_rsafe : rsafe tell.
Proof.
  intros r Hwf. unfold tell. eexists _, _.
  split; [reflexivity | split; [assumption | reflexivity]].
Qed.

Lemma bump_rsafe n : 0 <= n -> rsafe (bump n).
Proof.
  intros Hn r Hwf. unfold bump, wf in *. eexists _, _.
  split; [reflexivity | ]. simpl. split; [lia | reflexivity].
Qed.

Lemma ret_rsafe {A : Type} (a : A) : rsafe (ret a).
Proof.
  intros r Hwf. exists a, r. split; [reflexivity | split; [assumption | reflexivity]].
Qed.

Lemma bind_rsafe {A B : Type} (m : M BinaryReader A) (k : A -> M BinaryReader B) :
  rsafe m -> (forall a, rsafe (k a)) -> rsafe (bind m k).
Proof.
  intros Hm Hk r Hwf.
  destruct (Hm r Hwf) as (a & r1 & Heq & Hwf1 & Hbuf1).
  destruct (Hk a r1 Hwf1) as (b & r2 & Heq2 & Hwf2 & Hbuf2).
  exists b, r2. rewrite (bind_Ok _ _ _ _ _ Heq).
  split; [exact Heq2 | split; [exact Hwf2 | congruence]].
Qed.

Lemma get_state_rsafe {B : Type} (k : BinaryReader -> M BinaryReader B) :
  (forall r, rsafe (k r)) -> rsafe (bind get_state k).
Proof.
  intros Hk. apply bind_rsafe; [ | exact Hk].
  intros r Hwf. exists r, r. split; [reflexivity | split; [assumption | reflexivity]].
Qed.

Lemma readString_loop_rsafe n str : rsafe (readString_loop n str).
Proof.
  revert str. induction n as [ | n IH]; intros str; cbn [readString_loop].
  - apply ret_rsafe.
  - apply get_state_rsafe. intros r.
    destruct (negb (canRead r 1)); [apply ret_rsafe | ].
    apply bind_rsafe; [apply readUInt8_rsafe | ]. intros c.
    destruct (c =? 0); [ | apply IH].
    apply bind_rsafe; [apply bump_rsafe; lia | intros; apply ret_rsafe].
Qed.

Lemma readString_rsafe n : rsafe (readString n).
Proof. apply readString_loop_rsafe. Qed.

End ReaderSafety.

Create HintDb rsafe.

#[local] Hint Resolve readUInt8_rsafe readUInt16_rsafe readInt16_rsafe
  readUInt32_rsafe readInt32_rsafe readFloat32_rsafe readBytes_rsafe
  seek_rsafe skip_rsafe tell_rsafe ret_rsafe readString_rsafe : rsafe.

(** ** Strip entries *)

Ltac bind_inv H :=
  let a := fresh "a" in
  let s := fresh "s" in
  let Hm := fresh "Hm" in
  apply bind_Ok_inv in H as (a & s & Hm & H).

Ltac ret_inv H := unfold ret in H; injection H as <- <-.

Section StripEntries.
Import Reader Mt5Loader.

Lemma readInt16_range r v r' :
  readInt16 r = Ok (v, r') -> -32768 <= v <= 32767.
Proof.
  unfold readInt16, readFixed.
  destruct (negb (canRead r 2)); [intros [= <- _]; lia | ].
  unfold DataView.getInt16.
  destruct (DataView.getUint16 (buffer r) (offset r)) as [u | ] eqn:Hu;
    simpl; [ | discriminate].
  intros [= <- _]. apply getUint16_Some_inv in Hu.
  apply signed16_range. lia.
Qed.

Lemma scaleStandard_int16 uvSize tex :
  -32768 <= tex <= 32767 ->
  scaleStandard uvSize tex = (inject_Z tex / inject_Z uvSize)%Q.
Proof.
  intros Htex. unfold scaleStandard.
  destruct (Z.ltb_spec (Z.abs tex) 0xF000); [reflexivity | lia].
Qed.

(** C7: a strip entry whose raw index is [rawIdx] resolves to
    [vertexBase + rawIdx] when [rawIdx] is not negative and to
    [vertexBase + nbVertex + rawIdx] when it is; raw index [-1] resolves to
    [vertexBase + nbVertex - 1]. *)
Theorem strip_index_relative vertexBase nbVertex type ps r rawIdx r1 entry r' :
  readShort r = Ok (rawIdx, r1) ->
  readStripEntry vertexBase nbVertex type ps r = Ok (entry, r') ->
  (0 <= rawIdx -> sv_idx entry = vertexBase + rawIdx)
  /\ (rawIdx < 0 -> sv_idx entry = vertexBase + nbVertex + rawIdx)
  /\ (rawIdx = -1 -> sv_idx entry = vertexBase + nbVertex - 1).
Proof.
  intros Hraw Hentry. unfold readStripEntry in Hentry.
  bind_inv Hentry. rewrite Hraw in Hm. injection Hm as <- <-.
  bind_inv Hentry. bind_inv Hentry. ret_inv Hentry.
  cbn [sv_idx]. unfold resolveIndex.
  destruct (Z.ltb_spec rawIdx 0); repeat split; intros; lia.
Qed.

Lemma strip_index_relative_witness :
  exists entry r',
    readStripEntry 10 5 0x10 ps_init (Reader.new (bytes [255; 255]))
    = Ok (entry, r')
    /\ sv_idx entry = 10 + 5 - 1.
Proof.
  eexists _, _. split; [vm_compute; reflexivity | ].
  refine (proj2 (proj2 (strip_index_relative 10 5 0x10 ps_init
                          (Reader.new (bytes [255; 255])) (-1) _ _ _ _ _)) _);
    [vm_compute; reflexivity | vm_compute; reflexivity | reflexivity].
Defined.

(** C10: in standard UV mode both raw UV components of a decoded strip
    entry are signed 16-bit values, hence below the 0xF000 threshold in
    magnitude, so the scaling always divides by the active divisor and the
    entry's coordinates are the mirror adjustment of those quotients. *)
Theorem standard_uv_divides vertexBase nbVertex type ps r entry r' :
  hasUV type = true ->
  ps_isUVH ps = false ->
  readStripEntry vertexBase nbVertex type ps r = Ok (entry, r') ->
  exists rawIdx r1 texU r2 texV r3,
    readShort r = Ok (rawIdx, r1)
    /\ readShort r1 = Ok (texU, r2)
    /\ readShort r2 = Ok (texV, r3)
    /\ Z.abs texU <= 32768 < 0xF000
    /\ Z.abs texV <= 32768 < 0xF000
    /\ scaleUV (ps_isUVH ps) (ps_uvSize ps) texU
       = (inject_Z texU / inject_Z (ps_uvSize ps))%Q
    /\ scaleUV (ps_isUVH ps) (ps_uvSize ps) texV
       = (inject_Z texV / inject_Z (ps_uvSize ps))%Q
    /\ sv_u entry
       = mirrorUV (ps_uMirror ps) (inject_Z texU / inject_Z (ps_uvSize ps))%Q
    /\ sv_v entry
       = mirrorUV (ps_vMirror ps) (inject_Z texV / inject_Z (ps_uvSize ps))%Q.
Proof.
  intros HUV Hstd Hentry. unfold readStripEntry in Hentry.
  rewrite HUV, Hstd in Hentry.
  bind_inv Hentry. rename Hm into Hraw.
  bind_inv Hentry. rename Hm into Huv.
  bind_inv Huv. rename Hm into HtexU.
  bind_inv Huv. rename Hm into HtexV.
  ret_inv Huv.
  bind_inv Hentry. ret_inv Hentry.
  pose proof (readInt16_range _ _ _ HtexU) as HrU.
  pose proof (readInt16_range _ _ _ HtexV) as HrV.
  do 6 eexists. rewrite Hstd.
  split; [exact Hraw | ]. split; [exact HtexU | ]. split; [exact HtexV | ].
  unfold scaleUV. rewrite !scaleStandard_int16 by assumption.
  cbn [sv_u sv_v fst snd].
  repeat split; try reflexivity; lia.
Qed.

Lemma standard_uv_divides_witness :
  exists entry r',
    readStripEntry 10 5 0x11 ps_init
      (Reader.new (bytes [0; 0; 0x00; 0x80; 0xFF; 0x7F])) = Ok (entry, r')
    /\ sv_u entry = (inject_Z (-32768) / inject_Z 1024)%Q
    /\ sv_v entry = (inject_Z 32767 / inject_Z 1024)%Q.
Proof.
  eexists _, _. split; [vm_compute; reflexivity | ].
  destruct (standard_uv_divides 10 5 0x11 ps_init
              (Reader.new (bytes [0; 0; 0x00; 0x80; 0xFF; 0x7F])) _ _
              eq_refl eq_refl eq_refl)
    as (rawIdx & r1 & texU & r2 & texV & r3 & H0 & H1 & H2 & _ & _ & _ & _ & Hu & Hv).
  vm_compute in H0. injection H0 as <- <-.
  vm_compute in H1. injection H1 as <- <-.
  vm_compute in H2. injection H2 as <- <-.
  split; [exact Hu | exact Hv].
Defined.

End StripEntries.

(** ** The polygon command stream *)

Ltac rsafe_step :=
  lazymatch goal with
  | |- rsafe (ret _) => apply ret_rsafe
  | |- rsafe (bind get_state _) => apply get_state_rsafe; intros
  | |- rsafe (bind _ _) => apply bind_rsafe; [ | intros]
  | |- rsafe (if ?c then _ else _) => destruct c
  | |- rsafe _ => solve [eauto with rsafe]
  end.

Section PolygonStream.
Import Reader Mt5Loader.

Lemma readStripEntry_rsafe vb nv type ps : rsafe (readStripEntry vb nv type ps).
Proof.
  unfold readStripEntry, readShort.
  apply bind_rsafe; [apply readInt16_rsafe | intros rawIdx].
  apply bind_rsafe; [ | intros uv; apply bind_rsafe; [ | intros; apply ret_rsafe]].
  - destruct (hasUV type); repeat rsafe_step.
  - destruct (hasColor type); repeat rsafe_step.
Qed.

Lemma readStrip_rsafe vb nv type ps n strip :
  rsafe (readStrip vb nv type ps n strip).
Proof.
  revert strip. induction n as [ | n IH]; intros strip; cbn [readStrip].
  - apply ret_rsafe.
  - apply bind_rsafe; [apply readStripEntry_rsafe | intros; apply IH].
Qed.

Lemma readStrips_rsafe vb nv type ps n strips :
  rsafe (readStrips vb nv type ps n strips).
Proof.
  revert strips. induction n as [ | n IH]; intros strips; cbn [readStrips].
  - apply ret_rsafe.
  - unfold readShort. apply bind_rsafe; [apply readInt16_rsafe | intros len].
    apply bind_rsafe; [apply readStrip_rsafe | intros; apply IH].
Qed.

Lemma readPolygons_loop_rsafe vb nv n ps : rsafe (readPolygons_loop vb nv n ps).
Proof.
  revert ps. induction n as [ | n IH]; intros ps; cbn [readPolygons_loop].
  - apply ret_rsafe.
  - unfold readUShort.
    pose proof (readStrips_rsafe vb nv) as Hstrips.
    repeat rsafe_step.
Qed.

Lemma readPolygons_rsafe vb nv : rsafe (readPolygons vb nv).
Proof. unfold readPolygons. apply readPolygons_loop_rsafe. Qed.

Lemma returns_ret {A : Type} (a : A) (Q : A -> Prop) : Q a -> returns (ret a) Q.
Proof. intros HQ r a' r' Hrun. ret_inv Hrun. exact HQ. Qed.

Lemma returns_bind {A B : Type} (m : M BinaryReader A)
    (k : A -> M BinaryReader B) (Q : B -> Prop) :
  (forall a, returns (k a) Q) -> returns (bind m k) Q.
Proof.
  intros Hk r b r2 Hrun.
  apply bind_Ok_inv in Hrun as (a & r1 & _ & Hrun2).
  exact (Hk a _ _ _ Hrun2).
Qed.

Lemma returns_weaken {A : Type} (m : M BinaryReader A) (Q R : A -> Prop) :
  returns m Q -> (forall a, Q a -> R a) -> returns m R.
Proof. intros Hm HQR r a r' Hrun. apply HQR. exact (Hm _ _ _ Hrun). Qed.

(** Strip groups are only ever appended: whatever the rest of the stream
    holds, the groups accumulated at a loop state are the first groups of
    the result. *)
Lemma readPolygons_loop_extends vb nv n : forall ps,
  returns (readPolygons_loop vb nv n ps)
          (fun polys => exists more, polys = ps_polygons ps ++ more).
Proof.
  induction n as [ | n IH]; intros ps; cbn [readPolygons_loop].
  - apply returns_ret. exists []. symmetry. apply app_nil_r.
  - assert (Hstop : returns (ret (ps_polygons ps))
                      (fun polys => exists more, polys = ps_polygons ps ++ more)).
    { apply returns_ret. exists []. symmetry. apply app_nil_r. }
    repeat lazymatch goal with
      | |- returns (ret _) _ => exact Hstop
      | |- returns (bind _ _) _ => apply returns_bind; intros
      | |- returns (if ?c then _ else _) _ => destruct c
      | |- returns (readPolygons_loop _ _ _ _) _ =>
          eapply returns_weaken; [apply IH | cbn [ps_polygons]; intros ? [more ->]]
      end;
      eauto.
    eexists. rewrite <- app_assoc. reflexivity.
Qed.



End PolygonStream.

(** ** Mesh decode never throws *)

Create HintDb ssafe.

Section MeshSafety.
Import Reader Mt5Loader.

Lemma rd_ssafe {A : Type} (m : M BinaryReader A) : rsafe m -> ssafe (rd m).
Proof.
  intros Hm s Hwf. destruct (Hm _ Hwf) as (a & r' & Heq & Hwf' & Hbuf).
  exists a, (set_reader s r'). unfold rd. rewrite Heq.
  split; [reflexivity | ]. cbn. auto.
Qed.

Lemma ret_ssafe {A : Type} (a : A) : ssafe (ret a).
Proof. intros s Hwf. exists a, s. auto. Qed.

Lemma bind_ssafe {A B : Type} (m : M State A) (k : A -> M State B) :
  ssafe m -> (forall a, ssafe (k a)) -> ssafe (bind m k).
Proof.
  intros Hm Hk s Hwf.
  destruct (Hm s Hwf) as (a & s1 & Heq & Hwf1 & Hbuf1 & Hn1).
  destruct (Hk a s1 Hwf1) as (b & s2 & Heq2 & Hwf2 & Hbuf2 & Hn2).
  exists b, s2. rewrite (bind_Ok _ _ _ _ _ Heq).
  split; [exact Heq2 | ]. split; [exact Hwf2 | ]. split; congruence.
Qed.

Lemma get_state_ssafe {B : Type} (k : State -> M State B) :
  (forall s, ssafe (k s)) -> ssafe (bind get_state k).
Proof.
  intros Hk. apply bind_ssafe; [ | exact Hk].
  intros s Hwf. exists s, s. auto.
Qed.

Lemma pushVertex_ssafe v : ssafe (pushVertex v).
Proof. intros s Hwf. eexists _, _. split; [reflexivity | cbn; auto]. Qed.

Lemma addVertexOffset_ssafe n : ssafe (addVertexOffset n).
Proof. intros s Hwf. eexists _, _. split; [reflexivity | cbn; auto]. Qed.

End MeshSafety.

#[local] Hint Resolve ret_ssafe pushVertex_ssafe addVertexOffset_ssafe : ssafe.
#[local] Hint Extern 1 (ssafe (Mt5Loader.rd _)) =>
  apply rd_ssafe; solve [eauto with rsafe] : ssafe.

Ltac ssafe_step :=
  lazymatch goal with
  | |- ssafe (ret _) => apply ret_ssafe
  | |- ssafe (bind get_state _) => apply get_state_ssafe; intros
  | |- ssafe (bind _ _) => apply bind_ssafe; [ | intros]
  | |- ssafe (if ?c then _ else _) => destruct c
  | |- ssafe _ => solve [eauto with ssafe]
  end.

Section ModelSafety.
Import Reader Mt5Loader.

Lemma readVertices_ssafe n : ssafe (readVertices n).
Proof.
  induction n as [ | n IH]; cbn [readVertices]; repeat ssafe_step.
Qed.

Lemma readModelPolygons_ssafe addr vb nv : ssafe (readModelPolygons addr vb nv).
Proof.
  unfold readModelPolygons.
  pose proof (readPolygons_rsafe vb nv) as Hpoly.
  repeat ssafe_step.
Qed.

Lemma readModel_ssafe : ssafe readModel.
Proof.
  unfold readModel.
  pose proof readVertices_ssafe as Hverts.
  pose proof readModelPolygons_ssafe as Hpolys.
  repeat ssafe_step.
Qed.

Lemma rd_Ok {A : Type} (m : M BinaryReader A) s a r' :
  m (st_reader s) = Ok (a, r') -> rd m s = Ok (a, set_reader s r').
Proof. intros Hm. unfold rd. rewrite Hm. reflexivity. Qed.

(** The polygon stream of a mesh is decoded between a save and a restore
    of the cursor: whatever the stream holds, the call returns and the
    loader state is the one it started from. *)
Lemma readModelPolygons_frame addr vb nv s :
  0 <= offset (st_reader s) <= size (st_reader s) ->
  exists polys, readModelPolygons addr vb nv s = Ok (polys, s).
Proof.
  intros Hoff. unfold readModelPolygons.
  set (r := st_reader s).
  rewrite (bind_Ok _ _ _ _ _ (rd_Ok tell s (offset r) r eq_refl)).
  set (s1 := set_reader s r).
  set (r1 := set_offset r (Z.max 0 (Z.min addr (size r)))).
  rewrite (bind_Ok _ _ _ _ _ (rd_Ok (seek addr) s1 tt r1 eq_refl)).
  destruct (readPolygons_rsafe vb nv r1) as (polys & r2 & Hpoly & Hwf2 & Hbuf2).
  { unfold wf, r1. cbn. lia. }
  rewrite (bind_Ok _ _ _ _ _ (rd_Ok _ (set_reader s1 r1) _ _ Hpoly)).
  set (r3 := set_offset r2 (Z.max 0 (Z.min (offset r) (size r2)))).
  rewrite (bind_Ok _ _ _ _ _
             (rd_Ok (seek (offset r)) (set_reader (set_reader s1 r1) r2) tt r3
                    eq_refl)).
  exists polys. unfold ret. do 2 f_equal. clear Hpoly.
  unfold r3, set_reader, set_offset, size, s1, r1, r in *.
  destruct s as [[buf off] cache verts voff nodes sets].
  cbn in *. rewrite Hbuf2. rewrite Z.min_l, Z.max_r by lia. reflexivity.
Qed.



End ModelSafety.

(** ** The node tree *)

Section NodeTree.
Import Reader Mt5Loader.

Lemma total_bind {A B : Type} P (m : M State A) Q (k : A -> M State B) R :
  total P m Q -> (forall a, total (Q a) (k a) R) -> total P (bind m k) R.
Proof.
  intros Hm Hk s HP.
  destruct (Hm s HP) as (a & s1 & Heq & HQ).
  destruct (Hk a s1 HQ) as (b & s2 & Heq2 & HR).
  exists b, s2. rewrite (bind_Ok _ _ _ _ _ Heq). auto.
Qed.

Lemma ssafe_total {A : Type} s0 (m : M State A) :
  ssafe m -> total (same_nodes s0) m (fun _ => same_nodes s0).
Proof.
  intros Hm s (Hwf & Hbuf & Hnodes).
  destruct (Hm s Hwf) as (a & s' & Heq & Hwf' & Hbuf' & Hnodes').
  exists a, s'. split; [exact Heq | ].
  unfold same_nodes. split; [exact Hwf' | split; congruence].
Qed.

Lemma visited_false_notin nodes a :
  visited nodes a = false -> a ∉ map n_addr nodes.
Proof.
  unfold visited. intros Hvis Hin.
  apply list_elem_of_In, in_map_iff in Hin as (nd & Haddr & Hnd).
  assert (Htrue : existsb (fun n => n_addr n =? a) nodes = true).
  { apply existsb_exists. exists nd. split; [exact Hnd | lia]. }
  congruence.
Qed.

Lemma addr_pigeonhole (l : list Z) (K : Z) :
  NoDup l -> Forall (fun a => 0 <= a < K) l ->
  Z.of_nat (length l) <= Z.max 0 K.
Proof.
  intros Hnd Hrange.
  assert (Hsub : l ⊆+ seqZ 0 (Z.max 0 K)).
  { apply NoDup_submseteq; [exact Hnd | ]. intros x Hx.
    rewrite Forall_forall in Hrange. specialize (Hrange x Hx).
    apply elem_of_seqZ. lia. }
  apply submseteq_length in Hsub. rewrite length_seqZ in Hsub. lia.
Qed.

Lemma nodes_ok_bound s : nodes_ok s -> 0 <= unvisited_bound s.
Proof.
  intros [Hnd Hrange]. unfold unvisited_bound.
  pose proof (addr_pigeonhole (map n_addr (st_nodes s))
                (size (st_reader s) - 63) Hnd) as Hlen.
  rewrite length_map in Hlen.
  assert (Z.of_nat (length (st_nodes s)) <= Z.max 0 (size (st_reader s) - 63)).
  { apply Hlen. eapply Forall_impl; [exact Hrange | ]. intros a Ha. cbn in Ha. lia. }
  lia.
Qed.

Lemma node_post_refl s : wf (st_reader s) -> nodes_ok s -> node_post s s.
Proof.
  intros Hwf Hok. split; [exact Hwf | split; [reflexivity | split; [ | exact Hok]]].
  exists []. symmetry. apply app_nil_r.
Qed.

Lemma node_post_trans s1 s2 s3 :
  node_post s1 s2 -> node_post s2 s3 -> node_post s1 s3.
Proof.
  intros (_ & Hb12 & [n12 Hn12] & _) (Hwf3 & Hb23 & [n23 Hn23] & Hok3).
  split; [exact Hwf3 | split; [congruence | split; [ | exact Hok3]]].
  exists (n12 ++ n23). rewrite Hn23, Hn12, app_assoc. reflexivity.
Qed.

Lemma node_post_bound s s' :
  node_post s s' -> unvisited_bound s' <= unvisited_bound s.
Proof.
  intros (_ & Hbuf & [new Hnew] & _). unfold unvisited_bound, size.
  rewrite Hbuf, Hnew, length_app. lia.
Qed.

(** The descent into a child or sibling link. *)
Lemma descend_total fuel link sz s :
  node_goal fuel ->
  wf (st_reader s) -> nodes_ok s -> unvisited_bound s < Z.of_nat fuel ->
  exists s',
    (if negb (link =? 0) && (link <? sz)
     then bind (rd (seek link)) (fun _ => readNode fuel) else ret tt) s
    = Ok (tt, s')
    /\ node_post s s'.
Proof.
  intros IH Hwf Hok Hbound.
  destruct (negb (link =? 0) && (link <? sz)).
  - set (s1 := set_reader s (set_offset (st_reader s)
                               (Z.max 0 (Z.min link (size (st_reader s)))))).
    assert (Hseek : rd (seek link) s = Ok (tt, s1)) by reflexivity.
    rewrite (bind_Ok _ _ _ _ _ Hseek).
    destruct (IH s1) as (s' & Hrun & Hpost).
    + unfold wf, s1. cbn. lia.
    + exact Hok.
    + exact Hbound.
    + exists s'. split; [exact Hrun | ].
      destruct Hpost as (Hwf' & Hbuf' & Hnew' & Hok').
      split; [exact Hwf' | split; [exact Hbuf' | split; [exact Hnew' | exact Hok']]].
  - exists s. split; [reflexivity | apply node_post_refl; assumption].
Qed.

(** One field of the node record: a read that never throws. *)
Ltac read_field x :=
  eapply total_bind;
  [apply ssafe_total; solve [eauto with ssafe] | intros x].

Lemma readNode_total fuel : node_goal fuel.
Proof.
  induction fuel as [ | fuel IH]; intros s Hwf Hok Hbound.
  - pose proof (nodes_ok_bound s Hok). cbn in Hbound. lia.
  - cbn [readNode].
    rewrite (bind_Ok get_state _ s s s) by reflexivity.
    destruct (canRead (st_reader s) 64) eqn:Hcan; cbn [negb];
      [ | exists s; split; [reflexivity | apply node_post_refl; assumption]].
    destruct (visited (st_nodes s) (offset (st_reader s))) eqn:Hvis;
      [exists s; split; [reflexivity | apply node_post_refl; assumption] | ].
    match goal with
    | |- exists s', ?m s = Ok (tt, s') /\ _ =>
        assert (Ht : total (same_nodes s) m (fun _ s' => node_post s s'))
    end.
    { read_field flag. read_field modelAddr.
      read_field rx. read_field ry. read_field rz.
      read_field sx. read_field sy. read_field sz.
      read_field px. read_field py. read_field pz.
      read_field child. read_field sibling. read_field parentAddr.
      read_field unk1. read_field unk2.
      eapply total_bind; [apply ssafe_total | intros model].
      { pose proof readModel_ssafe as Hmodel. repeat ssafe_step. }
      intros s1 (Hwf1 & Hbuf1 & Hnodes1).
      match goal with
      | |- context [pushNode ?nd] => set (node := nd)
      end.
      set (s2 := mkState (st_reader s1) (st_textureCache s1)
                   (st_globalVertices s1) (st_vertexOffset s1)
                   (st_nodes s1 ++ [node]) (st_cacheSets s1)).
      rewrite (bind_Ok (pushNode node) _ s1 tt s2) by reflexivity.
      assert (Hrange : 0 <= offset (st_reader s) <= size (st_reader s) - 64).
      { unfold canRead in Hcan. apply Z.leb_le in Hcan. unfold wf in Hwf. lia. }
      assert (Hpost2 : node_post s s2).
      { destruct Hok as [Hnd Hin]. unfold node_post, nodes_ok, s2, size.
        cbn [st_reader st_nodes]. rewrite Hbuf1, Hnodes1, map_app.
        cbn [map n_addr node].
        split; [exact Hwf1 | split; [reflexivity | split; [eauto | split]]].
        - apply NoDup_app. split; [exact Hnd | split; [ | apply NoDup_singleton]].
          intros a Ha Hsingle. apply list_elem_of_singleton in Hsingle. subst a.
          apply (visited_false_notin _ _ Hvis Ha).
        - apply Forall_app. split; [exact Hin | ].
          apply Forall_singleton. exact Hrange. }
      assert (Hbound2 : unvisited_bound s2 < Z.of_nat fuel).
      { unfold unvisited_bound, s2, size in *. cbn [st_reader st_nodes].
        rewrite Hbuf1, Hnodes1, length_app. cbn [length]. lia. }
      destruct Hpost2 as (Hwf2 & Hbuf2 & Hnew2 & Hok2).
      destruct (descend_total fuel child (size (st_reader s)) s2 IH Hwf2 Hok2 Hbound2)
        as (s3 & Hrun3 & Hpost3).
      rewrite (bind_Ok _ _ _ _ _ Hrun3).
      pose proof (node_post_bound _ _ Hpost3) as Hbound3.
      destruct (descend_total fuel sibling (size (st_reader s)) s3 IH)
        as (s4 & Hrun4 & Hpost4);
        [apply Hpost3 | apply Hpost3 | lia | ].
      exists tt, s4. split; [exact Hrun4 | ].
      apply node_post_trans with (s2 := s3); [ | exact Hpost4].
      apply node_post_trans with (s2 := s2); [ | exact Hpost3].
      split; [exact Hwf2 | split; [exact Hbuf2 | split; [exact Hnew2 | exact Hok2]]]. }
    destruct (Ht s) as ([] & s' & Hrun & Hpost).
    + split; [exact Hwf | split; reflexivity].
    + exists s'. split; [exact Hrun | exact Hpost].
Qed.

Lemma refines_refl {S A : Type} (m : M S A) : refines m m.
Proof. intros s res H. exact H. Qed.

Lemma refines_bind {S A B : Type} (m : M S A) (k1 k2 : A -> M S B) :
  (forall a, refines (k1 a) (k2 a)) -> refines (bind m k1) (bind m k2).
Proof.
  intros Hk s [b s2] Hrun.
  apply bind_Ok_inv in Hrun as (a & s1 & Hm & Hk1).
  rewrite (bind_Ok _ _ _ _ _ Hm). apply Hk. exact Hk1.
Qed.

Lemma refines_bind2 {S A B : Type} (m1 m2 : M S A) (k1 k2 : A -> M S B) :
  refines m1 m2 -> (forall a, refines (k1 a) (k2 a)) ->
  refines (bind m1 k1) (bind m2 k2).
Proof.
  intros Hm Hk s [b s2] Hrun.
  apply bind_Ok_inv in Hrun as (a & s1 & Hm1 & Hk1).
  rewrite (bind_Ok _ _ _ _ _ (Hm _ _ Hm1)). apply Hk. exact Hk1.
Qed.

Ltac refines_step :=
  lazymatch goal with
  | |- refines (bind ?m _) (bind ?m _) => apply refines_bind; intros
  | |- refines (bind _ _) (bind _ _) => apply refines_bind2; [ | intros]
  | |- refines (if ?c then _ else _) (if ?c then _ else _) => destruct c
  | |- refines ?m ?m => apply refines_refl
  end.

(** More fuel does not change what [readNode] returns. *)
Lemma readNode_fuel_mono fuel : refines (readNode fuel) (readNode (S fuel)).
Proof.
  induction fuel as [ | fuel IH].
  - intros s res Hrun. discriminate Hrun.
  - remember (S fuel) as fuel1 eqn:Hfuel1.
    cbn [readNode]. rewrite Hfuel1 at 1. cbn [readNode].
    repeat first [refines_step | exact IH].
Qed.

Lemma readNode_fuel_le fuel fuel' :
  (fuel <= fuel')%nat -> refines (readNode fuel) (readNode fuel').
Proof.
  induction 1 as [ | fuel' Hle IH]; [apply refines_refl | ].
  intros s res Hrun. apply readNode_fuel_mono, IH, Hrun.
Qed.

(** C6: from a state whose node list holds each address once, the
    traversal returns for every amount of fuel above the buffer length,
    with one and the same result; it only appends to the node list and the
    list still holds each address once.  At an address already in the list
    the call returns at once and changes nothing. *)
Theorem readNode_visits_each_offset_once s :
  wf (st_reader s) ->
  nodes_ok s ->
  (exists s' new,
     (forall fuel, (length (buffer (st_reader s)) < fuel)%nat ->
                   readNode fuel s = Ok (tt, s'))
     /\ st_nodes s' = st_nodes s ++ new
     /\ NoDup (map n_addr (st_nodes s')))
  /\ (visited (st_nodes s) (offset (st_reader s)) = true ->
      forall fuel, readNode (S fuel) s = Ok (tt, s)).
Proof.
  intros Hwf Hok. split.
  - destruct (readNode_total (S (length (buffer (st_reader s)))) s Hwf Hok)
      as (s' & Hrun & _ & _ & [new Hnew] & [Hnd _]).
    { pose proof (nodes_ok_bound s Hok). unfold unvisited_bound, size in *. lia. }
    exists s', new. split; [ | split; assumption].
    intros fuel Hfuel.
    apply (readNode_fuel_le (S (length (buffer (st_reader s)))) fuel); [lia | exact Hrun].
  - intros Hvis fuel. cbn [readNode].
    rewrite (bind_Ok get_state _ s s s) by reflexivity.
    destruct (canRead (st_reader s) 64); cbn [negb]; [ | reflexivity].
    rewrite Hvis. reflexivity.
Qed.

Lemma readNode_visits_each_offset_once_witness :
  exists s',
    readNode 193 cyclic_start = Ok (tt, s')
    /\ map n_addr (st_nodes s') = [64; 128].
Proof.
  assert (Hwf : wf (st_reader cyclic_start)) by (unfold wf; cbn; lia).
  assert (Hok : nodes_ok cyclic_start).
  { split; cbn; [apply NoDup_nil_2 | apply Forall_nil_2]. }
  destruct (readNode_visits_each_offset_once cyclic_start Hwf Hok)
    as [(s' & new & Hrun & _ & _) _].
  exists s'. split; [apply Hrun; vm_compute; lia | ].
  specialize (Hrun 193%nat). 
  assert (Hlen : (length (buffer (st_reader cyclic_start)) < 193)%nat)
    by (vm_compute; lia).
  specialize (Hrun Hlen).
  assert (Heval : exists s1, readNode 193 cyclic_start = Ok (tt, s1)
                             /\ map n_addr (st_nodes s1) = [64; 128]).
  { eexists. split; vm_compute; reflexivity. }
  destruct Heval as (s1 & Hs1 & Haddr).
  rewrite Hs1 in Hrun. injection Hrun as <-. exact Haddr.
Defined.

End NodeTree.

(** ** The texture directory and the two packs *)

Section KeepsRules.
Import Reader Mt5Loader.

Lemma keeps_ret {A : Type} (I : State -> Prop) (a : A) (Q : A -> Prop) :
  Q a -> keeps I (ret a) Q.
Proof. intros HQ s a' s' HI Hrun. ret_inv Hrun. auto. Qed.

Lemma keeps_bind {A B : Type} (I : State -> Prop) (m : M State A)
    (k : A -> M State B) (Q : A -> Prop) (R : B -> Prop) :
  keeps I m Q -> (forall a, Q a -> keeps I (k a) R) -> keeps I (bind m k) R.
Proof.
  intros Hm Hk s b s2 HI Hrun.
  apply bind_Ok_inv in Hrun as (a & s1 & Hrun1 & Hrun2).
  destruct (Hm _ _ _ HI Hrun1) as [HI1 HQ].
  exact (Hk a HQ _ _ _ HI1 Hrun2).
Qed.

Lemma keeps_weaken {A : Type} (I : State -> Prop) (m : M State A)
    (Q R : A -> Prop) :
  keeps I m Q -> (forall a, Q a -> R a) -> keeps I m R.
Proof.
  intros Hm HQR s a s' HI Hrun. destruct (Hm _ _ _ HI Hrun). auto.
Qed.

Lemma keeps_throw {A : Type} (I : State -> Prop) e (Q : A -> Prop) :
  keeps I (throw e) Q.
Proof. intros s a s' _ Hrun. discriminate Hrun. Qed.

Lemma keeps_out_of_fuel {A : Type} (I : State -> Prop) (Q : A -> Prop) :
  keeps I (fun _ => OutOfFuel) Q.
Proof. intros s a s' _ Hrun. discriminate Hrun. Qed.

Lemma keeps_get_state (I : State -> Prop) : keeps I get_state (fun _ => True).
Proof. intros s a s' HI Hrun. injection Hrun as <- <-. auto. Qed.

Variables (c1 : gmap Z Texture) (w1 : list Z).

Lemma fills_only_reader s r :
  fills_only c1 w1 s -> fills_only c1 w1 (set_reader s r).
Proof. intros Hs. exact Hs. Qed.

Lemma fills_only_unbound s k :
  fills_only c1 w1 s -> st_textureCache s !! k = None -> c1 !! k = None.
Proof.
  intros (w & _ & Hw & Hsame) Hnone.
  destruct (decide (k ∈ w)) as [Hin | Hout].
  - rewrite Forall_forall in Hw. exact (Hw k Hin).
  - rewrite <- (Hsame k Hout). exact Hnone.
Qed.

Lemma keeps_rd {A : Type} (m : M BinaryReader A) :
  keeps (fills_only c1 w1) (rd m) (fun _ => True).
Proof.
  intros s a s' HI Hrun. unfold rd in Hrun.
  destruct (m (st_reader s)) as [[a' r'] | e | ]; try discriminate.
  injection Hrun as <- <-. split; [apply fills_only_reader; exact HI | exact Logic.I].
Qed.

Lemma keeps_decodePvr buf :
  keeps (fills_only c1 w1) (decodePvr buf) (fun _ => True).
Proof.
  intros s a s' HI Hrun. unfold decodePvr in Hrun.
  destruct (PvrDecoder.decodeBuffer buf); try discriminate.
  injection Hrun as <- <-. auto.
Qed.

Lemma keeps_onReader {A : Type} (m : M BinaryReader A) sec :
  keeps (fills_only c1 w1) (onReader m sec) (fun _ => True).
Proof.
  intros s a s' HI Hrun. unfold onReader in Hrun.
  destruct (m sec) as [[a' r'] | e | ]; try discriminate.
  injection Hrun as <- <-. auto.
Qed.

Lemma keeps_cacheHas k :
  keeps (fills_only c1 w1) (cacheHas k) (fun b => b = false -> c1 !! k = None).
Proof.
  intros s b s' HI Hrun. unfold cacheHas in Hrun. injection Hrun as <- <-.
  split; [exact HI | ]. intros Hfalse.
  apply bool_decide_eq_false in Hfalse.
  apply (fills_only_unbound s k HI).
  destruct (st_textureCache s !! k) eqn:Hk; [ | reflexivity].
  exfalso. apply Hfalse. eauto.
Qed.

Lemma keeps_cacheSet k tex :
  c1 !! k = None ->
  keeps (fills_only c1 w1) (cacheSet k tex) (fun _ => True).
Proof.
  intros Hk s a s' (w & Hsets & Hw & Hsame) Hrun.
  unfold cacheSet in Hrun. injection Hrun as <- <-.
  split; [ | exact Logic.I]. exists (w ++ [k]). cbn.
  split; [rewrite Hsets, app_assoc; reflexivity | ].
  split; [apply Forall_app; split; [exact Hw | apply Forall_singleton; exact Hk] | ].
  intros j Hj. rewrite elem_of_app, list_elem_of_singleton in Hj.
  rewrite lookup_insert_ne by (intros ->; apply Hj; right; reflexivity).
  apply Hsame. intros Hin. apply Hj. left. exact Hin.
Qed.

End KeepsRules.

Ltac keeps_step :=
  lazymatch goal with
  | |- keeps _ (ret _) _ => apply keeps_ret
  | |- keeps _ (throw _) _ => apply keeps_throw
  | |- keeps _ (bind get_state _) _ =>
      eapply keeps_bind; [apply keeps_get_state | intros ? _]
  | |- keeps _ (bind (Mt5Loader.rd _) _) _ =>
      eapply keeps_bind; [apply keeps_rd | intros ? _]
  | |- keeps _ (bind (Mt5Loader.decodePvr _) _) _ =>
      eapply keeps_bind; [apply keeps_decodePvr | intros ? _]
  | |- keeps _ (bind (Mt5Loader.onReader _ _) _) _ =>
      eapply keeps_bind; [apply keeps_onReader | intros ? _]
  | |- keeps _ (bind (Mt5Loader.cacheHas _) _) _ =>
      eapply keeps_bind; [apply keeps_cacheHas | intros [] ?]
  | |- keeps _ (bind (Mt5Loader.cacheSet _ _) _) _ =>
      eapply keeps_bind; [apply keeps_cacheSet; solve [auto] | intros ? _]
  | |- keeps _ (Mt5Loader.cacheSet _ _) _ =>
      eapply keeps_weaken; [apply keeps_cacheSet; solve [auto] | auto]
  | |- keeps _ (if ?c then _ else _) _ => destruct c
  end.

Section TexturePasses.
Import Reader Mt5Loader.
Variables (c1 : gmap Z Texture) (w1 : list Z).

Lemma texnScan_keeps fuel nodeEnd texCounter :
  c1 !! texCounter = None ->
  keeps (fills_only c1 w1) (texnScan fuel nodeEnd texCounter)
        (fun _ => True).
Proof.
  intros Hfree. induction fuel as [ | fuel IH]; cbn [texnScan].
  - apply keeps_out_of_fuel.
  - repeat first [exact IH | keeps_step]; exact Logic.I.
Qed.

Lemma nameLoop_keeps nbTex n : forall texCounter reqs,
  pending_ok c1 reqs ->
  keeps (fills_only c1 w1) (nameLoop nbTex true n texCounter reqs)
        (fun res => pending_ok c1 res.2).
Proof.
  induction n as [ | n IH]; intros texCounter reqs Hreqs; cbn [nameLoop].
  - apply keeps_ret. exact Hreqs.
  - keeps_step. keeps_step; cbn [andb].
    + keeps_step; [apply keeps_ret; exact Hreqs | apply IH; exact Hreqs].
    + assert (Hreqs' : pending_ok c1 (reqs ++ [mkNameRequest a texCounter])).
      { apply Forall_app. split; [exact Hreqs | ].
        apply Forall_singleton. cbn. auto. }
      keeps_step; [apply keeps_ret; exact Hreqs' | apply IH; exact Hreqs'].
Qed.

Lemma dirLoop_keeps nbTex scanFuel fuel : forall texCounter reqs,
  pending_ok c1 reqs ->
  keeps (fills_only c1 w1) (dirLoop nbTex true scanFuel fuel texCounter reqs)
        (pending_ok c1).
Proof.
  induction fuel as [ | fuel IH]; intros texCounter reqs Hreqs; cbn [dirLoop].
  - apply keeps_out_of_fuel.
  - pose proof (texnScan_keeps scanFuel) as Hscan.
    keeps_step. keeps_step; [apply keeps_ret; exact Hreqs | ].
    keeps_step. keeps_step. keeps_step; [apply keeps_ret; exact Hreqs | ].
    keeps_step; [ | keeps_step; [ | keeps_step]].
    + (* embedded image *)
      keeps_step; cbn [andb].
      * keeps_step. apply IH. exact Hreqs.
      * keeps_step.
        eapply keeps_bind; [apply Hscan; auto | intros ? _].
        keeps_step. apply IH. exact Hreqs.
    + (* external references *)
      eapply keeps_bind; [apply nameLoop_keeps; exact Hreqs | intros res Hres].
      keeps_step. apply IH. exact Hres.
    + (* raw image *)
      keeps_step; cbn [andb].
      * keeps_step. apply IH. exact Hreqs.
      * do 4 keeps_step. keeps_step. apply IH. exact Hreqs.
    + keeps_step. apply IH. exact Hreqs.
Qed.

Lemma packScan_keeps fuel reqHi reqLo index : forall sec,
  c1 !! index = None ->
  keeps (fills_only c1 w1) (packScan fuel reqHi reqLo index sec) (fun _ => True).
Proof.
  induction fuel as [ | fuel IH]; intros sec Hfree; cbn [packScan].
  - apply keeps_out_of_fuel.
  - keeps_step; [apply keeps_ret; exact Logic.I | ].
    destruct (DataView.getUint32 (buffer sec) (offset sec));
      [ | apply keeps_throw].
    destruct (DataView.getUint32 (buffer sec) (offset sec + 4));
      [ | apply keeps_throw].
    destruct (DataView.getUint32 (buffer sec) (offset sec + 8));
      [ | apply keeps_throw].
    keeps_step; [apply keeps_ret; exact Logic.I | ].
    keeps_step. keeps_step.
    + keeps_step. keeps_step. apply keeps_ret. exact Logic.I.
    + keeps_step. apply IH. exact Hfree.
Qed.

Lemma resolveAll_keeps fuel reqs : forall sec,
  pending_ok c1 reqs ->
  keeps (fills_only c1 w1) (resolveAll fuel reqs sec) (fun _ => True).
Proof.
  induction reqs as [ | req rest IH]; intros sec Hreqs; cbn [resolveAll].
  - apply keeps_ret. exact Logic.I.
  - apply Forall_cons in Hreqs as [Hreq Hrest].
    keeps_step; [apply keeps_throw | ].
    destruct (DataView.getUint32 (req_id req) 0); [ | apply keeps_throw].
    destruct (DataView.getUint32 (req_id req) 4); [ | apply keeps_throw].
    keeps_step.
    eapply keeps_bind; [apply packScan_keeps; exact Hreq | intros sec' _].
    apply IH. exact Hrest.
Qed.

Lemma readTextures_keeps fuel secondaryReader :
  keeps (fills_only c1 w1) (readTextures fuel secondaryReader true)
        (fun _ => True).
Proof.
  unfold readTextures.
  keeps_step. keeps_step. keeps_step; [apply keeps_ret; exact Logic.I | ].
  keeps_step. keeps_step. keeps_step.
  eapply keeps_bind;
    [apply dirLoop_keeps; apply Forall_nil_2 | intros reqs Hreqs].
  destruct secondaryReader as [sec | ]; [ | apply keeps_ret; exact Logic.I].
  keeps_step; [ | apply keeps_ret; exact Logic.I].
  eapply keeps_bind; [apply resolveAll_keeps; exact Hreqs | intros ? _].
  apply keeps_ret. exact Logic.I.
Qed.

End TexturePasses.

(** *** Where the directory decode does not return

    The three loops of [readTextures] carry fuel because the scan for the
    nested tag may never end: at the end of the buffer [readString] reads
    fewer than four bytes and [skip(-3)] steps back over them.  The two
    remarks below run the model on a truncated directory; they are why the
    property of the two passes is stated for runs that return. *)

Section DirectoryLimits.
Import Reader Mt5Loader.

Lemma bind_OutOfFuel {S A B : Type} (m : M S A) (k : A -> M S B) s :
  m s = OutOfFuel -> bind m k s = OutOfFuel.
Proof. intros Hm. unfold bind. rewrite Hm. reflexivity. Qed.

(** One pass of the scan loop over [truncated_texn], from cursor [pos] to
    cursor [pos']. *)
Lemma texnScan_step fuel pos pos' :
  pos < 108 ->
  (exists tag,
     rd (readString 4) (truncated_at pos) = Ok (tag, truncated_at (pos' + 3))
     /\ String.eqb tag "PVRT" = false /\ 3 <= pos' + 3 <= 33) ->
  texnScan (S fuel) 112 0 (truncated_at pos)
  = texnScan fuel 112 0 (truncated_at pos').
Proof.
  intros Hpos (tag & Hread & Htag & Hrange). cbn [texnScan].
  rewrite (bind_Ok (rd tell) _ (truncated_at pos) pos (truncated_at pos))
    by reflexivity.
  destruct (Z.ltb_spec pos (112 - 4)); [ | lia]. cbn [negb].
  rewrite (bind_Ok _ _ _ _ _ Hread). rewrite Htag.
  assert (Hskip : rd (skip (-3)) (truncated_at (pos' + 3))
                  = Ok (tt, truncated_at pos')).
  { unfold rd, skip, seek, truncated_at, set_reader, set_offset, size. cbn.
    do 4 f_equal. change (Z.of_nat (length truncated_texn)) with 33. lia. }
  rewrite (bind_Ok _ _ _ _ _ Hskip). reflexivity.
Qed.

Ltac scan_step fuel from to :=
  rewrite (texnScan_step fuel from to);
  [ | lia
    | eexists; split; [vm_compute; reflexivity | split; [reflexivity | lia]]].

Lemma texnScan_spins fuel : texnScan fuel 112 0 (truncated_at 30) = OutOfFuel.
Proof.
  induction fuel as [ | fuel IH]; [reflexivity | ].
  scan_step fuel 30 30. exact IH.
Qed.

Lemma texnScan_truncated fuel :
  texnScan fuel 112 0 (truncated_at 28) = OutOfFuel.
Proof.
  destruct fuel as [ | fuel]; [reflexivity | ]. scan_step fuel 28 29.
  destruct fuel as [ | fuel]; [reflexivity | ]. scan_step fuel 29 30.
  apply texnScan_spins.
Qed.

Ltac run_step := erewrite bind_Ok; [ | vm_compute; reflexivity].

Ltac run_if :=
  lazymatch goal with
  | |- (if ?c then _ else _) _ = _ =>
      let v := eval vm_compute in c in change c with v; cbv iota
  end.

(** On the truncated embedded-image block no amount of fuel is enough. *)
Remark readTextures_truncated_never_returns fuel :
  readTextures fuel None false (truncated_at 0) = OutOfFuel.
Proof.
  unfold readTextures.
  run_step. run_step. run_if.
  run_step. run_step. run_step.
  apply bind_OutOfFuel.
  destruct fuel as [ | fuel]; [reflexivity | ]. cbn [dirLoop].
  run_step. run_if. run_step. run_step. run_if. run_if.
  run_step. run_if. run_step.
  apply bind_OutOfFuel. exact (texnScan_truncated (S fuel)).
Qed.

(** On the truncated external-reference block, resolving against a pack
    builds an 8-byte view over fewer than 8 bytes and throws. *)
Remark readTextures_truncated_name_throws :
  readTextures 10 (Some (Reader.new time_pack)) false
               (mkState (Reader.new truncated_name) ∅ [] 0 [] [])
  = Throw RangeError.
Proof. vm_compute. reflexivity. Qed.

End DirectoryLimits.

Section TwoPacks.
Import Reader Mt5Loader.

Lemma fills_only_start s : fills_only (st_textureCache s) (st_cacheSets s) s.
Proof.
  exists []. split; [symmetry; apply app_nil_r | ].
  split; [apply Forall_nil_2 | reflexivity].
Qed.

(** C9: with both packs supplied, the texture block of [load] runs the
    time-variant pass first and then the base pass on the state the first
    pass left.  Every [textureCache.set] of the base pass goes to a slot
    that was unbound when the time-variant pass ended; hence every binding
    present at that moment is still there, unchanged, after both passes,
    and the cache differs only at the slots the base pass set. *)
Theorem base_pass_fills_unbound_only fuel texOffset baseR timeR s s2 :
  loadTextures fuel texOffset (Some baseR) (Some timeR) s = Ok (tt, s2) ->
  exists s1 sets2,
    readTextures fuel (Some timeR) false s = Ok (tt, s1)
    /\ bind (rd (seek texOffset))
            (fun _ => readTextures fuel (Some baseR) true) s1 = Ok (tt, s2)
    /\ st_cacheSets s2 = st_cacheSets s1 ++ sets2
    /\ Forall (fun k => st_textureCache s1 !! k = None) sets2
    /\ (forall k tex, st_textureCache s1 !! k = Some tex ->
                      st_textureCache s2 !! k = Some tex)
    /\ (forall k, k ∉ sets2 -> st_textureCache s2 !! k = st_textureCache s1 !! k).
Proof.
  intros Hrun. unfold loadTextures in Hrun.
  apply bind_Ok_inv in Hrun as ([] & s1 & Hpass1 & Hpass2).
  assert (Hkeeps : keeps (fills_only (st_textureCache s1) (st_cacheSets s1))
                     (bind (rd (seek texOffset))
                           (fun _ => readTextures fuel (Some baseR) true))
                     (fun _ => True)).
  { eapply keeps_bind; [apply keeps_rd | intros ? _].
    apply readTextures_keeps. }
  destruct (Hkeeps _ _ _ (fills_only_start s1) Hpass2)
    as [(sets2 & Hsets & Hunbound & Hsame) _].
  exists s1, sets2.
  split; [exact Hpass1 | ]. split; [exact Hpass2 | ].
  split; [exact Hsets | ]. split; [exact Hunbound | ].
  split; [ | exact Hsame].
  intros k tex Hk. rewrite Hsame; [exact Hk | ].
  intros Hin. rewrite Forall_forall in Hunbound.
  rewrite (Hunbound k Hin) in Hk. discriminate Hk.
Qed.

Lemma base_pass_fills_unbound_only_witness :
  exists s2,
    loadTextures 100 12 (Some (Reader.new base_pack))
                 (Some (Reader.new time_pack)) two_slot_start = Ok (tt, s2)
    /\ tex_width <$> st_textureCache s2 !! 0 = Some 2
    /\ tex_width <$> st_textureCache s2 !! 1 = Some 1
    /\ st_cacheSets s2 = [0; 1].
Proof.
  assert (Hrun : exists s2,
             loadTextures 100 12 (Some (Reader.new base_pack))
                          (Some (Reader.new time_pack)) two_slot_start
             = Ok (tt, s2)
             /\ tex_width <$> st_textureCache s2 !! 1 = Some 1
             /\ st_cacheSets s2 = [0; 1]).
  { eexists. split; [vm_compute; reflexivity | split; vm_compute; reflexivity]. }
  destruct Hrun as (s2 & Hrun & Hslot1 & Hsets).
  exists s2. split; [exact Hrun | ].
  destruct (base_pass_fills_unbound_only _ _ _ _ _ _ Hrun)
    as (s1 & sets2 & Hpass1 & _ & _ & _ & Hkept & _).
  split; [ | split; [exact Hslot1 | exact Hsets]].
  assert (Htime : exists tex, st_textureCache s1 !! 0 = Some tex
                              /\ tex_width tex = 2).
  { assert (Heval : exists s1', readTextures 100 (Some (Reader.new time_pack))
                                  false two_slot_start = Ok (tt, s1')
                                /\ tex_width <$> st_textureCache s1' !! 0 = Some 2).
    { eexists. split; vm_compute; reflexivity. }
    destruct Heval as (s1' & Heq & Hw).
    rewrite Heq in Hpass1. injection Hpass1 as <-.
    destruct (st_textureCache s1' !! 0) as [tex | ]; [ | discriminate Hw].
    exists tex. split; [reflexivity | ]. cbn in Hw. congruence. }
  destruct Htime as (tex & Hbound & Hwidth).
  rewrite (Hkept 0 tex Hbound). cbn. rewrite Hwidth. reflexivity.
Defined.

End TwoPacks.
(** * Further properties *)

(** ** BinaryReader: values, cursor and composition *)

Section ReaderValues.
Import Reader.

Lemma readFixed_lands {A : Type} (w : Z) (zero : A) access (ok : A -> Prop) r :
  0 <= w -> wf r -> ok zero ->
  (forall buf pos, 0 <= pos -> pos + w <= Z.of_nat (length buf) ->
                   exists v, access buf pos = Some v /\ ok v) ->
  exists v r', readFixed w zero access r = Ok (v, r')
               /\ ok v /\ buffer r' = buffer r /\ in_buffer r'.
Proof.
  intros Hw Hwf Hzero Haccess. unfold readFixed, canRead, wf, in_buffer, size in *.
  destruct (Z.leb_spec (offset r + w) (Z.of_nat (length (buffer r)))) as [Hin | Hout];
    cbn [negb].
  - destruct (Haccess (buffer r) (offset r)) as (v & Hv & Hok); [lia | lia | ].
    rewrite Hv. eexists _, _. split; [reflexivity | ]. cbn. repeat split; auto; lia.
  - eexists _, _. split; [reflexivity | ]. cbn. repeat split; auto; lia.
Qed.

Lemma signed32_range (u : Z) :
  0 <= u < 2 ^ 32 -> - 2 ^ 31 <= DataView.signed 32 u < 2 ^ 31.
Proof.
  intros Hu. unfold DataView.signed.
  change (2 ^ (32 - 1)) with (2 ^ 31).
  destruct (Z.ltb_spec u (2 ^ 31)); lia.
Qed.

(** X1: from any cursor that is not negative, each integer read returns
    without an exception a value of its type's range, leaves the buffer
    alone and leaves the cursor inside the buffer (also when it started
    past the end). *)
Theorem integer_reads_in_range (r : BinaryReader) :
  wf r ->
  (exists v r', readUInt8 r = Ok (v, r') /\ 0 <= v <= 255
                /\ buffer r' = buffer r /\ in_buffer r')
  /\ (exists v r', readUInt16 r = Ok (v, r') /\ 0 <= v <= 65535
                   /\ buffer r' = buffer r /\ in_buffer r')
  /\ (exists v r', readInt16 r = Ok (v, r') /\ -32768 <= v <= 32767
                   /\ buffer r' = buffer r /\ in_buffer r')
  /\ (exists v r', readUInt32 r = Ok (v, r') /\ 0 <= v < 2 ^ 32
                   /\ buffer r' = buffer r /\ in_buffer r')
  /\ (exists v r', readInt32 r = Ok (v, r') /\ - 2 ^ 31 <= v < 2 ^ 31
                   /\ buffer r' = buffer r /\ in_buffer r').
Proof.
  intros Hwf. repeat split.
  - apply (readFixed_lands 1 0 DataView.getUint8 (fun v => 0 <= v <= 255));
      [lia | exact Hwf | lia | ].
    intros buf pos Hlo Hhi. apply getUint8_Some. lia.
  - apply (readFixed_lands 2 0 DataView.getUint16 (fun v => 0 <= v <= 65535));
      [lia | exact Hwf | lia | ].
    intros buf pos Hlo Hhi.
    destruct (getUint16_Some buf pos Hlo Hhi) as (v & Hv & Hr).
    exists v. split; [exact Hv | lia].
  - apply (readFixed_lands 2 0 DataView.getInt16 (fun v => -32768 <= v <= 32767));
      [lia | exact Hwf | lia | ].
    intros buf pos Hlo Hhi. unfold DataView.getInt16.
    destruct (getUint16_Some buf pos Hlo Hhi) as (v & -> & Hr).
    eexists. split; [reflexivity | apply signed16_range; exact Hr].
  - apply (readFixed_lands 4 0 DataView.getUint32 (fun v => 0 <= v < 2 ^ 32));
      [lia | exact Hwf | lia | ].
    intros buf pos Hlo Hhi. apply getUint32_Some; assumption.
  - apply (readFixed_lands 4 0 DataView.getInt32 (fun v => - 2 ^ 31 <= v < 2 ^ 31));
      [lia | exact Hwf | lia | ].
    intros buf pos Hlo Hhi. unfold DataView.getInt32.
    destruct (getUint32_Some buf pos Hlo Hhi) as (v & -> & Hr).
    eexists. split; [reflexivity | apply signed32_range; exact Hr].
Qed.

Lemma integer_reads_in_range_witness :
  exists v r', readInt16 (mkReader (bytes [0xFE; 0xFF; 7]) 0) = Ok (v, r')
               /\ -32768 <= v <= 32767 /\ in_buffer r'.
Proof.
  destruct (integer_reads_in_range (mkReader (bytes [0xFE; 0xFF; 7]) 0))
    as (_ & _ & (v & r' & Hrun & Hrange & _ & Hin) & _).
  - unfold wf. cbn. lia.
  - exists v, r'. auto.
Defined.

(** Little-endian layout: inside the buffer a wider read is the two
    narrower reads in sequence, low half first. *)
Lemma getUint16_split buf pos lo hi :
  DataView.getUint8 buf pos = Some lo ->
  DataView.getUint8 buf (pos + 1) = Some hi ->
  DataView.getUint16 buf pos = Some (lo + 256 * hi).
Proof. intros Hlo Hhi. unfold DataView.getUint16. rewrite Hlo, Hhi. reflexivity. Qed.

Lemma readFixed_avail {A : Type} (w : Z) (zero : A) access r v :
  offset r + w <= size r ->
  access (buffer r) (offset r) = Some v ->
  readFixed w zero access r = Ok (v, set_offset r (offset r + w)).
Proof.
  intros Hin Hv. unfold readFixed, canRead.
  destruct (Z.leb_spec (offset r + w) (size r)); [ | lia].
  cbn [negb]. rewrite Hv. reflexivity.
Qed.

(** X2: with four bytes left, [readUInt32] is two [readUInt16] in a row
    combined as [lo + 65536 * hi], and with two bytes left [readUInt16] is
    two [readUInt8] combined as [lo + 256 * hi]. *)
Theorem wide_reads_are_little_endian (r : BinaryReader) :
  wf r ->
  (offset r + 4 <= size r ->
     readUInt32 r
     = bind readUInt16 (fun lo => bind readUInt16 (fun hi =>
         ret (lo + 65536 * hi))) r)
  /\ (offset r + 2 <= size r ->
        readUInt16 r
        = bind readUInt8 (fun lo => bind readUInt8 (fun hi =>
            ret (lo + 256 * hi))) r).
Proof.
  intros Hwf. split; intros Hin.
  - assert (Hlen : offset r + 4 <= Z.of_nat (length (buffer r))) by exact Hin.
    unfold wf in Hwf.
    destruct (getUint8_Some (buffer r) (offset r)) as (b0 & H0 & _); [lia | ].
    destruct (getUint8_Some (buffer r) (offset r + 1)) as (b1 & H1 & _); [lia | ].
    destruct (getUint8_Some (buffer r) (offset r + 2)) as (b2 & H2 & _); [lia | ].
    destruct (getUint8_Some (buffer r) (offset r + 3)) as (b3 & H3 & _); [lia | ].
    assert (H32 : DataView.getUint32 (buffer r) (offset r)
                  = Some (b0 + 256 * b1 + 65536 * b2 + 16777216 * b3)).
    { unfold DataView.getUint32. rewrite H0, H1, H2, H3. reflexivity. }
    unfold readUInt32. rewrite (readFixed_avail 4 0 _ r _ Hin H32).
    unfold readUInt16.
    assert (Hin2 : offset r + 2 <= size r) by lia.
    rewrite (bind_Ok _ _ _ _ _
               (readFixed_avail 2 0 DataView.getUint16 r _ Hin2
                                (getUint16_split _ _ _ _ H0 H1))).
    set (r2 := set_offset r (offset r + 2)).
    assert (H23 : DataView.getUint16 (buffer r2) (offset r2) = Some (b2 + 256 * b3)).
    { cbn. apply getUint16_split; [exact H2 | ].
      replace (offset r + 2 + 1) with (offset r + 3) by lia. exact H3. }
    assert (Hin3 : offset r2 + 2 <= size r2) by (unfold r2, size in *; cbn; lia).
    rewrite (bind_Ok _ _ _ _ _
               (readFixed_avail 2 0 DataView.getUint16 r2 _ Hin3 H23)).
    unfold ret, set_offset, r2. cbn. do 2 f_equal; [lia | f_equal; lia].
  - assert (Hlen : offset r + 2 <= Z.of_nat (length (buffer r))) by exact Hin.
    unfold wf in Hwf.
    destruct (getUint8_Some (buffer r) (offset r)) as (b0 & H0 & _); [lia | ].
    destruct (getUint8_Some (buffer r) (offset r + 1)) as (b1 & H1 & _); [lia | ].
    unfold readUInt16.
    rewrite (readFixed_avail 2 0 _ r _ Hin (getUint16_split _ _ _ _ H0 H1)).
    unfold readUInt8.
    assert (Hin1 : offset r + 1 <= size r) by lia.
    rewrite (bind_Ok _ _ _ _ _
               (readFixed_avail 1 0 DataView.getUint8 r _ Hin1 H0)).
    set (r1 := set_offset r (offset r + 1)).
    assert (H1' : DataView.getUint8 (buffer r1) (offset r1) = Some b1)
      by (cbn; exact H1).
    assert (Hin1' : offset r1 + 1 <= size r1) by (unfold r1, size in *; cbn; lia).
    rewrite (bind_Ok _ _ _ _ _
               (readFixed_avail 1 0 DataView.getUint8 r1 _ Hin1' H1')).
    unfold ret, set_offset, r1. cbn. do 2 f_equal. f_equal. lia.
Qed.

Lemma wide_reads_are_little_endian_witness :
  readUInt32 (mkReader (bytes [0x78; 0x56; 0x34; 0x12]) 0)
  = bind readUInt16 (fun lo => bind readUInt16 (fun hi =>
      ret (lo + 65536 * hi))) (mkReader (bytes [0x78; 0x56; 0x34; 0x12]) 0).
Proof.
  refine (proj1 (wide_reads_are_little_endian
                   (mkReader (bytes [0x78; 0x56; 0x34; 0x12]) 0) _) _).
  - unfold wf. cbn. lia.
  - vm_compute. discriminate.
Defined.

End ReaderValues.

Section ReaderStrings.
Import Reader.

Lemma string_app_nil_r (s : string) : (s ++ "")%string = s.
Proof.
  induction s as [ | a s IH]; [reflexivity | ].
  change (String a s ++ "")%string with (String a (s ++ "")%string).
  rewrite IH. reflexivity.
Qed.

Lemma string_app_assoc (s1 s2 s3 : string) :
  ((s1 ++ s2) ++ s3)%string = (s1 ++ (s2 ++ s3))%string.
Proof.
  induction s1 as [ | a s1 IH]; [reflexivity | ].
  change (String a (s1 ++ s2)%string ++ s3 = String a (s1 ++ (s2 ++ s3)))%string.
  change (String a ((s1 ++ s2) ++ s3) = String a (s1 ++ (s2 ++ s3)))%string.
  rewrite IH. reflexivity.
Qed.

Lemma set_offset_same r : set_offset r (offset r) = r.
Proof. destruct r. reflexivity. Qed.

Lemma readString_loop_window n : forall str r,
  wf r ->
  exists r',
    readString_loop n str r
    = Ok ((str ++ chars_until_nul
                    (take n (drop (Z.to_nat (offset r)) (buffer r))))%string, r')
    /\ buffer r' = buffer r
    /\ (offset r + Z.of_nat n <= size r -> offset r' = offset r + Z.of_nat n).
Proof.
  induction n as [ | n IH]; intros str r Hwf; cbn [readString_loop].
  - exists r. rewrite take_0. cbn [chars_until_nul].
    rewrite string_app_nil_r. split; [reflexivity | split; [reflexivity | lia]].
  - unfold wf in Hwf.
    rewrite (bind_Ok get_state _ r r r) by reflexivity.
    unfold canRead, size.
    destruct (Z.leb_spec (offset r + 1) (Z.of_nat (length (buffer r))))
      as [Hin | Hout]; cbn [negb].
    + destruct (lookup_lt_is_Some_2 (buffer r) (Z.to_nat (offset r)))
        as [b Hb]; [lia | ].
      rewrite (drop_S _ _ _ Hb). cbn [take chars_until_nul].
      assert (Hget : DataView.getUint8 (buffer r) (offset r) = Some (byte_val b)).
      { unfold DataView.getUint8. destruct (Z.ltb_spec (offset r) 0); [lia | ].
        rewrite Hb. reflexivity. }
      assert (Hin1 : offset r + 1 <= size r) by exact Hin.
      unfold readUInt8.
      rewrite (bind_Ok _ _ _ _ _ (readFixed_avail 1 0 _ r _ Hin1 Hget)).
      destruct (Z.eqb_spec (byte_val b) 0) as [Hnul | Hchar].
      * exists (set_offset (set_offset r (offset r + 1))
                           (offset r + 1 + Z.of_nat n)).
        rewrite string_app_nil_r.
        split; [reflexivity | split; [reflexivity | ]].
        intros _. cbn [offset set_offset]. lia.
      * destruct (IH (str ++ fromCharCode (byte_val b))%string
                     (set_offset r (offset r + 1))) as (r' & Hrun & Hbuf & Hoff).
        { unfold wf. cbn. lia. }
        exists r'. rewrite Hrun. cbn [buffer offset set_offset] in *.
        replace (Z.to_nat (offset r + 1)) with (S (Z.to_nat (offset r))) by lia.
        rewrite string_app_assoc.
        split; [reflexivity | split; [exact Hbuf | ]].
        intros Havail. unfold size in *. cbn [buffer offset set_offset] in *. lia.
    + exists r. rewrite drop_ge by lia. rewrite take_nil. cbn [chars_until_nul].
      rewrite string_app_nil_r.
      split; [reflexivity | split; [reflexivity | intros; unfold size in *; lia]].
Qed.

(** X3: [readString(len)] returns the characters of the next [len] bytes
    (or of those that remain) up to the first NUL, never throws, and when
    [len] bytes remain it advances the cursor by exactly [len], wherever the
    NUL is. *)
Theorem readString_window (len : nat) (r : BinaryReader) :
  wf r ->
  exists r',
    readString len r
    = Ok (chars_until_nul (take len (drop (Z.to_nat (offset r)) (buffer r))), r')
    /\ buffer r' = buffer r
    /\ (offset r + Z.of_nat len <= size r -> offset r' = offset r + Z.of_nat len).
Proof.
  intros Hwf. unfold readString.
  destruct (readString_loop_window len EmptyString r Hwf) as (r' & Hrun & Hrest).
  exists r'. split; [exact Hrun | exact Hrest].
Qed.

Lemma readString_window_witness :
  exists r',
    readString 4 (mkReader (bytes [72; 105; 0; 9; 9; 9]) 0) = Ok ("Hi"%string, r')
    /\ offset r' = 4.
Proof.
  destruct (readString_window 4 (mkReader (bytes [72; 105; 0; 9; 9; 9]) 0))
    as (r' & Hrun & _ & Hoff).
  - unfold wf. cbn. lia.
  - exists r'. split; [exact Hrun | ]. apply Hoff. vm_compute. discriminate.
Defined.

(** X4: [readUInt16At(pos)] is a pure peek: for a position that is not
    negative it never throws and never moves the cursor; it returns the
    little-endian value at [pos] when two bytes are there and 0 when they
    are not. *)
Theorem readUInt16At_peeks (pos : Z) (r : BinaryReader) :
  0 <= pos ->
  exists v,
    readUInt16At pos r = Ok (v, r)
    /\ 0 <= v <= 65535
    /\ (size r < pos + 2 -> v = 0)
    /\ (pos + 2 <= size r -> DataView.getUint16 (buffer r) pos = Some v).
Proof.
  intros Hpos. unfold readUInt16At.
  destruct (Z.ltb_spec (size r) (pos + 2)) as [Hout | Hin].
  - exists 0. split; [reflexivity | ]. split; [lia | ]. split; [reflexivity | lia].
  - destruct (getUint16_Some (buffer r) pos Hpos) as (v & Hv & Hrange);
      [exact Hin | ].
    rewrite Hv. exists v. split; [reflexivity | ].
    split; [lia | ]. split; [lia | intros _; reflexivity].
Qed.

Lemma readUInt16At_peeks_witness :
  exists v,
    readUInt16At 1 (mkReader (bytes [9; 0x34; 0x12]) 3)
    = Ok (v, mkReader (bytes [9; 0x34; 0x12]) 3)
    /\ DataView.getUint16 (bytes [9; 0x34; 0x12]) 1 = Some v.
Proof.
  destruct (readUInt16At_peeks 1 (mkReader (bytes [9; 0x34; 0x12]) 3))
    as (v & Hrun & _ & _ & Hval); [lia | ].
  exists v. split; [exact Hrun | ]. apply Hval. vm_compute. discriminate.
Defined.

(** X5: [skip(n)] followed by [skip(-n)] puts the cursor back where it
    was, provided the cursor and the position [n] bytes away are both
    inside the buffer (elsewhere [seek] clamps and the position is lost). *)
Theorem skip_there_and_back (n : Z) (r : BinaryReader) :
  in_buffer r ->
  0 <= offset r + n <= size r ->
  bind (skip n) (fun _ => skip (- n)) r = Ok (tt, r).
Proof.
  intros Hin Hthere. destruct r as [buf off].
  unfold in_buffer, bind, skip, seek, set_offset, size in *.
  cbn [buffer offset] in *.
  rewrite (Z.min_l (off + n)), (Z.max_r 0 (off + n)) by lia.
  replace (off + n + - n) with off by lia.
  rewrite Z.min_l, Z.max_r by lia. reflexivity.
Qed.

Lemma skip_there_and_back_witness :
  bind (skip 2) (fun _ => skip (- 2)) (mkReader (bytes [1; 2; 3]) 1)
  = Ok (tt, mkReader (bytes [1; 2; 3]) 1).
Proof.
  apply (skip_there_and_back 2 (mkReader (bytes [1; 2; 3]) 1)).
  - unfold in_buffer. vm_compute. split; discriminate.
  - vm_compute. split; discriminate.
Defined.

End ReaderStrings.

(** ** PvrDecoder: colours and the pixel buffer *)

Section Colours.
Import PvrDecoder.

Lemma field_shift_range (a k s : Z) :
  0 <= k -> 0 <= s -> k + s <= 8 ->
  0 <= JS.shl (JS.band a (Z.ones k)) s <= 255.
Proof.
  intros Hk Hs Hks.
  destruct (band_mask_range a k Hk) as [Hband | Hbig]; [ | lia].
  assert (Hpow : 2 ^ k * 2 ^ s <= 2 ^ 8).
  { rewrite <- Z.pow_add_r by lia. apply Z.pow_le_mono_r; lia. }
  assert (Hs0 : 0 < 2 ^ s) by (apply Z.pow_pos_nonneg; lia).
  assert (Hprod : JS.band a (Z.ones k) * 2 ^ s < 2 ^ k * 2 ^ s)
    by (apply Z.mul_lt_mono_pos_r; lia).
  rewrite shl_small; [ | lia | lia | ].
  - split; [apply Z.mul_nonneg_nonneg; lia | ]. change (2 ^ 8) with 256 in Hpow. lia.
  - change (2 ^ 8) with 256 in Hpow. lia.
Qed.

Lemma decodeColor_range (v format : Z) :
  Forall (fun c => 0 <= c <= 255) (channels (decodeColor v format)).
Proof.
  unfold decodeColor.
  pose proof (fun a => field_shift_range a 5 3 ltac:(lia) ltac:(lia) ltac:(lia)) as H53.
  pose proof (fun a => field_shift_range a 6 2 ltac:(lia) ltac:(lia) ltac:(lia)) as H62.
  pose proof (fun a => field_shift_range a 4 4 ltac:(lia) ltac:(lia) ltac:(lia)) as H44.
  change (Z.ones 5) with 31 in H53. change (Z.ones 6) with 63 in H62.
  change (Z.ones 4) with 15 in H44.
  assert (Hff : 0 <= 255 <= 255) by lia.
  destruct (format =? 0); [ | destruct (format =? 1); [ | destruct (format =? 2)]];
    cbn [channels].
  - repeat apply Forall_cons_2; [apply H53 | apply H53 | apply H53 | | apply Forall_nil_2].
    destruct (JS.truthy _); [exact Hff | clear; lia].
  - repeat apply Forall_cons_2;
      [apply H53 | apply H62 | apply H53 | exact Hff | apply Forall_nil_2].
  - repeat apply Forall_cons_2;
      [apply H44 | apply H44 | apply H44 | apply H44 | apply Forall_nil_2].
  - repeat apply Forall_cons_2;
      [exact Hff | exact Hff | exact Hff | exact Hff | apply Forall_nil_2].
Qed.

(** X6: every channel [decodeColor] produces, for any source value and any
    format code, is a byte: between 0 and 255. *)
Theorem decodeColor_channels_are_bytes (v format : Z) :
  Forall (fun c => 0 <= c <= 255) (channels (decodeColor v format)).
Proof. apply decodeColor_range. Qed.

End Colours.

Section PixelStores.
Import PvrDecoder.

Lemma store8_length arr idx v : length (store8 arr idx v) = length arr.
Proof.
  unfold store8. destruct (idx <? 0); [reflexivity | apply length_insert].
Qed.

Lemma store8_lookup_ne arr idx v (j : nat) :
  Z.of_nat j <> idx -> store8 arr idx v !! j = arr !! j.
Proof.
  intros Hne. unfold store8. destruct (Z.ltb_spec idx 0); [reflexivity | ].
  apply list_lookup_insert_ne. lia.
Qed.

Lemma store8_lookup_eq arr idx v :
  0 <= idx < Z.of_nat (length arr) ->
  store8 arr idx v !! Z.to_nat idx = Some (v mod 256).
Proof.
  intros Hin. unfold store8. destruct (Z.ltb_spec idx 0); [lia | ].
  apply list_lookup_insert_eq. lia.
Qed.

Lemma store8_bytes arr idx v :
  Forall (fun c => 0 <= c <= 255) arr ->
  Forall (fun c => 0 <= c <= 255) (store8 arr idx v).
Proof.
  intros Harr. unfold store8. destruct (idx <? 0); [exact Harr | ].
  apply Forall_insert; [exact Harr | ].
  pose proof (Z.mod_pos_bound v 256 ltac:(lia)). lia.
Qed.

Lemma storeRGBA_length arr d c : length (storeRGBA arr d c) = length arr.
Proof.
  destruct c as [[[r g] b] a]. unfold storeRGBA.
  rewrite !store8_length. reflexivity.
Qed.

Lemma storeRGBA_bytes arr d c :
  Forall (fun c => 0 <= c <= 255) arr ->
  Forall (fun c => 0 <= c <= 255) (storeRGBA arr d c).
Proof.
  intros Harr. destruct c as [[[r g] b] a]. unfold storeRGBA.
  repeat apply store8_bytes. exact Harr.
Qed.

Lemma storeRGBA_lookup_other arr d c (j : nat) :
  (Z.of_nat j < d \/ d + 4 <= Z.of_nat j) ->
  storeRGBA arr d c !! j = arr !! j.
Proof.
  intros Hout. destruct c as [[[r g] b] a]. unfold storeRGBA.
  rewrite !store8_lookup_ne by lia. reflexivity.
Qed.

Lemma storeRGBA_lookup_hit arr d c (i : nat) :
  0 <= d -> d + 4 <= Z.of_nat (length arr) ->
  Forall (fun c => 0 <= c <= 255) (channels c) ->
  (i < 4)%nat ->
  storeRGBA arr d c !! (Z.to_nat d + i)%nat = channels c !! i.
Proof.
  intros Hd Hlen Hc Hi. destruct c as [[[r g] b] a].
  cbn [channels] in *.
  apply Forall_cons in Hc as [Hr Hc]. apply Forall_cons in Hc as [Hg Hc].
  apply Forall_cons in Hc as [Hb Hc]. apply Forall_cons in Hc as [Ha _].
  unfold storeRGBA.
  destruct i as [ | [ | [ | [ | i]]]]; [ | | | | lia]; cbn [lookup list_lookup].
  - rewrite !store8_lookup_ne by lia.
    replace (Z.to_nat d + 0)%nat with (Z.to_nat d) by lia.
    rewrite store8_lookup_eq by lia. rewrite Z.mod_small by lia. reflexivity.
  - rewrite !store8_lookup_ne by lia.
    replace (Z.to_nat d + 1)%nat with (Z.to_nat (d + 1)) by lia.
    rewrite store8_lookup_eq by (rewrite store8_length; lia).
    rewrite Z.mod_small by lia. reflexivity.
  - rewrite !store8_lookup_ne by lia.
    replace (Z.to_nat d + 2)%nat with (Z.to_nat (d + 2)) by lia.
    rewrite store8_lookup_eq by (rewrite !store8_length; lia).
    rewrite Z.mod_small by lia. reflexivity.
  - replace (Z.to_nat d + 3)%nat with (Z.to_nat (d + 3)) by lia.
    rewrite store8_lookup_eq by (rewrite !store8_length; lia).
    rewrite Z.mod_small by lia. reflexivity.
Qed.

Lemma pixelAt_lookup rgba k (i : nat) :
  0 <= k ->
  pixelAt rgba k !! i
  = if decide (i < 4)%nat then rgba !! (Z.to_nat (4 * k) + i)%nat else None.
Proof.
  intros Hk. unfold pixelAt. destruct (decide (i < 4)%nat) as [Hi | Hi].
  - rewrite lookup_take_lt by exact Hi. apply lookup_drop.
  - apply lookup_take_ge. lia.
Qed.

Lemma pixelAt_storeRGBA_other arr k k' c :
  0 <= k -> 0 <= k' -> k <> k' ->
  pixelAt (storeRGBA arr (4 * k) c) k' = pixelAt arr k'.
Proof.
  intros Hk Hk' Hne. apply list_eq. intros i.
  rewrite !pixelAt_lookup by assumption.
  destruct (decide (i < 4)%nat); [ | reflexivity].
  apply storeRGBA_lookup_other. lia.
Qed.

Lemma pixelAt_storeRGBA_hit arr k c :
  0 <= k -> 4 * k + 4 <= Z.of_nat (length arr) ->
  Forall (fun c => 0 <= c <= 255) (channels c) ->
  pixelAt (storeRGBA arr (4 * k) c) k = channels c.
Proof.
  intros Hk Hlen Hc. apply list_eq. intros i.
  rewrite pixelAt_lookup by assumption.
  destruct (decide (i < 4)%nat) as [Hi | Hi].
  - apply storeRGBA_lookup_hit; try assumption; lia.
  - symmetry. apply lookup_ge_None.
    destruct c as [[[r g] b] a]. cbn. lia.
Qed.

End PixelStores.

Section RawPixels.
Import Reader PvrDecoder.

Lemma untwiddle_range (x y : Z) :
  0 <= x < 2 ^ 31 -> 0 <= y < 2 ^ 31 -> 0 <= untwiddle x y < 2 ^ 20.
Proof.
  intros Hx Hy. unfold untwiddle.
  destruct (untwiddle_loop_bits x y Hx Hy 10 0 0) as [Hrange _];
    [lia | simpl; lia | lia | exact Hrange].
Qed.


Variables (width height colorFormat : Z) (isTwiddled : bool).
Hypothesis Hwidth : 0 <= width < 2 ^ 31.




Lemma newUint8Array_length (n : Z) :
  length (newUint8Array n) = Z.to_nat n.
Proof. apply length_replicate. Qed.

Lemma newUint8Array_bytes (n : Z) : Forall is_byte (newUint8Array n).
Proof.
  unfold newUint8Array. apply Forall_replicate. unfold is_byte. lia.
Qed.


End RawPixels.

Section WholeImage.
Import Reader PvrDecoder.

Lemma readUInt8_byte (r : BinaryReader) :
  wf r ->
  exists v r', readUInt8 r = Ok (v, r') /\ 0 <= v <= 255
               /\ buffer r' = buffer r /\ wf r'.
Proof.
  intros Hwf.
  destruct (readFixed_lands 1 0 DataView.getUint8 (fun v => 0 <= v <= 255) r)
    as (v & r' & Hrun & Hv & Hbuf & Hin); [lia | exact Hwf | lia | | ].
  - intros buf pos Hlo Hhi. apply getUint8_Some. lia.
  - exists v, r'. unfold in_buffer, wf in *. repeat split; auto; lia.
Qed.

Lemma readUInt16_word (r : BinaryReader) :
  wf r ->
  exists v r', readUInt16 r = Ok (v, r') /\ 0 <= v <= 65535
               /\ buffer r' = buffer r /\ wf r'.
Proof.
  intros Hwf.
  destruct (readFixed_lands 2 0 DataView.getUint16 (fun v => 0 <= v <= 65535) r)
    as (v & r' & Hrun & Hv & Hbuf & Hin); [lia | exact Hwf | lia | | ].
  - intros buf pos Hlo Hhi.
    destruct (getUint16_Some buf pos Hlo Hhi) as (v & Hv & Hr).
    exists v. split; [exact Hv | lia].
  - exists v, r'. unfold in_buffer, wf in *. repeat split; auto; lia.
Qed.

Lemma store8_outside arr idx v :
  Z.of_nat (length arr) <= idx -> store8 arr idx v = arr.
Proof.
  intros Hout. unfold store8. destruct (idx <? 0); [reflexivity | ].
  apply list_insert_ge. lia.
Qed.

Lemma storeRGBA_outside arr d c :
  Z.of_nat (length arr) <= d -> storeRGBA arr d c = arr.
Proof.
  intros Hout. destruct c as [[[r g] b] a]. unfold storeRGBA.
  rewrite (store8_outside arr d) by lia.
  rewrite (store8_outside arr (d + 1)) by lia.
  rewrite (store8_outside arr (d + 2)) by lia.
  apply store8_outside. lia.
Qed.

Variables (width height colorFormat : Z).
Hypothesis Hwidth : 0 <= width.

(** Storing a decoded colour at a pixel boundary of a buffer of whole
    pixels keeps every decoded pixel decoded. *)
Lemma storeRGBA_keeps_decoded (N : Z) rgba k' v k :
  Z.of_nat (length rgba) = 4 * N -> 0 <= k' -> 0 <= k ->
  decoded_pixel colorFormat rgba k ->
  decoded_pixel colorFormat
    (storeRGBA rgba (4 * k') (decodeColor v colorFormat)) k.
Proof.
  intros Hlen Hk' Hk Hdec.
  destruct (Z.lt_ge_cases k' N) as [Hin | Hout].
  - destruct (Z.eq_dec k k') as [-> | Hne].
    + exists v. apply pixelAt_storeRGBA_hit; [lia | lia | apply decodeColor_range].
    + destruct Hdec as [v0 Hv0]. exists v0.
      rewrite pixelAt_storeRGBA_other by lia. exact Hv0.
  - rewrite storeRGBA_outside by lia. exact Hdec.
Qed.

Lemma storeRGBA_makes_decoded (N : Z) rgba k v :
  Z.of_nat (length rgba) = 4 * N -> 0 <= k < N ->
  decoded_pixel colorFormat
    (storeRGBA rgba (4 * k) (decodeColor v colorFormat)) k.
Proof.
  intros Hlen Hk. exists v.
  apply pixelAt_storeRGBA_hit; [lia | lia | apply decodeColor_range].
Qed.

Lemma vq_block_spec (N x y : Z) (block : list Z) :
  0 <= x -> 0 <= y ->
  forall (n : nat) (i : Z) (rgba : list Z),
    0 <= i -> Z.of_nat (length rgba) = 4 * N ->
    let rgba' := vq_block width colorFormat n i x y block rgba in
    length rgba' = length rgba
    /\ (Forall is_byte rgba -> Forall is_byte rgba')
    /\ (forall k, 0 <= k -> decoded_pixel colorFormat rgba k ->
                  decoded_pixel colorFormat rgba' k)
    /\ (forall j, i <= j < i + Z.of_nat n -> blockPixel width x y j < N ->
                  decoded_pixel colorFormat rgba' (blockPixel width x y j)).
Proof.
  intros Hx Hy. induction n as [ | n IH]; intros i rgba Hi Hlen.
  - cbn. repeat split; auto. intros j Hj. lia.
  - cbn [vq_block]. fold (blockPixel width x y i).
    replace (blockPixel width x y i * 4) with (4 * blockPixel width x y i) by lia.
    set (v := nth (Z.to_nat i) block 0).
    assert (Hpos : forall j, 0 <= j -> 0 <= blockPixel width x y j).
    { intros j Hj. unfold blockPixel.
      assert (0 <= j / 2) by div_lia. assert (0 <= j mod 2) by div_lia. nia. }
    specialize (IH (i + 1)
                  (storeRGBA rgba (4 * blockPixel width x y i)
                             (decodeColor v colorFormat))).
    destruct IH as (Hlen' & Hbytes & Hmono & Hnew);
      [lia | rewrite storeRGBA_length; exact Hlen | ].
    cbv zeta. split; [rewrite Hlen', storeRGBA_length; reflexivity | ].
    split; [intros Hb; apply Hbytes, storeRGBA_bytes, Hb | ].
    split.
    + intros k Hk Hdec. apply Hmono; [exact Hk | ].
      apply (storeRGBA_keeps_decoded N); auto.
    + intros j Hj HjN. destruct (Z.eq_dec j i) as [-> | Hne].
      * apply Hmono; [apply Hpos; lia | ].
        apply (storeRGBA_makes_decoded N); [exact Hlen | ].
        split; [apply Hpos; lia | exact HjN].
      * apply Hnew; [lia | exact HjN].
Qed.

Lemma decodeVQ_row_spec (N y start : Z) (codebook : list (list Z)) :
  0 <= y ->
  forall (n : nat) (x : Z) (rgba : list Z) (r : BinaryReader),
    0 <= x -> Z.of_nat (length rgba) = 4 * N -> wf r ->
    exists rgba' r',
      decodeVQ_row width colorFormat n x y start codebook rgba r
      = Ok (rgba', r')
      /\ wf r' /\ buffer r' = buffer r
      /\ length rgba' = length rgba
      /\ (Forall is_byte rgba -> Forall is_byte rgba')
      /\ (forall k, 0 <= k -> decoded_pixel colorFormat rgba k ->
                    decoded_pixel colorFormat rgba' k)
      /\ (Z.of_nat (length codebook) = 256 ->
          forall j i, x <= j < x + Z.of_nat n -> 0 <= i < 4 ->
            blockPixel width j y i < N ->
            decoded_pixel colorFormat rgba' (blockPixel width j y i)).
Proof.
  intros Hy. induction n as [ | n IH]; intros x rgba r Hx Hlen Hwf.
  - exists rgba, r. cbn [decodeVQ_row]. split; [reflexivity | ].
    repeat split; auto. intros Hcb j i Hj. lia.
  - cbn [decodeVQ_row].
    destruct (seek_rsafe (start + untwiddle x y) r Hwf)
      as ([] & r1 & Hrun1 & Hwf1 & Hbuf1).
    unfold bind at 1. rewrite Hrun1.
    destruct (readUInt8_byte r1 Hwf1) as (code & r2 & Hrun2 & Hcode & Hbuf2 & Hwf2).
    unfold bind at 1. rewrite Hrun2.
    destruct (Z.leb_spec (Z.of_nat (length codebook)) code) as [Hskip | Hhit].
    + destruct (IH (x + 1) rgba r2) as
        (rgba' & r' & Hrun & Hwf' & Hbuf' & Hlen' & Hbytes & Hmono & Hnew);
        [lia | exact Hlen | exact Hwf2 | ].
      exists rgba', r'. split; [exact Hrun | ].
      split; [exact Hwf' | ]. split; [congruence | ].
      split; [exact Hlen' | ]. split; [exact Hbytes | ].
      split; [exact Hmono | ].
      intros Hcb j i Hj Hi HjN. apply Hnew; auto; lia.
    + set (block := nth (Z.to_nat code) codebook []).
      destruct (vq_block_spec N x y block Hx Hy 4 0 rgba ltac:(lia) Hlen)
        as (Hlen1 & Hbytes1 & Hmono1 & Hnew1).
      destruct (IH (x + 1) (vq_block width colorFormat 4 0 x y block rgba) r2)
        as (rgba' & r' & Hrun & Hwf' & Hbuf' & Hlen' & Hbytes & Hmono & Hnew);
        [lia | rewrite Hlen1; exact Hlen | exact Hwf2 | ].
      exists rgba', r'. split; [exact Hrun | ].
      split; [exact Hwf' | ]. split; [congruence | ].
      split; [congruence | ].
      split; [intros Hb; apply Hbytes, Hbytes1, Hb | ].
      split; [intros k Hk Hdec; apply Hmono, Hmono1; auto | ].
      intros Hcb j i Hj Hi HjN. destruct (Z.eq_dec j x) as [-> | Hne].
      * apply Hmono.
        -- unfold blockPixel.
           assert (0 <= i / 2) by div_lia. assert (0 <= i mod 2) by div_lia.
           nia.
        -- apply Hnew1; [simpl; lia | exact HjN].
      * apply Hnew; auto; lia.
Qed.

Lemma decodeVQ_rows_spec (N start : Z) (codebook : list (list Z)) :
  Z.of_nat (length codebook) = 256 ->
  forall (n : nat) (y : Z) (rgba : list Z) (r : BinaryReader),
    0 <= y -> Z.of_nat (length rgba) = 4 * N -> wf r ->
    exists rgba' r',
      decodeVQ_rows width colorFormat n y start codebook rgba r
      = Ok (rgba', r')
      /\ wf r' /\ buffer r' = buffer r
      /\ length rgba' = length rgba
      /\ (Forall is_byte rgba -> Forall is_byte rgba')
      /\ (forall k, 0 <= k -> decoded_pixel colorFormat rgba k ->
                    decoded_pixel colorFormat rgba' k)
      /\ (forall l j i, y <= l < y + Z.of_nat n ->
            0 <= j < Z.of_nat (half_trips width) -> 0 <= i < 4 ->
            blockPixel width j l i < N ->
            decoded_pixel colorFormat rgba' (blockPixel width j l i)).
Proof.
  intros Hcb. induction n as [ | n IH]; intros y rgba r Hy Hlen Hwf.
  - exists rgba, r. cbn [decodeVQ_rows]. split; [reflexivity | ].
    repeat split; auto. intros l j i Hl. lia.
  - cbn [decodeVQ_rows].
    destruct (decodeVQ_row_spec N y start codebook Hy (half_trips width) 0
                rgba r ltac:(lia) Hlen Hwf)
      as (rgba1 & r1 & Hrun1 & Hwf1 & Hbuf1 & Hlen1 & Hbytes1 & Hmono1 & Hnew1).
    unfold bind at 1. rewrite Hrun1.
    destruct (IH (y + 1) rgba1 r1)
      as (rgba' & r' & Hrun & Hwf' & Hbuf' & Hlen' & Hbytes & Hmono & Hnew);
      [lia | rewrite Hlen1; exact Hlen | exact Hwf1 | ].
    exists rgba', r'. split; [exact Hrun | ].
    split; [exact Hwf' | ]. split; [congruence | ]. split; [congruence | ].
    split; [intros Hb; apply Hbytes, Hbytes1, Hb | ].
    split; [intros k Hk Hdec; apply Hmono, Hmono1; auto | ].
    intros l j i Hl Hj Hi HjN. destruct (Z.eq_dec l y) as [-> | Hne].
    + apply Hmono.
      * unfold blockPixel.
        assert (0 <= i / 2) by div_lia. assert (0 <= i mod 2) by div_lia.
        nia.
      * apply Hnew1; auto; lia.
    + apply Hnew; auto; lia.
Qed.

Lemma readCodebook_spec :
  forall (n : nat) (codebook : list (list Z)) (r : BinaryReader),
    wf r ->
    exists codebook' r',
      readCodebook n codebook r = Ok (codebook', r')
      /\ wf r' /\ buffer r' = buffer r
      /\ length codebook' = (length codebook + n)%nat.
Proof.
  induction n as [ | n IH]; intros codebook r Hwf.
  - exists codebook, r. cbn [readCodebook]. split; [reflexivity | ].
    repeat split; auto.
  - cbn [readCodebook].
    destruct (readUInt16_word r Hwf) as (c0 & r0 & Hrun0 & _ & Hbuf0 & Hwf0).
    unfold bind at 1. rewrite Hrun0.
    destruct (readUInt16_word r0 Hwf0) as (c1 & r1 & Hrun1 & _ & Hbuf1 & Hwf1).
    unfold bind at 1. rewrite Hrun1.
    destruct (readUInt16_word r1 Hwf1) as (c2 & r2 & Hrun2 & _ & Hbuf2 & Hwf2).
    unfold bind at 1. rewrite Hrun2.
    destruct (readUInt16_word r2 Hwf2) as (c3 & r3 & Hrun3 & _ & Hbuf3 & Hwf3).
    unfold bind at 1. rewrite Hrun3.
    destruct (IH (codebook ++ [[c0; c1; c2; c3]]) r3 Hwf3)
      as (cb & r' & Hrun & Hwf' & Hbuf' & Hlen).
    exists cb, r'. split; [exact Hrun | ]. split; [exact Hwf' | ].
    split; [congruence | ].
    rewrite Hlen, length_app. simpl. lia.
Qed.

Hypothesis Hheight : 0 <= height.

Lemma pixel_in_block (k : Z) :
  0 <= k < width * height ->
  exists l j i,
    0 <= l < Z.of_nat (half_trips height)
    /\ 0 <= j < Z.of_nat (half_trips width)
    /\ 0 <= i < 4 /\ blockPixel width j l i = k.
Proof.
  intros Hk. assert (Hw : 0 < width) by nia.
  exists (k / width / 2), (k mod width / 2),
         (2 * (k / width mod 2) + k mod width mod 2).
  unfold half_trips, blockPixel.
  assert (Hq : 0 <= k / width < height).
  { split; [apply Z.div_pos; lia | apply Z.div_lt_upper_bound; nia]. }
  pose proof (Z.mod_pos_bound k width Hw) as Hm.
  pose proof (Z.div_mod k width ltac:(lia)) as Hkm.
  set (q := k / width) in *. set (m := k mod width) in *.
  replace ((2 * (q mod 2) + m mod 2) / 2) with (q mod 2) by div_lia.
  replace ((2 * (q mod 2) + m mod 2) mod 2) with (m mod 2) by div_lia.
  replace (q / 2 * 2 + q mod 2) with q by div_lia.
  replace (m / 2 * 2 + m mod 2) with m by div_lia.
  repeat split; div_lia.
Qed.

Lemma decodeVQ_spec (r : BinaryReader) :
  wf r ->
  exists rgba r',
    decodeVQ width height colorFormat r = Ok (rgba, r')
    /\ wf r' /\ buffer r' = buffer r
    /\ Z.of_nat (length rgba) = width * height * 4
    /\ Forall is_byte rgba
    /\ forall k, 0 <= k < width * height -> decoded_pixel colorFormat rgba k.
Proof.
  intros Hwf. unfold decodeVQ.
  destruct (readCodebook_spec 256 [] r Hwf) as (cb & r1 & Hrun1 & Hwf1 & Hbuf1 & Hcb).
  unfold bind at 1. rewrite Hrun1.
  unfold bind at 1. unfold tell at 1.
  assert (Hlen0 : Z.of_nat (length (newUint8Array (width * height * 4)))
                  = 4 * (width * height)).
  { rewrite newUint8Array_length. nia. }
  destruct (decodeVQ_rows_spec (width * height) (offset r1) cb
              ltac:(rewrite Hcb; reflexivity)
              (half_trips height) 0 _ r1 ltac:(lia) Hlen0 Hwf1)
    as (rgba & r' & Hrun & Hwf' & Hbuf' & Hlen & Hbytes & _ & Hnew).
  exists rgba, r'. split; [exact Hrun | ]. split; [exact Hwf' | ].
  split; [congruence | ]. split; [rewrite Hlen; lia | ].
  split; [apply Hbytes, newUint8Array_bytes | ].
  intros k Hk. destruct (pixel_in_block k Hk) as (l & j & i & Hl & Hj & Hi & <-).
  apply Hnew; auto; lia.
Qed.

End WholeImage.

Section DecodedTexture.
Import Reader PvrDecoder.










End DecodedTexture.

(** ** Mt5Loader: the polygon stream *)

Section StripEntries.
Import Reader Mt5Loader.

Lemma readFixed_exact {A : Type} (w : Z) (zero : A) access (ok : A -> Prop) r :
  0 <= w -> wf r -> offset r + w <= size r ->
  (forall buf pos, 0 <= pos -> pos + w <= Z.of_nat (length buf) ->
                   exists v, access buf pos = Some v /\ ok v) ->
  exists v, readFixed w zero access r = Ok (v, set_offset r (offset r + w))
            /\ ok v.
Proof.
  intros Hw Hwf Hin Haccess. unfold wf, size in *.
  destruct (Haccess (buffer r) (offset r)) as (v & Hv & Hok); [lia | lia | ].
  exists v. split; [ | exact Hok].
  apply readFixed_avail; [exact Hin | exact Hv].
Qed.

Lemma readShort_exact r :
  wf r -> offset r + 2 <= size r ->
  exists v, readShort r = Ok (v, set_offset r (offset r + 2))
            /\ -32768 <= v <= 32767.
Proof.
  intros Hwf Hin. unfold readShort, readInt16.
  apply (readFixed_exact 2 0 DataView.getInt16 (fun v => -32768 <= v <= 32767));
    [lia | exact Hwf | exact Hin | ].
  intros buf pos Hlo Hhi. unfold DataView.getInt16.
  destruct (getUint16_Some buf pos Hlo Hhi) as (v & -> & Hr).
  eexists. split; [reflexivity | apply signed16_range; exact Hr].
Qed.

Lemma readUInt8_exact r :
  wf r -> offset r + 1 <= size r ->
  exists v, readUInt8 r = Ok (v, set_offset r (offset r + 1))
            /\ 0 <= v <= 255.
Proof.
  intros Hwf Hin. unfold readUInt8.
  apply (readFixed_exact 1 0 DataView.getUint8 (fun v => 0 <= v <= 255));
    [lia | exact Hwf | exact Hin | ].
  intros buf pos Hlo Hhi. apply getUint8_Some. lia.
Qed.

Lemma channel_unit (c : Z) :
  0 <= c <= 255 -> (0 <= inject_Z c / 255 <= 1)%Q.
Proof.
  intros Hc. unfold Qle, Qdiv, Qmult, Qinv, inject_Z. cbn. lia.
Qed.

Lemma Ok_reader {A : Type} (a : A) (r r' : BinaryReader) :
  buffer r = buffer r' -> offset r = offset r' ->
  @Ok (A * BinaryReader) (a, r) = Ok (a, r').
Proof. destruct r, r'. cbn. intros -> ->. reflexivity. Qed.

Lemma two_shorts {A : Type} (f : Z -> Z -> A) r :
  wf r -> offset r + 4 <= size r ->
  exists texU texV,
    (texU <- readShort ;; texV <- readShort ;; ret (f texU texV)) r
    = Ok (f texU texV, set_offset r (offset r + 4)).
Proof.
  intros Hwf Hin.
  destruct (readShort_exact r Hwf) as (texU & HrunU & _); [lia | ].
  destruct (readShort_exact (set_offset r (offset r + 2)))
    as (texV & HrunV & _); [unfold wf in *; cbn; lia | unfold size in *; cbn; lia | ].
  exists texU, texV.
  rewrite (bind_Ok _ _ _ _ _ HrunU), (bind_Ok _ _ _ _ _ HrunV).
  unfold ret. apply Ok_reader; cbn; [reflexivity | lia].
Qed.

Lemma four_bytes {A : Type} (f : Z -> Z -> Z -> Z -> A) r :
  wf r -> offset r + 4 <= size r ->
  exists b g rr a,
    (0 <= b <= 255 /\ 0 <= g <= 255 /\ 0 <= rr <= 255 /\ 0 <= a <= 255)
    /\ (b <- readUInt8 ;; g <- readUInt8 ;; r <- readUInt8 ;;
        a <- readUInt8 ;; ret (f b g r a)) r
       = Ok (f b g rr a, set_offset r (offset r + 4)).
Proof.
  intros Hwf Hin.
  destruct (readUInt8_exact r Hwf) as (b & Hb & Hbr); [lia | ].
  destruct (readUInt8_exact (set_offset r (offset r + 1)))
    as (g & Hg & Hgr); [unfold wf in *; cbn; lia | unfold size in *; cbn; lia | ].
  cbn [offset set_offset] in Hg.
  destruct (readUInt8_exact (set_offset r (offset r + 1 + 1)))
    as (rr & Hr & Hrr); [unfold wf in *; cbn; lia | unfold size in *; cbn; lia | ].
  cbn [offset set_offset] in Hr.
  destruct (readUInt8_exact (set_offset r (offset r + 1 + 1 + 1)))
    as (a & Ha & Har); [unfold wf in *; cbn; lia | unfold size in *; cbn; lia | ].
  cbn [offset set_offset] in Ha.
  exists b, g, rr, a. split; [auto | ].
  rewrite (bind_Ok _ _ _ _ _ Hb). unfold set_offset at 1. cbn [buffer].
  unfold set_offset in Hg, Hr, Ha. cbn [buffer] in Hg, Hr, Ha.
  rewrite (bind_Ok _ _ _ _ _ Hg), (bind_Ok _ _ _ _ _ Hr), (bind_Ok _ _ _ _ _ Ha).
  unfold ret. apply Ok_reader; cbn; [reflexivity | lia].
Qed.

Variables (vertexBase nbVertex : Z) (type : Z) (ps : PolyState).

(** X10: when the bytes of a strip entry are all there, [readStripEntry]
    consumes exactly 2, 6, 6 or 10 of them as the opcode selects (index,
    then UV pair, then colour); the entry has four colour channels, each
    between 0 and 1; an opcode without UV leaves both coordinates 0 and an
    opcode without colour gives opaque white. *)
Theorem strip_entry_stride (r : BinaryReader) :
  wf r ->
  offset r + entrySize type <= size r ->
  exists e,
    readStripEntry vertexBase nbVertex type ps r
    = Ok (e, set_offset r (offset r + entrySize type))
    /\ length (sv_color e) = 4%nat
    /\ Forall (fun c => 0 <= c <= 1)%Q (sv_color e)
    /\ (hasUV type = false -> sv_u e = 0%Q /\ sv_v e = 0%Q)
    /\ (hasColor type = false -> sv_color e = [1; 1; 1; 1]%Q).
Proof.
  intros Hwf Hroom. unfold entrySize in Hroom |- *. unfold readStripEntry.
  assert (Hone : Forall (fun c => 0 <= c <= 1)%Q [1; 1; 1; 1]%Q).
  { repeat apply Forall_cons_2; try apply Forall_nil_2; unfold Qle; cbn; lia. }
  destruct (readShort_exact r Hwf) as (rawIdx & Hrun0 & _);
    [destruct (hasUV type), (hasColor type); lia | ].
  rewrite (bind_Ok _ _ _ _ _ Hrun0).
  set (r1 := set_offset r (offset r + 2)).
  assert (Hwf1 : wf r1) by (unfold wf in *; cbn; lia).
  assert (Hsz1 : size r1 = size r) by reflexivity.
  assert (Hoff1 : offset r1 = offset r + 2) by reflexivity.
  destruct (hasUV type) eqn:Huv.
  - destruct (two_shorts
                (fun texU texV =>
                   (mirrorUV (ps_uMirror ps)
                      (scaleUV (ps_isUVH ps) (ps_uvSize ps) texU),
                    mirrorUV (ps_vMirror ps)
                      (scaleUV (ps_isUVH ps) (ps_uvSize ps) texV)))
                r1 Hwf1) as (texU & texV & HrunUV);
      [destruct (hasColor type); lia | ].
    rewrite (bind_Ok _ _ _ _ _ HrunUV).
    set (r2 := set_offset r1 (offset r1 + 4)).
    assert (Hwf2 : wf r2) by (unfold wf in *; cbn; lia).
    destruct (hasColor type) eqn:Hcol.
    + destruct (four_bytes
                  (fun b g r a => [(inject_Z r / 255)%Q; (inject_Z g / 255)%Q;
                                   (inject_Z b / 255)%Q; (inject_Z a / 255)%Q])
                  r2 Hwf2) as (b & g & rr & a & (Hb & Hg & Hr & Ha) & Hrun);
        [unfold size in *; cbn; lia | ].
      rewrite (bind_Ok _ _ _ _ _ Hrun). eexists. split.
      * unfold ret. apply Ok_reader; cbn; [reflexivity | lia].
      * cbn [sv_color sv_u sv_v]. split; [reflexivity | ].
        split; [ | split; intros; discriminate].
        repeat apply Forall_cons_2; try (apply channel_unit; assumption).
        apply Forall_nil_2.
    + rewrite (bind_Ok _ _ r2 _ r2 eq_refl). eexists. split.
      * unfold ret. apply Ok_reader; cbn; [reflexivity | lia].
      * cbn [sv_color sv_u sv_v]. split; [reflexivity | ].
        split; [exact Hone | split; [intros; discriminate | reflexivity]].
  - rewrite (bind_Ok _ _ r1 _ r1 eq_refl).
    destruct (hasColor type) eqn:Hcol.
    + destruct (four_bytes
                  (fun b g r a => [(inject_Z r / 255)%Q; (inject_Z g / 255)%Q;
                                   (inject_Z b / 255)%Q; (inject_Z a / 255)%Q])
                  r1 Hwf1) as (b & g & rr & a & (Hb & Hg & Hr & Ha) & Hrun);
        [lia | ].
      rewrite (bind_Ok _ _ _ _ _ Hrun). eexists. split.
      * unfold ret. apply Ok_reader; cbn; [reflexivity | lia].
      * cbn [sv_color sv_u sv_v fst snd]. split; [reflexivity | ].
        split; [ | split; [intros; split; reflexivity | intros; discriminate]].
        repeat apply Forall_cons_2; try (apply channel_unit; assumption).
        apply Forall_nil_2.
    + rewrite (bind_Ok _ _ r1 _ r1 eq_refl). eexists. split.
      * unfold ret. apply Ok_reader; cbn; [reflexivity | lia].
      * cbn [sv_color sv_u sv_v fst snd]. split; [reflexivity | ].
        split; [exact Hone | split; [intros; split; reflexivity | reflexivity]].
Qed.

End StripEntries.

Lemma strip_entry_stride_witness :
  let r := mkReader (bytes [0xFF; 0xFF; 0; 2; 0; 1; 255; 0; 51; 255]) 0 in
  exists e,
    Mt5Loader.readStripEntry 100 8 0x1C Mt5Loader.ps_init r
    = Ok (e, Reader.set_offset r 10)
    /\ length (sv_color e) = 4%nat.
Proof.
  intros r.
  destruct (strip_entry_stride 100 8 0x1C Mt5Loader.ps_init r)
    as (e & Hrun & Hlen & _).
  - unfold Reader.wf. cbn. lia.
  - vm_compute. discriminate.
  - exists e. split; [exact Hrun | exact Hlen].
Defined.

Section PolygonGroups.
Import Reader Mt5Loader.

Lemma rtotal_bind {A B : Type} P (m : M BinaryReader A) Q
    (k : A -> M BinaryReader B) R :
  rtotal P m Q -> (forall a, rtotal (Q a) (k a) R) -> rtotal P (bind m k) R.
Proof.
  intros Hm Hk r HP.
  destruct (Hm r HP) as (a & r1 & Hrun1 & HQ).
  destruct (Hk a r1 HQ) as (b & r2 & Hrun2 & HR).
  exists b, r2. rewrite (bind_Ok _ _ _ _ _ Hrun1). auto.
Qed.

Lemma rtotal_ret {A : Type} (P : BinaryReader -> Prop) (a : A)
    (Q : A -> BinaryReader -> Prop) :
  (forall r, P r -> Q a r) -> rtotal P (ret a) Q.
Proof. intros HPQ r HP. exists a, r. split; [reflexivity | auto]. Qed.

Lemma rtotal_weaken {A : Type} P (m : M BinaryReader A) (Q R : A -> BinaryReader -> Prop) :
  rtotal P m Q -> (forall a r, Q a r -> R a r) -> rtotal P m R.
Proof.
  intros Hm HQR r HP. destruct (Hm r HP) as (a & r' & Hrun & HQ).
  exists a, r'. auto.
Qed.

Lemma rtotal_rsafe {A : Type} (m : M BinaryReader A) r0 :
  rsafe m -> rtotal (sameBuffer r0) m (fun _ => sameBuffer r0).
Proof.
  intros Hm r [Hwf Hbuf]. destruct (Hm r Hwf) as (a & r' & Hrun & Hwf' & Hbuf').
  exists a, r'. split; [exact Hrun | ]. split; [exact Hwf' | congruence].
Qed.

Lemma rtotal_get_state {B : Type} P (k : BinaryReader -> M BinaryReader B) R :
  (forall r, rtotal (fun r' => r' = r /\ P r') (k r) R) ->
  rtotal P (bind get_state k) R.
Proof.
  intros Hk r HP. destruct (Hk r r (conj eq_refl HP)) as (b & r' & Hrun & HR).
  exists b, r'. rewrite (bind_Ok get_state _ r r r eq_refl). auto.
Qed.

Lemma rtotal_pre {A : Type} (P P' : BinaryReader -> Prop) (m : M BinaryReader A) Q :
  rtotal P' m Q -> (forall r, P r -> P' r) -> rtotal P m Q.
Proof. intros Hm HP r Hr. apply Hm, HP, Hr. Qed.

Lemma readUShort_word r0 :
  rtotal (sameBuffer r0) readUShort
         (fun v r => 0 <= v <= 65535 /\ sameBuffer r0 r).
Proof.
  intros r [Hwf Hbuf]. unfold readUShort.
  destruct (readUInt16_word r Hwf) as (v & r' & Hrun & Hv & Hbuf' & Hwf').
  exists v, r'. split; [exact Hrun | ]. split; [exact Hv | ].
  split; [exact Hwf' | congruence].
Qed.

Variables (vertexBase nbVertex : Z).

Lemma readPolygons_loop_groups (r0 : BinaryReader) (n : nat) :
  forall ps,
    0 <= ps_currentTexIdx ps <= 65535 ->
    Forall groupOk (ps_polygons ps) ->
    rtotal (sameBuffer r0) (readPolygons_loop vertexBase nbVertex n ps)
      (fun polys r =>
         sameBuffer r0 r /\ Forall groupOk polys
         /\ (length polys <= length (ps_polygons ps) + n)%nat).
Proof.
  induction n as [ | n IH]; intros ps Htex Hps; cbn [readPolygons_loop].
  - apply rtotal_ret. intros r Hr. repeat split; try apply Hr; auto. lia.
  - assert (Hstop : forall P : BinaryReader -> Prop,
               (forall r, P r -> sameBuffer r0 r) ->
               rtotal P (ret (ps_polygons ps))
                 (fun polys r =>
                    sameBuffer r0 r /\ Forall groupOk polys
                    /\ (length polys <= length (ps_polygons ps) + S n)%nat)).
    { intros P HP. apply rtotal_ret. intros r Hr. split; [auto | ].
      split; [exact Hps | lia]. }
    assert (Hsame : forall ps',
               ps_polygons ps' = ps_polygons ps ->
               0 <= ps_currentTexIdx ps' <= 65535 ->
               rtotal (sameBuffer r0)
                 (readPolygons_loop vertexBase nbVertex n ps')
                 (fun polys r =>
                    sameBuffer r0 r /\ Forall groupOk polys
                    /\ (length polys <= length (ps_polygons ps) + S n)%nat)).
    { intros ps' Hpolys Htex'. eapply rtotal_weaken.
      - apply IH; [exact Htex' | rewrite Hpolys; exact Hps].
      - cbv beta. intros polys r' (Hr & Hok & Hlen). rewrite Hpolys in Hlen.
        split; [exact Hr | ]. split; [exact Hok | lia]. }
    apply rtotal_get_state. intros r.
    destruct (negb (offset r <? size r - 2)); [apply Hstop; tauto | ].
    eapply rtotal_pre; [ | intros r' [_ Hr']; exact Hr'].
    eapply rtotal_bind; [apply readUShort_word | intros type].
    eapply rtotal_pre; [ | intros r' [_ Hr']; exact Hr'].
    destruct (type =? 0x8000); [apply Hstop; auto | ].
    destruct ((type =? 0x0000) || (type =? 0xFFFF));
      [apply Hsame; [reflexivity | exact Htex] | ].
    destruct ((0x0002 <=? type) && (type <=? 0x0007)).
    { eapply rtotal_bind; [apply rtotal_rsafe, readUInt16_rsafe | intros sz].
      eapply rtotal_bind; [apply rtotal_rsafe, readBytes_rsafe | intros data].
      apply Hsame; [reflexivity | exact Htex]. }
    destruct (type =? 0x0009).
    { eapply rtotal_bind; [apply readUShort_word | intros texIdx].
      intros r' [Hidx Hr']. revert r' Hr'.
      change (rtotal (sameBuffer r0)
                (readPolygons_loop vertexBase nbVertex n
                   (mkPolyState (ps_polygons ps) texIdx (ps_isUVH ps)
                      (ps_uvSize ps) (ps_uMirror ps) (ps_vMirror ps)))
                (fun polys r =>
                   sameBuffer r0 r /\ Forall groupOk polys
                   /\ (length polys <= length (ps_polygons ps) + S n)%nat)).
      apply Hsame; [reflexivity | exact Hidx]. }
    destruct (type =? 0x000B).
    { eapply rtotal_bind; [apply rtotal_rsafe, readUInt16_rsafe | intros sizeVal].
      apply Hsame; [reflexivity | exact Htex]. }
    destruct ((type =? 0x0008) || (type =? 0x000A)).
    { eapply rtotal_bind; [apply rtotal_rsafe, skip_rsafe | intros []].
      apply Hsame; [reflexivity | exact Htex]. }
    destruct ((type =? 0x000E) || (type =? 0x000F)).
    { eapply rtotal_bind; [apply rtotal_rsafe, skip_rsafe | intros []].
      apply Hsame; [reflexivity | exact Htex]. }
    destruct ((0x10 <=? type) && (type <=? 0x1F)) eqn:Hstrip; [ | apply Hstop; auto].
    apply andb_true_iff in Hstrip as [Hlo Hhi].
    apply Z.leb_le in Hlo, Hhi.
    eapply rtotal_bind; [apply rtotal_rsafe, readUInt16_rsafe | intros unknown].
    eapply rtotal_bind; [apply rtotal_rsafe, readUInt16_rsafe | intros nbStrips].
    eapply rtotal_bind; [apply rtotal_rsafe, readStrips_rsafe | intros strips].
    eapply rtotal_weaken.
    + apply IH; cbn [ps_currentTexIdx ps_polygons]; [exact Htex | ].
      apply Forall_app. split; [exact Hps | ].
      apply Forall_cons_2; [ | apply Forall_nil_2].
      split; cbn [poly_head poly_texId]; [lia | exact Htex].
    + cbv beta. cbn [ps_polygons]. intros polys r' (Hr & Hok & Hlen).
      rewrite length_app in Hlen. cbn [length] in Hlen.
      split; [exact Hr | ]. split; [exact Hok | lia].
Qed.

(** X11: [readPolygons] returns from every cursor that is not negative,
    with the buffer unchanged; it returns at most 10000 strip groups, and
    each has an opcode between 0x10 and 0x1F and a 16-bit texture index. *)
Theorem readPolygons_groups (r : BinaryReader) :
  wf r ->
  exists polys r',
    readPolygons vertexBase nbVertex r = Ok (polys, r')
    /\ buffer r' = buffer r
    /\ Z.of_nat (length polys) <= 10000
    /\ Forall (fun p => 0x10 <= poly_head p <= 0x1F
                        /\ 0 <= poly_texId p <= 65535) polys.
Proof.
  intros Hwf. unfold readPolygons.
  destruct (readPolygons_loop_groups r (Z.to_nat 10000) ps_init) with (r := r)
    as (polys & r' & Hrun & [_ Hbuf] & Hok & Hlen).
  - cbn. lia.
  - apply Forall_nil_2.
  - split; [exact Hwf | reflexivity].
  - exists polys, r'. split; [exact Hrun | ]. split; [exact Hbuf | ].
    split; [cbn [ps_init ps_polygons length] in Hlen; lia | exact Hok].
Qed.

End PolygonGroups.

Lemma readPolygons_groups_witness :
  exists polys r',
    Mt5Loader.readPolygons 0 3
      (mkReader (bytes [0x10; 0; 0; 0; 0; 0; 0; 0x80; 0; 0]) 0)
    = Ok (polys, r')
    /\ Z.of_nat (length polys) <= 10000.
Proof.
  destruct (readPolygons_groups 0 3
              (mkReader (bytes [0x10; 0; 0; 0; 0; 0; 0; 0x80; 0; 0]) 0))
    as (polys & r' & Hrun & _ & Hlen & _).
  - unfold Reader.wf. cbn. lia.
  - exists polys, r'. split; [exact Hrun | exact Hlen].
Defined.


Section StripCounts.
Import Reader Mt5Loader.

Variables (vertexBase nbVertex : Z) (type : Z) (ps : PolyState).

Lemma readStrip_count (r0 : BinaryReader) (n : nat) :
  forall strip,
    rtotal (sameBuffer r0) (readStrip vertexBase nbVertex type ps n strip)
      (fun strip' r => sameBuffer r0 r
                       /\ length strip' = (length strip + n)%nat).
Proof.
  induction n as [ | n IH]; intros strip; cbn [readStrip].
  - apply rtotal_ret. intros r Hr. split; [exact Hr | lia].
  - eapply rtotal_bind;
      [apply rtotal_rsafe, readStripEntry_rsafe | intros entry].
    eapply rtotal_weaken; [apply IH | ].
    cbv beta. intros strip' r [Hr Hlen]. split; [exact Hr | ].
    rewrite Hlen, length_app. cbn. lia.
Qed.

Lemma readShort_int16 r0 :
  rtotal (sameBuffer r0) readShort
         (fun v r => -32768 <= v <= 32767 /\ sameBuffer r0 r).
Proof.
  intros r [Hwf Hbuf]. unfold readShort.
  destruct (readInt16_rsafe r Hwf) as (v & r' & Hrun & Hwf' & Hbuf').
  exists v, r'. split; [exact Hrun | ].
  split; [exact (readInt16_range _ _ _ Hrun) | ].
  split; [exact Hwf' | congruence].
Qed.

Lemma readStrips_count (r0 : BinaryReader) (n : nat) :
  forall strips,
    Forall (fun strip => Z.of_nat (length strip) <= 32768) strips ->
    rtotal (sameBuffer r0) (readStrips vertexBase nbVertex type ps n strips)
      (fun strips' r =>
         sameBuffer r0 r
         /\ length strips' = (length strips + n)%nat
         /\ Forall (fun strip => Z.of_nat (length strip) <= 32768) strips').
Proof.
  induction n as [ | n IH]; intros strips Hstrips; cbn [readStrips].
  - apply rtotal_ret. intros r Hr. split; [exact Hr | ]. split; [lia | exact Hstrips].
  - eapply rtotal_bind; [apply readShort_int16 | intros stripLenRaw].
    intros r [Hraw Hr]. revert r Hr.
    change (rtotal (sameBuffer r0)
              (strip <- readStrip vertexBase nbVertex type ps
                          (Z.to_nat (Z.abs stripLenRaw)) [] ;;
               readStrips vertexBase nbVertex type ps n (strips ++ [strip]))
              (fun strips' r =>
                 sameBuffer r0 r
                 /\ length strips' = (length strips + S n)%nat
                 /\ Forall (fun strip => Z.of_nat (length strip) <= 32768)
                           strips')).
    eapply rtotal_bind; [apply readStrip_count | intros strip].
    intros r [Hr Hlen]. revert r Hr.
    change (rtotal (sameBuffer r0)
              (readStrips vertexBase nbVertex type ps n (strips ++ [strip]))
              (fun strips' r =>
                 sameBuffer r0 r
                 /\ length strips' = (length strips + S n)%nat
                 /\ Forall (fun strip => Z.of_nat (length strip) <= 32768)
                           strips')).
    eapply rtotal_weaken.
    + apply IH. apply Forall_app. split; [exact Hstrips | ].
      apply Forall_cons_2; [ | apply Forall_nil_2].
      rewrite Hlen. cbn [length]. lia.
    + cbv beta. intros strips' r (Hr & Hlen' & Hall).
      split; [exact Hr | ]. split; [ | exact Hall].
      rewrite Hlen', length_app. cbn. lia.
Qed.

(** X12: the strip loop returns exactly as many strips as its count asks
    for, also when the buffer ends before them (the missing ones are read
    as zeros, not dropped); no strip has more than 32768 entries, and at
    the end of the buffer every strip is empty. *)
Theorem readStrips_returns_all (n : nat) (r : BinaryReader) :
  wf r ->
  (exists strips r',
     readStrips vertexBase nbVertex type ps n [] r = Ok (strips, r')
     /\ buffer r' = buffer r
     /\ length strips = n
     /\ Forall (fun strip => Z.of_nat (length strip) <= 32768) strips)
  /\ (size r < offset r + 2 ->
      readStrips vertexBase nbVertex type ps n [] r
      = Ok (replicate n [],
            match n with O => r | S _ => set_offset r (size r) end)).
Proof.
  intros Hwf. split.
  - destruct (readStrips_count r n [] (Forall_nil_2 _) r)
      as (strips & r' & Hrun & [_ Hbuf] & Hlen & Hall).
    { split; [exact Hwf | reflexivity]. }
    exists strips, r'. auto.
  - intros Hend.
    assert (Hloop : forall m strips r1,
               buffer r1 = buffer r -> offset r1 = size r ->
               readStrips vertexBase nbVertex type ps m strips r1
               = Ok (strips ++ replicate m [], r1)).
    { induction m as [ | m IH]; intros strips r1 Hb Ho; cbn [readStrips].
      - unfold ret. rewrite app_nil_r. reflexivity.
      - assert (Hshort : readShort r1 = Ok (0, r1)).
        { unfold readShort, readInt16, readFixed, canRead, size in *.
          rewrite Hb, Ho.
          destruct (Z.leb_spec (Z.of_nat (length (buffer r)) + 2)
                               (Z.of_nat (length (buffer r)))); [lia | ].
          cbn [negb]. apply Ok_reader; cbn; [reflexivity | lia]. }
        rewrite (bind_Ok _ _ _ _ _ Hshort). cbn [Z.abs Z.to_nat readStrip].
        rewrite (bind_Ok _ _ r1 _ r1 eq_refl).
        rewrite IH by assumption. rewrite <- app_assoc. reflexivity. }
    destruct n as [ | n]; [reflexivity | ]. cbn [readStrips].
    assert (Hshort : readShort r = Ok (0, set_offset r (size r))).
    { unfold readShort, readInt16, readFixed, canRead.
      destruct (Z.leb_spec (offset r + 2) (size r)); [lia | reflexivity]. }
    rewrite (bind_Ok _ _ _ _ _ Hshort). cbn [Z.abs Z.to_nat readStrip].
    rewrite (bind_Ok _ _ (set_offset r (size r)) _ (set_offset r (size r)) eq_refl).
    rewrite Hloop by reflexivity. reflexivity.
Qed.

End StripCounts.

Lemma readStrips_returns_all_witness :
  exists strips r',
    Mt5Loader.readStrips 0 4 0x10 Mt5Loader.ps_init 3 []
      (mkReader (bytes [2; 0; 1; 0]) 0) = Ok (strips, r')
    /\ length strips = 3%nat.
Proof.
  destruct (readStrips_returns_all 0 4 0x10 Mt5Loader.ps_init 3
              (mkReader (bytes [2; 0; 1; 0]) 0)) as [(strips & r' & Hrun & _ & Hlen & _) _].
  - unfold Reader.wf. cbn. lia.
  - exists strips, r'. split; [exact Hrun | exact Hlen].
Defined.

Section Mirroring.
Import Mt5Loader.

Lemma Qabs_small (a : Z) (d : positive) :
  Z.abs a <= Z.pos d -> Qle_bool (Qabs (a # d)) 1 = true.
Proof.
  intros Ha. apply Qle_bool_iff. unfold Qle, Qabs. cbn. lia.
Qed.

Lemma Qabs_large (a : Z) (d : positive) :
  Z.pos d < Z.abs a -> Qle_bool (Qabs (a # d)) 1 = false.
Proof.
  intros Ha. apply not_true_is_false. intros Hle.
  apply Qle_bool_iff in Hle. unfold Qle, Qabs in Hle. cbn in Hle. lia.
Qed.

(** X13: on a signed 16-bit coordinate the mirror halving never fires in
    UVH mode, where the scaled value stays below 1 in absolute value; in
    standard mode with a positive UV size it fires exactly when the
    coordinate exceeds the UV size in absolute value. *)
Theorem mirror_halving_cases (mirror : bool) (uvSize tex : Z) :
  -32768 <= tex <= 32767 ->
  mirrorUV mirror (scaleUV true uvSize tex) = scaleUV true uvSize tex
  /\ (0 < uvSize ->
      mirrorUV true (scaleUV false uvSize tex)
      = if uvSize <? Z.abs tex then (scaleUV false uvSize tex / 2)%Q
        else scaleUV false uvSize tex).
Proof.
  intros Htex. unfold mirrorUV, scaleUV, scaleStandard. split.
  - unfold uvh_scale, Qmult, inject_Z. cbn [Qnum Qden].
    rewrite Qabs_small by lia. rewrite andb_false_r. reflexivity.
  - intros Hsize. destruct (Z.ltb_spec (Z.abs tex) 0xF000); [ | lia].
    destruct uvSize as [ | p | p]; try lia.
    unfold Qdiv, Qinv, Qmult, inject_Z. cbn [Qnum Qden andb].
    destruct (Z.ltb_spec (Z.pos p) (Z.abs tex)).
    + rewrite Qabs_large by lia. reflexivity.
    + rewrite Qabs_small by lia. reflexivity.
Qed.

Lemma mirror_halving_cases_witness :
  mirrorUV true (scaleUV false 1024 1536) = (scaleUV false 1024 1536 / 2)%Q.
Proof.
  destruct (mirror_halving_cases true 1024 1536) as [_ Hstd]; [lia | ].
  apply Hstd; lia.
Defined.

End Mirroring.

(** ** Mt5Loader: vertices and models *)

Section VertexPool.
Import Reader Mt5Loader.

Lemma readFixed_cursor {A : Type} (w : Z) (zero : A) access (ok : A -> Prop) r :
  0 <= w -> wf r -> ok zero ->
  (forall buf pos, 0 <= pos -> pos + w <= Z.of_nat (length buf) ->
                   exists v, access buf pos = Some v /\ ok v) ->
  exists v, readFixed w zero access r = Ok (v, after_read w r) /\ ok v.
Proof.
  intros Hw Hwf Hzero Haccess. unfold readFixed, canRead, after_read.
  destruct (Z.leb_spec (offset r + w) (size r)) as [Hin | Hout]; cbn [negb].
  - destruct (Haccess (buffer r) (offset r)) as (v & Hv & Hok);
      [exact Hwf | exact Hin | ].
    rewrite Hv. exists v. split; [ | exact Hok].
    rewrite Z.min_l by lia. reflexivity.
  - exists zero. split; [ | exact Hzero]. rewrite Z.min_r by lia. reflexivity.
Qed.

Lemma readUInt32_cursor r :
  wf r -> exists v, readUInt32 r = Ok (v, after_read 4 r) /\ 0 <= v < 2 ^ 32.
Proof.
  intros Hwf.
  apply (readFixed_cursor 4 0 DataView.getUint32 (fun v => 0 <= v < 2 ^ 32));
    [lia | exact Hwf | lia | ].
  intros buf pos Hlo Hhi. apply getUint32_Some; assumption.
Qed.

Lemma readFloat32_cursor r :
  wf r -> exists v, readFloat32 r = Ok (v, after_read 4 r).
Proof.
  intros Hwf.
  destruct (readFixed_cursor 4 f32_zero
              (fun buf pos => mkF32 <$> DataView.getUint32 buf pos)
              (fun _ => True) r) as (v & Hrun & _);
    [lia | exact Hwf | exact I | | exists v; exact Hrun].
  intros buf pos Hlo Hhi.
  destruct (getUint32_Some buf pos Hlo Hhi) as (v & -> & _).
  eexists. split; [reflexivity | exact I].
Qed.

Lemma after_read_wf w r : 0 <= w -> wf r -> wf (after_read w r).
Proof. unfold wf, after_read, size. cbn. lia. Qed.

Lemma rd_UInt32 {B : Type} (k : Z -> M State B) s :
  wf (st_reader s) ->
  exists v, 0 <= v < 2 ^ 32
            /\ bind (rd readUInt32) k s
               = k v (set_reader s (after_read 4 (st_reader s))).
Proof.
  intros Hwf. destruct (readUInt32_cursor _ Hwf) as (v & Hrun & Hv).
  exists v. split; [exact Hv | ].
  rewrite (bind_Ok _ _ _ _ _ (rd_Ok _ _ _ _ Hrun)). reflexivity.
Qed.

Lemma rd_Float32 {B : Type} (k : F32 -> M State B) s :
  wf (st_reader s) ->
  exists v, bind (rd readFloat32) k s
            = k v (set_reader s (after_read 4 (st_reader s))).
Proof.
  intros Hwf. destruct (readFloat32_cursor _ Hwf) as (v & Hrun).
  exists v. rewrite (bind_Ok _ _ _ _ _ (rd_Ok _ _ _ _ Hrun)). reflexivity.
Qed.

Lemma readVertices_spec (n : nat) :
  forall s, wf (st_reader s) ->
    exists new,
      readVertices n s
      = Ok (tt, with_pool s
                  (set_offset (st_reader s)
                     (offset (st_reader s) + 24 * Z.of_nat (length new)))
                  new)
      /\ Z.of_nat (length new)
         = Z.min (Z.of_nat n)
                 (Z.max 0 ((size (st_reader s) - offset (st_reader s)) / 24)).
Proof.
  induction n as [ | n IH]; intros s Hwf; cbn [readVertices].
  - exists []. split.
    + unfold ret, with_pool. destruct s as [[buf off] c p v nd cs]. cbn.
      rewrite app_nil_r, Z.add_0_r. reflexivity.
    + cbn [length]. lia.
  - rewrite (bind_Ok get_state _ s s s eq_refl).
    unfold canRead. destruct (Z.leb_spec (offset (st_reader s) + 24)
                                         (size (st_reader s))) as [Hin | Hout];
      cbn [negb].
    + destruct (rd_Float32
                  (fun x => y <- rd readFloat32 ;; z <- rd readFloat32 ;;
                            nx <- rd readFloat32 ;; ny <- rd readFloat32 ;;
                            nz <- rd readFloat32 ;;
                            pushVertex (mkVertex [f32_neg x; y; z]
                                                 [f32_neg nx; ny; nz]) ;;
                            readVertices n) s Hwf) as (x & ->).
      set (s1 := set_reader s (after_read 4 (st_reader s))).
      assert (Hwf1 : wf (st_reader s1)) by (apply after_read_wf; [lia | exact Hwf]).
      destruct (rd_Float32
                  (fun y => z <- rd readFloat32 ;;
                            nx <- rd readFloat32 ;; ny <- rd readFloat32 ;;
                            nz <- rd readFloat32 ;;
                            pushVertex (mkVertex [f32_neg x; y; z]
                                                 [f32_neg nx; ny; nz]) ;;
                            readVertices n) s1 Hwf1) as (y & ->).
      set (s2 := set_reader s1 (after_read 4 (st_reader s1))).
      assert (Hwf2 : wf (st_reader s2)) by (apply after_read_wf; [lia | exact Hwf1]).
      destruct (rd_Float32
                  (fun z => nx <- rd readFloat32 ;; ny <- rd readFloat32 ;;
                            nz <- rd readFloat32 ;;
                            pushVertex (mkVertex [f32_neg x; y; z]
                                                 [f32_neg nx; ny; nz]) ;;
                            readVertices n) s2 Hwf2) as (z & ->).
      set (s3 := set_reader s2 (after_read 4 (st_reader s2))).
      assert (Hwf3 : wf (st_reader s3)) by (apply after_read_wf; [lia | exact Hwf2]).
      destruct (rd_Float32
                  (fun nx => ny <- rd readFloat32 ;;
                             nz <- rd readFloat32 ;;
                             pushVertex (mkVertex [f32_neg x; y; z]
                                                  [f32_neg nx; ny; nz]) ;;
                             readVertices n) s3 Hwf3) as (nx & ->).
      set (s4 := set_reader s3 (after_read 4 (st_reader s3))).
      assert (Hwf4 : wf (st_reader s4)) by (apply after_read_wf; [lia | exact Hwf3]).
      destruct (rd_Float32
                  (fun ny => nz <- rd readFloat32 ;;
                             pushVertex (mkVertex [f32_neg x; y; z]
                                                  [f32_neg nx; ny; nz]) ;;
                             readVertices n) s4 Hwf4) as (ny & ->).
      set (s5 := set_reader s4 (after_read 4 (st_reader s4))).
      assert (Hwf5 : wf (st_reader s5)) by (apply after_read_wf; [lia | exact Hwf4]).
      destruct (rd_Float32
                  (fun nz => pushVertex (mkVertex [f32_neg x; y; z]
                                                  [f32_neg nx; ny; nz]) ;;
                             readVertices n) s5 Hwf5) as (nz & ->).
      set (s6 := set_reader s5 (after_read 4 (st_reader s5))).
      set (v := mkVertex [f32_neg x; y; z] [f32_neg nx; ny; nz]).
      assert (Hoff6 : offset (st_reader s6) = offset (st_reader s) + 24).
      { subst s6 s5 s4 s3 s2 s1. unfold after_read, size. cbn.
        unfold size in Hin. lia. }
      assert (Hbuf6 : buffer (st_reader s6) = buffer (st_reader s)) by reflexivity.
      rewrite (bind_Ok (pushVertex v) _ s6 tt
                 (with_pool s (st_reader s6) [v]) eq_refl).
      destruct (IH (with_pool s (st_reader s6) [v])) as (new & Hrun & Hcount).
      { unfold with_pool. cbn [st_reader]. unfold wf in *. lia. }
      exists (v :: new). split.
      * rewrite Hrun. unfold with_pool. cbn [st_reader st_textureCache
          st_globalVertices st_vertexOffset st_nodes st_cacheSets].
        rewrite <- app_assoc. cbn [app length].
        f_equal. f_equal. f_equal.
        apply (f_equal2 mkReader); [exact Hbuf6 | ].
        cbn [set_offset offset]. rewrite Hoff6. lia.
      * unfold with_pool in Hcount. cbn [st_reader] in Hcount.
        cbn [length]. unfold size in *. rewrite Hbuf6, Hoff6 in Hcount.
        rewrite Nat2Z.inj_succ, Hcount. div_lia.
    + exists []. split.
      * unfold ret, with_pool. destruct s as [[buf off] c p v nd cs]. cbn.
        rewrite app_nil_r, Z.add_0_r. reflexivity.
      * cbn [length]. div_lia.
Qed.

(** X14: [readVertices] reads as many 24-byte vertices as fit, up to the
    count asked for, and stops without an exception at the first one that
    does not fit; it appends them to the vertex pool, moves the cursor by 24
    bytes each, and changes nothing else (the vertex offset included). *)
Theorem readVertices_reads_what_fits (n : nat) (s : State) :
  wf (st_reader s) ->
  exists new s',
    readVertices n s = Ok (tt, s')
    /\ st_globalVertices s' = st_globalVertices s ++ new
    /\ Z.of_nat (length new)
       = Z.min (Z.of_nat n)
               (Z.max 0 ((size (st_reader s) - offset (st_reader s)) / 24))
    /\ offset (st_reader s')
       = offset (st_reader s) + 24 * Z.of_nat (length new)
    /\ buffer (st_reader s') = buffer (st_reader s)
    /\ st_vertexOffset s' = st_vertexOffset s
    /\ st_textureCache s' = st_textureCache s
    /\ st_nodes s' = st_nodes s.
Proof.
  intros Hwf. destruct (readVertices_spec n s Hwf) as (new & Hrun & Hcount).
  eexists new, _. split; [exact Hrun | ].
  unfold with_pool. cbn. repeat split; auto.
Qed.

End VertexPool.

Lemma readVertices_reads_what_fits_witness :
  exists new s',
    Mt5Loader.readVertices 3
      (mkState (mkReader (bytes (replicate 50 7)) 1) ∅ [] 0 [] [])
    = Ok (tt, s')
    /\ st_globalVertices s' = [] ++ new
    /\ Z.of_nat (length new) = 2.
Proof.
  destruct (readVertices_reads_what_fits 3
              (mkState (mkReader (bytes (replicate 50 7)) 1) ∅ [] 0 [] []))
    as (new & s' & Hrun & Hpool & Hcount & _).
  - unfold Reader.wf. cbn. lia.
  - exists new, s'. split; [exact Hrun | ]. split; [exact Hpool | ].
    rewrite Hcount. vm_compute. reflexivity.
Defined.

Section ModelEffects.
Import Reader Mt5Loader.

Ltac norm_state :=
  cbv beta;
  cbn [set_reader st_reader st_textureCache st_globalVertices st_vertexOffset
       st_nodes st_cacheSets].

Ltac step_u32 Hwf v Hv :=
  lazymatch goal with
  | |- context [bind (rd readUInt32) ?k ?s] =>
      destruct (rd_UInt32 k s Hwf) as (v & Hv & ->); norm_state
  end.

Ltac step_f32 Hwf v :=
  lazymatch goal with
  | |- context [bind (rd readFloat32) ?k ?s] =>
      destruct (rd_Float32 k s Hwf) as (v & ->); norm_state
  end.

Lemma vertex_block (vertexAddr nbVertex : Z) (s : State) :
  in_buffer (st_reader s) ->
  exists new,
    (saved <- rd tell ;;
     rd (seek vertexAddr) ;;
     readVertices (Z.to_nat nbVertex) ;;
     addVertexOffset nbVertex ;;
     rd (seek saved)) s
    = Ok (tt, mkState (st_reader s) (st_textureCache s)
                (st_globalVertices s ++ new) (st_vertexOffset s + nbVertex)
                (st_nodes s) (st_cacheSets s))
    /\ Z.of_nat (length new)
       = Z.min (Z.of_nat (Z.to_nat nbVertex))
           (Z.max 0 ((size (st_reader s)
                      - Z.max 0 (Z.min vertexAddr (size (st_reader s)))) / 24)).
Proof.
  destruct s as [r c p vo nd cs]. norm_state. intros Hin.
  unfold bind at 1. unfold rd at 1, tell at 1. norm_state.
  unfold bind at 1. unfold rd at 1, seek at 1. norm_state.
  set (s1 := mkState (set_offset r (Z.max 0 (Z.min vertexAddr (size r))))
                     c p vo nd cs).
  destruct (readVertices_spec (Z.to_nat nbVertex) s1) as (new & Hrun & Hcount).
  { unfold wf. cbn. lia. }
  exists new. split; [ | exact Hcount].
  rewrite (bind_Ok _ _ _ _ _ Hrun). unfold with_pool. subst s1. norm_state.
  unfold bind at 1. unfold addVertexOffset at 1. norm_state.
  unfold rd, seek. norm_state. cbn [buffer set_offset].
  unfold in_buffer, size in *. destruct r as [buf off].
  unfold set_reader, set_offset. cbn in *.
  rewrite Z.min_l, Z.max_r by lia. reflexivity.
Qed.

Lemma polygon_block (polygonAddr vertexBase nbVertex sz : Z) (s : State) :
  in_buffer (st_reader s) ->
  exists polygons,
    (if validAddr polygonAddr sz then
       polys <- readModelPolygons polygonAddr vertexBase nbVertex ;;
       ret (Some polys)
     else ret None) s = Ok (polygons, s)
    /\ (polygons = None <-> validAddr polygonAddr sz = false).
Proof.
  intros Hin. destruct (validAddr polygonAddr sz).
  - destruct (readModelPolygons_frame polygonAddr vertexBase nbVertex s Hin)
      as (polys & Hrun).
    exists (Some polys). rewrite (bind_Ok _ _ _ _ _ Hrun).
    split; [reflexivity | ]. split; discriminate.
  - exists None. split; [reflexivity | ]. split; reflexivity.
Qed.

Lemma readModel_spec (s : State) :
  wf (st_reader s) ->
  exists m new,
    readModel s
    = Ok (m, mkState (after_read 32 (st_reader s)) (st_textureCache s)
               (st_globalVertices s ++ new)
               (st_vertexOffset s
                + (if validAddr (m_vertexAddr m) (size (st_reader s))
                   then m_nbVertex m else 0))
               (st_nodes s) (st_cacheSets s))
    /\ m_vertexBase m = st_vertexOffset s
    /\ 0 <= m_nbVertex m < 2 ^ 32
    /\ Z.of_nat (length new)
       = (if validAddr (m_vertexAddr m) (size (st_reader s))
          then Z.min (m_nbVertex m)
                     ((size (st_reader s) - m_vertexAddr m) / 24)
          else 0)
    /\ (m_polygons m = None
        <-> validAddr (m_polygonAddr m) (size (st_reader s)) = false).
Proof.
  destruct s as [r c p vo nd cs]. norm_state. intros Hwf.
  unfold readModel.
  unfold bind at 1. unfold rd at 1, tell at 1. norm_state.
  assert (Hwf1 : wf (after_read 4 r)) by (apply after_read_wf; [lia | exact Hwf]).
  assert (Hwf2 : wf (after_read 4 (after_read 4 r)))
    by (apply after_read_wf; [lia | exact Hwf1]).
  assert (Hwf3 : wf (after_read 4 (after_read 4 (after_read 4 r))))
    by (apply after_read_wf; [lia | exact Hwf2]).
  assert (Hwf4 : wf (after_read 4 (after_read 4 (after_read 4 (after_read 4 r)))))
    by (apply after_read_wf; [lia | exact Hwf3]).
  set (r4 := after_read 4 (after_read 4 (after_read 4 (after_read 4 r)))) in *.
  assert (Hwf5 : wf (after_read 4 r4)) by (apply after_read_wf; [lia | exact Hwf4]).
  assert (Hwf6 : wf (after_read 4 (after_read 4 r4)))
    by (apply after_read_wf; [lia | exact Hwf5]).
  assert (Hwf7 : wf (after_read 4 (after_read 4 (after_read 4 r4))))
    by (apply after_read_wf; [lia | exact Hwf6]).
  assert (Hr8 : after_read 4 (after_read 4 (after_read 4 (after_read 4 r4)))
                = after_read 32 r).
  { subst r4. unfold after_read, set_offset, size. cbn.
    unfold wf in Hwf. f_equal. lia. }
  step_u32 Hwf flag Hflag.
  step_u32 Hwf1 vertexAddr HvertexAddr.
  step_u32 Hwf2 nbVertex HnbVertex.
  step_u32 Hwf3 polygonAddr HpolygonAddr.
  fold r4.
  step_f32 Hwf4 cx. step_f32 Hwf5 cy. step_f32 Hwf6 cz. step_f32 Hwf7 radius.
  rewrite Hr8. set (r8 := after_read 32 r).
  assert (Hin8 : in_buffer r8).
  { subst r8. unfold in_buffer, after_read, size, wf in *. cbn. lia. }
  assert (Hsz8 : size r8 = size r) by reflexivity.
  set (s8 := mkState r8 c p vo nd cs).
  rewrite (bind_Ok get_state _ s8 s8 s8 eq_refl). subst s8. norm_state.
  rewrite Hsz8.
  destruct (validAddr vertexAddr (size r)) eqn:Hvalid.
  - destruct (vertex_block vertexAddr nbVertex (mkState r8 c p vo nd cs) Hin8)
      as (new & Hrun & Hcount).
    rewrite (bind_Ok _ _ _ _ _ Hrun). norm_state.
    destruct (polygon_block polygonAddr vo nbVertex (size r)
                (mkState r8 c (p ++ new) (vo + nbVertex) nd cs) Hin8)
      as (polygons & Hpoly & Hnone).
    rewrite (bind_Ok _ _ _ _ _ Hpoly).
    exists (mkModel flag vertexAddr nbVertex polygonAddr (cx, cy, cz) radius
                    vo polygons), new.
    cbn [m_vertexBase m_nbVertex m_vertexAddr m_polygons m_polygonAddr].
    rewrite Hvalid. split; [reflexivity | ].
    split; [reflexivity | ]. split; [exact HnbVertex | ].
    split; [ | exact Hnone].
    norm_state. rewrite Hcount. norm_state. rewrite Hsz8.
    unfold validAddr in Hvalid.
    apply andb_true_iff in Hvalid as [Hvalid Hlt].
    apply andb_true_iff in Hvalid as [_ Hpos].
    apply Z.ltb_lt in Hlt, Hpos. rewrite Z2Nat.id by lia. div_lia.
  - rewrite (bind_Ok _ _ (mkState r8 c p vo nd cs) tt
               (mkState r8 c p vo nd cs) eq_refl).
    destruct (polygon_block polygonAddr vo nbVertex (size r)
                (mkState r8 c p vo nd cs) Hin8)
      as (polygons & Hpoly & Hnone).
    rewrite (bind_Ok _ _ _ _ _ Hpoly).
    exists (mkModel flag vertexAddr nbVertex polygonAddr (cx, cy, cz) radius
                    vo polygons), [].
    cbn [m_vertexBase m_nbVertex m_vertexAddr m_polygons m_polygonAddr length].
    rewrite Hvalid. split.
    + unfold ret. rewrite app_nil_r, Z.add_0_r. reflexivity.
    + split; [reflexivity | ]. split; [exact HnbVertex | ].
      split; [reflexivity | exact Hnone].
Qed.

(** X15: [readModel] returns from every cursor that is not negative.  It
    leaves the cursor 32 bytes further (at the end of the buffer when fewer
    are left), whatever the vertex and polygon blocks hold; the model
    records the vertex offset it found as its base; with a valid vertex
    address the vertex offset grows by the declared vertex count, while the
    pool grows only by the vertices that fit in the buffer; the texture
    cache and the node list are untouched. *)
Theorem readModel_effects (s : State) :
  wf (st_reader s) ->
  exists m new s',
    readModel s = Ok (m, s')
    /\ st_reader s' = after_read 32 (st_reader s)
    /\ m_vertexBase m = st_vertexOffset s
    /\ st_vertexOffset s'
       = st_vertexOffset s
         + (if validAddr (m_vertexAddr m) (size (st_reader s))
            then m_nbVertex m else 0)
    /\ st_globalVertices s' = st_globalVertices s ++ new
    /\ Z.of_nat (length new)
       = (if validAddr (m_vertexAddr m) (size (st_reader s))
          then Z.min (m_nbVertex m)
                     ((size (st_reader s) - m_vertexAddr m) / 24)
          else 0)
    /\ st_textureCache s' = st_textureCache s
    /\ st_nodes s' = st_nodes s
    /\ (m_polygons m = None
        <-> validAddr (m_polygonAddr m) (size (st_reader s)) = false).
Proof.
  intros Hwf.
  destruct (readModel_spec s Hwf) as (m & new & Hrun & Hbase & _ & Hcount & Hpoly).
  eexists m, new, _. split; [exact Hrun | ].
  norm_state. repeat split; auto; apply Hpoly.
Qed.

End ModelEffects.

Lemma readModel_effects_witness :
  let s := mkState (mkReader (bytes (replicate 40 0)) 4) ∅ [] 5 [] [] in
  exists m s',
    Mt5Loader.readModel s = Ok (m, s')
    /\ st_reader s' = after_read 32 (st_reader s)
    /\ m_vertexBase m = 5.
Proof.
  intros s.
  destruct (readModel_effects s) as (m & new & s' & Hrun & Hcur & Hbase & _).
  - unfold Reader.wf. cbn. lia.
  - exists m, s'. split; [exact Hrun | ]. split; [exact Hcur | exact Hbase].
Defined.

(** ** Mesh assembly *)

Section Triangles.
Import MeshBuild.
Context {A : Type} (undefined : A).

Lemma at_inside (arr : list A) (k : nat) :
  (k < length arr)%nat -> [at_ undefined arr (Z.of_nat k)] = take 1 (drop k arr).
Proof.
  intros Hk. unfold at_.
  destruct (Z.ltb_spec (Z.of_nat k) 0) as [Hneg | Hpos]; [lia | clear Hpos].
  rewrite Nat2Z.id. revert k Hk.
  induction arr as [ | x arr IH]; intros k Hk; [cbn in Hk; lia | ].
  destruct k as [ | k]; [reflexivity | ].
  cbn [nth drop]. apply IH. cbn in Hk. lia.
Qed.

Lemma triple_inside (arr : list A) (i j k : nat) :
  (i < length arr)%nat -> (j < length arr)%nat -> (k < length arr)%nat ->
  [at_ undefined arr (Z.of_nat i); at_ undefined arr (Z.of_nat j);
   at_ undefined arr (Z.of_nat k)]
  = take 1 (drop i arr) ++ take 1 (drop j arr) ++ take 1 (drop k arr).
Proof.
  intros Hi Hj Hk.
  rewrite <- !at_inside by assumption. reflexivity.
Qed.

Lemma stripTriangles_loop_spec (strip : list A) (n : nat) :
  forall (k : nat) (indices : list A),
    (k + n + 2 <= length strip)%nat ->
    stripTriangles_loop undefined n (Z.of_nat k) strip indices
    = indices ++ concat (map (triangleAt strip) (seq k n)).
Proof.
  induction n as [ | n IH]; intros k indices Hk.
  - cbn. rewrite app_nil_r. reflexivity.
  - cbn [stripTriangles_loop seq map concat].
    replace (Z.of_nat k + 1) with (Z.of_nat (S k)) by lia.
    replace (Z.of_nat k + 2) with (Z.of_nat (S (S k))) by lia.
    rewrite IH by lia. unfold triangleAt at 2.
    replace (k + 1)%nat with (S k) by lia.
    replace (k + 2)%nat with (S (S k)) by lia.
    replace (Z.of_nat k mod 2 =? 0) with (Nat.even k).
    + destruct (Nat.even k); rewrite <- app_assoc; f_equal; f_equal;
        apply triple_inside; lia.
    + destruct (Nat.even k) eqn:He.
      * apply Nat.even_spec in He as [m ->]. symmetry. apply Z.eqb_eq.
        rewrite Nat2Z.inj_mul. change (Z.of_nat 2) with 2.
        rewrite Z.mul_comm. apply Z_mod_mult.
      * symmetry. apply Z.eqb_neq.
        assert (Ho : Nat.odd k = true) by (rewrite <- Nat.negb_even, He; reflexivity).
        apply Nat.odd_spec in Ho as [m ->].
        rewrite Nat2Z.inj_add, Nat2Z.inj_mul. change (Z.of_nat 2) with 2.
        change (Z.of_nat 1) with 1. div_lia.
Qed.

Lemma triangleAt_in (strip : list A) (k : nat) (x : A) :
  In x (triangleAt strip k) -> In x strip.
Proof.
  assert (Hsub : forall j, In x (take 1 (drop j strip)) -> In x strip).
  { intros j Hx. apply list_elem_of_In in Hx. apply list_elem_of_In.
    apply list_elem_of_lookup in Hx as (i & Hx).
    apply lookup_take_Some in Hx as [Hx _].
    rewrite lookup_drop in Hx. eapply list_elem_of_lookup_2, Hx. }
  unfold triangleAt. destruct (Nat.even k); rewrite !in_app_iff;
    intros [Hx | [Hx | Hx]]; eapply Hsub, Hx.
Qed.

Lemma triangleAt_length (strip : list A) (k : nat) :
  (k + 2 < length strip)%nat -> length (triangleAt strip k) = 3%nat.
Proof.
  intros Hk. unfold triangleAt.
  destruct (Nat.even k); rewrite !length_app, !length_take, !length_drop; lia.
Qed.

(** X16: the triangle loop of a strip never reads outside the strip (its
    result does not depend on what such a read would give): it appends, for
    each window of three consecutive entries, those three entries, with the
    last two exchanged at odd positions; so a strip of [n >= 2] entries
    adds [3 * (n - 2)] indices, each an entry of the strip, and a shorter
    strip adds none. *)
Theorem stripTriangles_windows (strip indices : list A) :
  stripTriangles undefined strip indices
  = indices ++ concat (map (triangleAt strip) (seq 0 (length strip - 2)))
  /\ length (stripTriangles undefined strip indices)
     = (length indices + 3 * (length strip - 2))%nat
  /\ forall x, In x (stripTriangles undefined strip indices) ->
               In x indices \/ In x strip.
Proof.
  assert (Heq : stripTriangles undefined strip indices
                = indices ++ concat (map (triangleAt strip)
                                         (seq 0 (length strip - 2)))).
  { unfold stripTriangles.
    replace (Z.to_nat (Z.of_nat (length strip) - 2))
      with (length strip - 2)%nat by lia.
    destruct (le_lt_dec 2 (length strip)) as [Hlong | Hshort].
    - apply (stripTriangles_loop_spec strip (length strip - 2) 0). lia.
    - replace (length strip - 2)%nat with 0%nat by lia.
      cbn. rewrite app_nil_r. reflexivity. }
  split; [exact Heq | ]. rewrite Heq. split.
  - rewrite length_app. f_equal.
    assert (Hlen : forall n k, (k + n + 2 <= length strip)%nat \/ n = 0%nat ->
              length (concat (map (triangleAt strip) (seq k n))) = (3 * n)%nat).
    { induction n as [ | n IH]; intros k Hk; [reflexivity | ].
      cbn [seq map concat]. rewrite length_app, IH by lia.
      rewrite triangleAt_length by lia. lia. }
    apply Hlen. lia.
  - intros x Hx. apply in_app_iff in Hx as [Hx | Hx]; [left; exact Hx | right].
    apply in_concat in Hx as (t & Ht & Hx).
    apply in_map_iff in Ht as (k & <- & _).
    eapply triangleAt_in, Hx.
Qed.

Lemma reverseCopies_loop_spec (n : nat) :
  forall (done rest : list A),
    length rest = (3 * n)%nat ->
    forall copies,
      length copies = length done ->
      reverseCopies_loop undefined n (Z.of_nat (length done))
                         (done ++ rest ++ copies)
      = done ++ rest ++ copies ++ swapWinding rest.
Proof.
  induction n as [ | n IH]; intros done rest Hrest copies Hcopies.
  - destruct rest; [ | discriminate]. cbn. rewrite app_nil_r. reflexivity.
  - destruct rest as [ | a [ | b [ | c rest]]]; try (cbn in Hrest; lia).
    cbn [reverseCopies_loop swapWinding].
    assert (Hat : forall (j : nat) x pre post,
               length pre = j ->
               at_ undefined (done ++ pre ++ x :: post)
                   (Z.of_nat (length done) + Z.of_nat j) = x).
    { intros j x pre post Hpre. unfold at_.
      destruct (Z.ltb_spec (Z.of_nat (length done) + Z.of_nat j) 0); [lia | ].
      replace (Z.to_nat (Z.of_nat (length done) + Z.of_nat j))
        with (length (done ++ pre) + 0)%nat
        by (rewrite length_app; lia).
      rewrite (app_assoc done pre). apply (app_nth2_plus (done ++ pre)). }
    pose proof (Hat 0%nat a [] (b :: c :: rest ++ copies) eq_refl) as Ha.
    pose proof (Hat 1%nat b [a] (c :: rest ++ copies) eq_refl) as Hb.
    pose proof (Hat 2%nat c [a; b] (rest ++ copies) eq_refl) as Hc.
    cbn [app] in Ha, Hb, Hc. rewrite Z.add_0_r in Ha.
    change (Z.of_nat 1) with 1 in Hb. change (Z.of_nat 2) with 2 in Hc.
    cbn [app]. rewrite Ha, Hb, Hc.
    specialize (IH (done ++ [a; b; c]) rest ltac:(cbn in Hrest; lia)
                   (copies ++ [a; c; b])).
    rewrite !length_app in IH. cbn [length] in IH.
    replace (Z.of_nat (length done) + 3)
      with (Z.of_nat (length done + 3)) by lia.
    repeat (rewrite <- app_assoc in IH; cbn [app] in IH).
    repeat (rewrite <- app_assoc; cbn [app]).
    rewrite IH by lia. reflexivity.
Qed.

(** X17: on an index list made of whole triangles, the duplication loop of
    the glass branch appends one copy of every triangle with its last two
    corners exchanged, in order, and reads no index it has itself appended:
    the list doubles in length and keeps its first half. *)
Theorem reverseCopies_doubles (indices : list A) (t : nat) :
  length indices = (3 * t)%nat ->
  reverseCopies undefined indices = indices ++ swapWinding indices
  /\ length (reverseCopies undefined indices) = (2 * length indices)%nat.
Proof.
  intros Hlen.
  assert (Heq : reverseCopies undefined indices = indices ++ swapWinding indices).
  { unfold reverseCopies.
    replace (Z.to_nat ((Z.of_nat (length indices) + 2) / 3)) with t
      by (rewrite Hlen; div_lia).
    pose proof (reverseCopies_loop_spec t [] indices Hlen [] eq_refl) as Hloop.
    cbn [app length] in Hloop. rewrite app_nil_r in Hloop. exact Hloop. }
  split; [exact Heq | ]. rewrite Heq, length_app. 
  assert (Hsw : forall n (l : list A), length l = (3 * n)%nat ->
                                       length (swapWinding l) = length l).
  { induction n as [ | n IH]; intros l Hl.
    - destruct l; [reflexivity | discriminate].
    - destruct l as [ | a [ | b [ | c l]]]; try (cbn in Hl; lia).
      cbn [swapWinding length]. rewrite IH by (cbn in Hl; lia). reflexivity. }
  rewrite (Hsw t) by exact Hlen. lia.
Qed.

End Triangles.

Lemma reverseCopies_doubles_witness :
  MeshBuild.reverseCopies 0 [1; 2; 3; 4; 5; 6]
  = [1; 2; 3; 4; 5; 6] ++ swapWinding [1; 2; 3; 4; 5; 6].
Proof.
  destruct (reverseCopies_doubles 0 [1; 2; 3; 4; 5; 6] 2) as [Heq _];
    [reflexivity | exact Heq].
Defined.

Section TextureGroups.
Import MeshBuild.

Lemma mapHas_keys (tid : Z) (groups : list (Z * list Poly)) :
  mapHas tid groups = true <-> tid ∈ map fst groups.
Proof.
  induction groups as [ | [k ps] groups IH]; cbn [mapHas map fst].
  - split; [discriminate | intros H; inversion H].
  - rewrite orb_true_iff, IH, elem_of_cons, Z.eqb_eq.
    split; intros [H | H]; auto.
Qed.

Lemma mapPush_keys (tid : Z) (poly : Poly) (groups : list (Z * list Poly)) :
  map fst (mapPush tid poly groups) = map fst groups.
Proof.
  induction groups as [ | [k ps] groups IH]; cbn [mapPush map fst];
    [reflexivity | ].
  destruct (k =? tid); cbn [map fst]; [reflexivity | rewrite IH; reflexivity].
Qed.

Lemma mapPush_elem (tid : Z) (poly : Poly) (groups : list (Z * list Poly)) :
  NoDup (map fst groups) ->
  forall k ps',
    (k, ps') ∈ mapPush tid poly groups
    <-> (k <> tid /\ (k, ps') ∈ groups)
        \/ (k = tid /\ exists ps, (tid, ps) ∈ groups /\ ps' = ps ++ [poly]).
Proof.
  induction groups as [ | [k0 ps0] groups IH]; cbn [mapPush map fst];
    intros Hnd k ps'.
  - split.
    + intros H. inversion H.
    + intros [[_ H] | (_ & ps & H & _)]; inversion H.
  - apply NoDup_cons in Hnd as [Hfresh Hnd].
    assert (Hkey : forall ps, (k0, ps) ∈ groups -> False).
    { intros ps Hin. apply Hfresh.
      apply (list_elem_of_fmap_2 fst) in Hin. exact Hin. }
    destruct (Z.eqb_spec k0 tid) as [-> | Hne].
    + rewrite elem_of_cons. split.
      * intros [[= -> ->] | Hin].
        -- right. split; [reflexivity | ]. exists ps0.
           split; [apply list_elem_of_here | reflexivity].
        -- left. split; [ | apply list_elem_of_further; exact Hin].
           intros ->. exact (Hkey _ Hin).
      * intros [[Hk Hin] | (-> & ps & Hin & ->)].
        -- apply elem_of_cons in Hin as [[= -> ->] | Hin];
             [contradiction | right; exact Hin].
        -- apply elem_of_cons in Hin as [[= ->] | Hin];
             [left; reflexivity | destruct (Hkey _ Hin)].
    + rewrite elem_of_cons, (IH Hnd). split.
      * intros [[= -> ->] | [[Hk Hin] | (-> & ps & Hin & ->)]].
        -- left. split; [exact Hne | apply list_elem_of_here].
        -- left. split; [exact Hk | apply list_elem_of_further; exact Hin].
        -- right. split; [reflexivity | ]. exists ps.
           split; [apply list_elem_of_further; exact Hin | reflexivity].
      * intros [[Hk Hin] | (-> & ps & Hin & ->)].
        -- apply elem_of_cons in Hin as [[= -> ->] | Hin];
             [left; reflexivity | right; left; auto].
        -- apply elem_of_cons in Hin as [[= Hk _] | Hin];
             [congruence | ].
           right. right. split; [reflexivity | ]. exists ps. auto.
Qed.

Lemma filter_snoc (tid : Z) (seen : list Poly) (poly : Poly) :
  List.filter (fun p => poly_texId p =? tid) (seen ++ [poly])
  = List.filter (fun p => poly_texId p =? tid) seen
    ++ (if poly_texId poly =? tid then [poly] else []).
Proof. rewrite List.filter_app. reflexivity. Qed.

Lemma filter_absent (tid : Z) (seen : list Poly) :
  (forall p, p ∈ seen -> poly_texId p <> tid) ->
  List.filter (fun p => poly_texId p =? tid) seen = [].
Proof.
  induction seen as [ | q seen IH]; intros Hall; [reflexivity | ].
  cbn [List.filter].
  destruct (Z.eqb_spec (poly_texId q) tid) as [Heq | _].
  - destruct (Hall q (list_elem_of_here _ _) Heq).
  - apply IH. intros p Hp. apply Hall, list_elem_of_further, Hp.
Qed.

Lemma groupStep_grouped (seen : list Poly) (groups : list (Z * list Poly))
    (poly : Poly) :
  grouped seen groups -> grouped (seen ++ [poly]) (groupStep groups poly).
Proof.
  intros (Hnd & Hgroups & Hcover). unfold groupStep.
  set (tid := poly_texId poly).
  set (groups1 := if mapHas tid groups then groups else groups ++ [(tid, [])]).
  assert (Hnd1 : NoDup (map fst groups1)).
  { subst groups1. destruct (mapHas tid groups) eqn:Hhas; [exact Hnd | ].
    rewrite map_app. cbn [map fst]. apply NoDup_app. split; [exact Hnd | ].
    split; [ | apply NoDup_singleton].
    intros k Hk Hk'. apply list_elem_of_singleton in Hk'. subst k.
    apply mapHas_keys in Hk. congruence. }
  assert (Hin1 : tid ∈ map fst groups1).
  { subst groups1. destruct (mapHas tid groups) eqn:Hhas.
    - apply mapHas_keys, Hhas.
    - rewrite map_app. apply elem_of_app. right. apply list_elem_of_here. }
  assert (Hgroups1 : forall k ps, (k, ps) ∈ groups1 ->
            ps = List.filter (fun p => poly_texId p =? k) seen
            /\ (k <> tid -> ps <> [])).
  { subst groups1. intros k ps Hin.
    destruct (mapHas tid groups) eqn:Hhas.
    - destruct (Hgroups k ps Hin) as [Hne Heq]. auto.
    - apply elem_of_app in Hin as [Hin | Hin].
      + destruct (Hgroups k ps Hin) as [Hne Heq]. auto.
      + apply list_elem_of_singleton in Hin. injection Hin as -> ->.
        split; [ | congruence]. symmetry. apply filter_absent.
        intros p Hp Heq. apply Hcover in Hp. rewrite Heq in Hp.
        apply mapHas_keys in Hp. congruence. }
  split; [rewrite mapPush_keys; exact Hnd1 | ]. split.
  - intros k ps' Hin. apply (mapPush_elem tid poly groups1 Hnd1) in Hin.
    rewrite filter_snoc. fold tid.
    destruct Hin as [[Hk Hin] | (-> & ps & Hin & ->)].
    + destruct (Hgroups1 k ps' Hin) as [Heq Hne].
      destruct (Z.eqb_spec tid k) as [Hsame | _]; [congruence | ].
      rewrite app_nil_r. auto.
    + destruct (Hgroups1 tid ps Hin) as [Heq _].
      rewrite Z.eqb_refl. split; [ | congruence].
      intros Hnil. apply app_eq_nil in Hnil as [_ Hnil]. discriminate.
  - intros p Hp. rewrite mapPush_keys.
    apply elem_of_app in Hp as [Hp | Hp].
    + apply Hcover in Hp. subst groups1.
      destruct (mapHas tid groups); [exact Hp | ].
      rewrite map_app. apply elem_of_app. left. exact Hp.
    + apply list_elem_of_singleton in Hp. subst p. exact Hin1.
Qed.

(** X18: the grouping by texture id is a partition of the polygon list:
    the map holds each id once, the group of an id is not empty and holds
    exactly the polygons with that id in their original order, and every
    polygon's id has a group. *)
Theorem texGroups_partition (polygons : list Poly) :
  NoDup (map fst (texGroups polygons))
  /\ (forall tid ps, (tid, ps) ∈ texGroups polygons ->
        ps <> []
        /\ ps = List.filter (fun p => poly_texId p =? tid) polygons)
  /\ (forall p, p ∈ polygons ->
        poly_texId p ∈ map fst (texGroups polygons)).
Proof.
  change (grouped polygons (texGroups polygons)). unfold texGroups.
  induction polygons as [ | poly polygons IH] using rev_ind.
  - cbn. split; [apply NoDup_nil_2 | ].
    split; [intros tid ps H; inversion H | intros p H; inversion H].
  - rewrite fold_left_app. cbn [fold_left]. apply groupStep_grouped, IH.
Qed.

End TextureGroups.

(** ** The twiddled order on square textures *)

Section TwiddledSquares.
Import PvrDecoder.

Lemma below_pow2 (n b : Z) :
  0 <= n -> 0 <= b -> (forall j, b <= j -> Z.testbit n j = false) ->
  n < 2 ^ b.
Proof.
  intros Hn Hb Hbits. destruct (Z.lt_ge_cases n (2 ^ b)) as [Hlt | Hge];
    [exact Hlt | exfalso].
  assert (Hpos : 0 < n) by (pose proof (Z.pow_pos_nonneg 2 b); lia).
  assert (Hlog : b <= Z.log2 n) by (apply Z.log2_le_pow2; lia).
  pose proof (Z.bit_log2 n Hpos) as Htop.
  rewrite (Hbits _ Hlog) in Htop. discriminate.
Qed.

Lemma above_pow2 (n b j : Z) :
  0 <= n < 2 ^ b -> b <= j -> Z.testbit n j = false.
Proof.
  intros Hn Hj. destruct (Z.eq_dec n 0) as [-> | Hnz]; [apply Z.bits_0 | ].
  apply Z.bits_above_log2; [lia | ].
  assert (Z.log2 n < b) by (apply Z.log2_lt_pow2; lia). lia.
Qed.

Lemma spec_deinterleave_loop_nonneg (m : Z) (n : nat) :
  forall i x0 y0, 0 <= i -> 0 <= x0 -> 0 <= y0 ->
    0 <= (spec_deinterleave_loop n i m x0 y0).1
    /\ 0 <= (spec_deinterleave_loop n i m x0 y0).2.
Proof.
  induction n as [ | n IH]; intros i x0 y0 Hi Hx Hy;
    cbn [spec_deinterleave_loop fst snd]; [auto | ].
  apply IH; [lia | | ]; apply Z.lor_nonneg; split; try assumption;
    destruct (Z.testbit _ _); try lia; apply Z.pow_nonneg; lia.
Qed.

Lemma spec_deinterleave_small (k m : Z) :
  0 <= k <= 10 -> 0 <= m < 2 ^ (2 * k) ->
  0 <= (spec_deinterleave m).1 < 2 ^ k
  /\ 0 <= (spec_deinterleave m).2 < 2 ^ k.
Proof.
  intros Hk Hm. unfold spec_deinterleave.
  destruct (spec_deinterleave_loop_nonneg m 10 0 0 0) as [Hx Hy]; try lia.
  split; (split; [assumption | ]); apply below_pow2; try lia; intros j Hj;
    destruct (spec_deinterleave_loop_bits m 10 0 0 0 j) as [Hbx Hby]; try lia.
  - rewrite Hbx, Z.bits_0. cbn [orb].
    rewrite (above_pow2 m (2 * k)) by lia. apply andb_false_r.
  - rewrite Hby, Z.bits_0. cbn [orb].
    rewrite (above_pow2 m (2 * k)) by lia. apply andb_false_r.
Qed.

Lemma untwiddle_deinterleave (m : Z) :
  0 <= m < 2 ^ 20 ->
  untwiddle (spec_deinterleave m).1 (spec_deinterleave m).2 = m.
Proof.
  intros Hm.
  destruct (spec_deinterleave_small 10 m) as [Hx Hy]; [lia | exact Hm | ].
  change (2 ^ 10) with 1024 in Hx, Hy.
  apply Z.bits_inj'. intros j Hj.
  rewrite untwiddle_bits by lia. unfold interleaved_bit.
  assert (Hq : 0 <= j / 2) by div_lia.
  unfold spec_deinterleave.
  destruct (spec_deinterleave_loop_bits m 10 0 0 0 (j / 2)) as [Hbx Hby];
    try lia.
  destruct (Z.leb_spec 0 (j / 2)); [ | lia]. cbn [andb].
  destruct (Z.ltb_spec (j / 2) 10) as [Hin | Hout]; cbn [andb].
  - destruct (Z.eqb_spec (j mod 2) 1) as [Hodd | Heven].
    + rewrite Hbx, Z.bits_0. cbn [orb].
      destruct (Z.leb_spec 0 (j / 2)), (Z.ltb_spec (j / 2) (0 + Z.of_nat 10));
        try lia. cbn [andb]. f_equal. div_lia.
    + rewrite Hby, Z.bits_0. cbn [orb].
      destruct (Z.leb_spec 0 (j / 2)), (Z.ltb_spec (j / 2) (0 + Z.of_nat 10));
        try lia. cbn [andb]. f_equal. div_lia.
  - symmetry. apply (above_pow2 m 20); [exact Hm | div_lia].
Qed.

(** X19: on a square of side [2^k], [k <= 10], the twiddled address is a
    bijection onto the first [4^k] addresses: it stays below [4^k], and
    every address below [4^k] is the address of the pair obtained by
    de-interleaving its bits, a pair inside the square. *)
Theorem untwiddle_fills_square (k : Z) :
  0 <= k <= 10 ->
  (forall x y, 0 <= x < 2 ^ k -> 0 <= y < 2 ^ k ->
     0 <= untwiddle x y < 2 ^ (2 * k))
  /\ (forall m, 0 <= m < 2 ^ (2 * k) ->
        0 <= (spec_deinterleave m).1 < 2 ^ k
        /\ 0 <= (spec_deinterleave m).2 < 2 ^ k
        /\ untwiddle (spec_deinterleave m).1 (spec_deinterleave m).2 = m).
Proof.
  intros Hk.
  assert (Hside : 2 ^ k <= 2 ^ 10) by (apply Z.pow_le_mono_r; lia).
  change (2 ^ 10) with 1024 in Hside.
  split.
  - intros x y Hx Hy.
    destruct (untwiddle_range x y) as [Hlo _]; [lia | lia | ].
    split; [exact Hlo | ]. apply below_pow2; [exact Hlo | lia | ].
    intros j Hj. rewrite untwiddle_bits by lia. unfold interleaved_bit.
    assert (Hq : k <= j / 2) by div_lia.
    destruct (j mod 2 =? 1).
    + rewrite (above_pow2 x k) by lia. apply andb_false_r.
    + rewrite (above_pow2 y k) by lia. apply andb_false_r.
  - intros m Hm.
    destruct (spec_deinterleave_small k m Hk Hm) as [Hx Hy].
    split; [exact Hx | ]. split; [exact Hy | ].
    apply untwiddle_deinterleave.
    assert (2 ^ (2 * k) <= 2 ^ 20) by (apply Z.pow_le_mono_r; lia). lia.
Qed.

End TwiddledSquares.

Lemma untwiddle_fills_square_witness :
  0 <= PvrDecoder.untwiddle 3 2 < 2 ^ (2 * 2)
  /\ PvrDecoder.untwiddle (spec_deinterleave 14).1 (spec_deinterleave 14).2 = 14.
Proof.
  destruct (untwiddle_fills_square 2) as [Hbound Honto]; [lia | ].
  split.
  - apply Hbound; lia.
  - destruct (Honto 14) as (_ & _ & Heq); [lia | exact Heq].
Defined.

(** ** BinaryReader: byte slices *)

Section ByteSlices.
Import Reader.

(** X20: [readBytes(len)] from a cursor that is not negative returns the
    window of [len] bytes at the cursor, cut at the end of the buffer, and
    moves the cursor by the number of bytes returned; so a short read ends
    at the end of the buffer, and a read of no bytes (a length that is not
    positive, or a cursor at or past the end) leaves the reader as it
    was. *)
Theorem readBytes_window (len : Z) (r : BinaryReader) :
  wf r ->
  exists data r',
    readBytes len r = Ok (data, r')
    /\ data = take (Z.to_nat len) (drop (Z.to_nat (offset r)) (buffer r))
    /\ Z.of_nat (length data) = Z.max 0 (Z.min len (size r - offset r))
    /\ buffer r' = buffer r
    /\ offset r' = offset r + Z.of_nat (length data)
    /\ (data = [] -> r' = r).
Proof.
  intros Hwf. unfold readBytes, wf, size in *.
  set (n := Z.of_nat (length (buffer r))).
  assert (Hdrop : length (drop (Z.to_nat (offset r)) (buffer r))
                  = Z.to_nat (n - offset r)).
  { rewrite length_drop. subst n. lia. }
  destruct (Z.leb_spec (Z.min len (n - offset r)) 0) as [Hnone | Hsome].
  - exists [], r. split; [reflexivity | ].
    assert (Hnil : take (Z.to_nat len) (drop (Z.to_nat (offset r)) (buffer r))
                   = []).
    { apply length_zero_iff_nil. rewrite length_take, Hdrop. lia. }
    rewrite Hnil. cbn [length]. repeat split; auto; lia.
  - destruct (Z.ltb_spec (offset r) 0) as [Hneg | _]; [lia | ].
    eexists _, _. split; [reflexivity | ].
    assert (Htake : take (Z.to_nat (Z.min len (n - offset r)))
                         (drop (Z.to_nat (offset r)) (buffer r))
                    = take (Z.to_nat len)
                           (drop (Z.to_nat (offset r)) (buffer r))).
    { destruct (Z.le_ge_cases len (n - offset r)) as [Hle | Hge].
      - rewrite Z.min_l by lia. reflexivity.
      - rewrite Z.min_r by lia. rewrite !take_ge by lia. reflexivity. }
    rewrite Htake. split; [reflexivity | ].
    assert (Hlen : Z.of_nat (length (take (Z.to_nat len)
                     (drop (Z.to_nat (offset r)) (buffer r))))
                   = Z.min len (n - offset r)).
    { rewrite length_take, Hdrop. lia. }
    rewrite Hlen. cbn [buffer offset set_offset].
    repeat split; try lia.
    intros Hnil. rewrite Hnil in Hlen. cbn [length] in Hlen. lia.
Qed.

Lemma readBytes_window_witness :
  exists data r',
    readBytes 8 (mkReader (bytes [1; 2; 3; 4; 5]) 2) = Ok (data, r')
    /\ data = take 8 (drop 2 (bytes [1; 2; 3; 4; 5]))
    /\ offset r' = 2 + Z.of_nat (length data).
Proof.
  destruct (readBytes_window 8 (mkReader (bytes [1; 2; 3; 4; 5]) 2))
    as (data & r' & Hrun & Hdata & _ & _ & Hoff & _).
  - unfold wf. cbn. lia.
  - exists data, r'. split; [exact Hrun | ]. split; [exact Hdata | exact Hoff].
Defined.

End ByteSlices.

(** ** PvrDecoder: the wrapper on the VQ path *)

Section Wrapper.
Import Reader PvrDecoder.

Variable pre : list byte.

Lemma behind_size r : size (behind pre r) = size r + Z.of_nat (length pre).
Proof. unfold size, behind. cbn [buffer]. rewrite length_app. lia. Qed.

Lemma getUint8_behind buf pos :
  0 <= pos ->
  DataView.getUint8 (pre ++ buf) (pos + Z.of_nat (length pre))
  = DataView.getUint8 buf pos.
Proof.
  intros Hpos. unfold DataView.getUint8.
  destruct (Z.ltb_spec (pos + Z.of_nat (length pre)) 0); [lia | ].
  destruct (Z.ltb_spec pos 0); [lia | ].
  replace (Z.to_nat (pos + Z.of_nat (length pre)))
    with (length pre + Z.to_nat pos)%nat by lia.
  rewrite lookup_app_r by lia.
  replace (length pre + Z.to_nat pos - length pre)%nat with (Z.to_nat pos) by lia.
  reflexivity.
Qed.

Lemma getUint16_behind buf pos :
  0 <= pos ->
  DataView.getUint16 (pre ++ buf) (pos + Z.of_nat (length pre))
  = DataView.getUint16 buf pos.
Proof.
  intros Hpos. unfold DataView.getUint16.
  replace (pos + Z.of_nat (length pre) + 1)
    with (pos + 1 + Z.of_nat (length pre)) by lia.
  rewrite !getUint8_behind by lia. reflexivity.
Qed.

Lemma readFixed_behind {A : Type} (w : Z) (zero : A) access :
  (forall buf pos, 0 <= pos ->
     access (pre ++ buf) (pos + Z.of_nat (length pre)) = access buf pos) ->
  behind_inv pre (readFixed w zero access).
Proof.
  intros Haccess r Hwf. unfold readFixed, canRead.
  rewrite behind_size. cbn [offset behind buffer].
  replace (offset r + Z.of_nat (length pre) + w <=? size r + Z.of_nat (length pre))
    with (offset r + w <=? size r)
    by (destruct (Z.leb_spec (offset r + w) (size r)),
                 (Z.leb_spec (offset r + Z.of_nat (length pre) + w)
                             (size r + Z.of_nat (length pre))); lia).
  destruct (offset r + w <=? size r); cbn [negb].
  - rewrite Haccess by exact Hwf.
    destruct (access (buffer r) (offset r)); [ | reflexivity].
    cbn [lift_behind]. apply Ok_reader; cbn [buffer offset behind set_offset];
      [reflexivity | lia].
  - cbn [lift_behind]. apply Ok_reader; cbn [buffer offset behind set_offset];
      [reflexivity | ].
    unfold size. cbn [buffer]. rewrite ?length_app. lia.
Qed.

Lemma readUInt8_behind : behind_inv pre readUInt8.
Proof. apply readFixed_behind. intros. apply getUint8_behind. assumption. Qed.

Lemma readUInt16_behind : behind_inv pre readUInt16.
Proof. apply readFixed_behind. intros. apply getUint16_behind. assumption. Qed.

Lemma ret_behind {A : Type} (a : A) : behind_inv pre (ret a).
Proof. intros r Hwf. reflexivity. Qed.

Lemma bump_behind n : behind_inv pre (bump n).
Proof.
  intros r Hwf. unfold bump. cbn [lift_behind].
  apply Ok_reader; cbn [buffer offset behind set_offset]; [reflexivity | lia].
Qed.

Lemma tell_seek_behind {A : Type} (k : Z -> M BinaryReader A) :
  (forall start, 0 <= start ->
     forall r, wf r ->
       k (start + Z.of_nat (length pre)) (behind pre r) = lift_behind pre (k start r)) ->
  behind_inv pre (bind tell k).
Proof.
  intros Hk r Hwf. unfold bind, tell. cbn [offset behind].
  apply Hk; exact Hwf.
Qed.

Lemma seek_behind pos r :
  0 <= pos ->
  seek (pos + Z.of_nat (length pre)) (behind pre r) = lift_behind pre (seek pos r).
Proof.
  intros Hpos. unfold seek. rewrite behind_size. cbn [lift_behind].
  apply Ok_reader; cbn [buffer offset behind set_offset]; [reflexivity | ].
  unfold size. lia.
Qed.

Lemma bind_behind {A B : Type} (m : M BinaryReader A)
    (k : A -> M BinaryReader B) (Q : A -> Prop) :
  rsafe m -> returns m Q -> behind_inv pre m ->
  (forall a, Q a -> behind_inv pre (k a)) ->
  behind_inv pre (bind m k).
Proof.
  intros Hsafe Hret Hm Hk r Hwf. unfold bind at 1. rewrite (Hm r Hwf).
  destruct (Hsafe r Hwf) as (a & r' & Hrun & Hwf' & _).
  rewrite (bind_Ok _ _ _ _ _ Hrun). rewrite Hrun. cbn [lift_behind].
  apply Hk; [exact (Hret _ _ _ Hrun) | exact Hwf'].
Qed.

Lemma returns_any {A : Type} (m : M BinaryReader A) : returns m (fun _ => True).
Proof. intros r a r' _. exact I. Qed.

Lemma returns_word : returns readUInt16 (fun v => 0 <= v <= 65535).
Proof.
  intros r v r' Hrun. unfold readUInt16, readFixed in Hrun.
  destruct (negb (canRead r 2)); [injection Hrun as <- _; lia | ].
  destruct (DataView.getUint16 (buffer r) (offset r)) as [u | ] eqn:Hu;
    [ | discriminate].
  injection Hrun as <- _. apply getUint16_Some_inv in Hu. lia.
Qed.

Variables (width colorFormat : Z).

Lemma readCodebook_behind (n : nat) :
  forall codebook, behind_inv pre (readCodebook n codebook).
Proof.
  induction n as [ | n IH]; intros codebook; cbn [readCodebook].
  - apply ret_behind.
  - repeat (apply (bind_behind _ _ (fun _ => True));
            [apply readUInt16_rsafe | apply returns_any
             | apply readUInt16_behind | intros ? _]).
    apply IH.
Qed.

Lemma readCodebook_rsafe (n : nat) :
  forall codebook, rsafe (readCodebook n codebook).
Proof.
  induction n as [ | n IH]; intros codebook; cbn [readCodebook].
  - apply ret_rsafe.
  - repeat (apply bind_rsafe; [apply readUInt16_rsafe | intros ?]). apply IH.
Qed.

Lemma decodeVQ_row_behind (y start : Z) (codebook : list (list Z)) :
  0 <= y < 2 ^ 31 -> 0 <= start ->
  forall (n : nat) (x : Z) (rgba : list Z) (r : BinaryReader),
    0 <= x -> x + Z.of_nat n < 2 ^ 31 -> wf r ->
    decodeVQ_row width colorFormat n x y (start + Z.of_nat (length pre))
                 codebook rgba (behind pre r)
    = lift_behind pre
        (decodeVQ_row width colorFormat n x y start codebook rgba r).
Proof.
  intros Hy Hstart. induction n as [ | n IH]; intros x rgba r Hx Hn Hwf.
  - reflexivity.
  - cbn [decodeVQ_row].
    assert (Htw : 0 <= untwiddle x y) by (apply untwiddle_range; lia).
    replace (start + Z.of_nat (length pre) + untwiddle x y)
      with (start + untwiddle x y + Z.of_nat (length pre)) by lia.
    destruct (seek_rsafe (start + untwiddle x y) r Hwf)
      as ([] & r1 & Hrun1 & Hwf1 & _).
    assert (Hrun1' : seek (start + untwiddle x y + Z.of_nat (length pre))
                          (behind pre r) = Ok (tt, behind pre r1)).
    { rewrite seek_behind by lia. rewrite Hrun1. reflexivity. }
    rewrite (bind_Ok _ _ _ _ _ Hrun1'), (bind_Ok _ _ _ _ _ Hrun1).
    destruct (readUInt8_rsafe r1 Hwf1) as (code & r2 & Hrun2 & Hwf2 & _).
    assert (Hrun2' : readUInt8 (behind pre r1) = Ok (code, behind pre r2)).
    { rewrite (readUInt8_behind r1 Hwf1), Hrun2. reflexivity. }
    rewrite (bind_Ok _ _ _ _ _ Hrun2'), (bind_Ok _ _ _ _ _ Hrun2).
    destruct (Z.of_nat (length codebook) <=? code); apply IH; lia || exact Hwf2.
Qed.

Lemma decodeVQ_row_wf (y start : Z) (codebook : list (list Z)) :
  forall (n : nat) (x : Z) (rgba : list Z) (r : BinaryReader),
    wf r ->
    exists rgba' r',
      decodeVQ_row width colorFormat n x y start codebook rgba r
      = Ok (rgba', r') /\ wf r'.
Proof.
  induction n as [ | n IH]; intros x rgba r Hwf.
  - exists rgba, r. split; [reflexivity | exact Hwf].
  - cbn [decodeVQ_row].
    destruct (seek_rsafe (start + untwiddle x y) r Hwf)
      as ([] & r1 & Hrun1 & Hwf1 & _).
    rewrite (bind_Ok _ _ _ _ _ Hrun1).
    destruct (readUInt8_rsafe r1 Hwf1) as (code & r2 & Hrun2 & Hwf2 & _).
    rewrite (bind_Ok _ _ _ _ _ Hrun2).
    destruct (Z.of_nat (length codebook) <=? code); apply IH; exact Hwf2.
Qed.

Lemma decodeVQ_rows_behind (start : Z) (codebook : list (list Z)) :
  0 <= start -> 0 <= width <= 65535 ->
  forall (n : nat) (y : Z) (rgba : list Z) (r : BinaryReader),
    0 <= y -> y + Z.of_nat n < 2 ^ 31 -> wf r ->
    decodeVQ_rows width colorFormat n y (start + Z.of_nat (length pre))
                  codebook rgba (behind pre r)
    = lift_behind pre
        (decodeVQ_rows width colorFormat n y start codebook rgba r).
Proof.
  intros Hstart Hwidth. induction n as [ | n IH]; intros y rgba r Hy Hn Hwf.
  - reflexivity.
  - cbn [decodeVQ_rows].
    destruct (decodeVQ_row_wf y start codebook (half_trips width) 0 rgba r Hwf)
      as (rgba1 & r1 & Hrun1 & Hwf1).
    assert (Hrun1' : decodeVQ_row width colorFormat (half_trips width) 0 y
                       (start + Z.of_nat (length pre)) codebook rgba
                       (behind pre r) = Ok (rgba1, behind pre r1)).
    { rewrite (decodeVQ_row_behind y start codebook) by
        (try exact Hwf; try lia; unfold half_trips; div_lia).
      rewrite Hrun1. reflexivity. }
    rewrite (bind_Ok _ _ _ _ _ Hrun1'), (bind_Ok _ _ _ _ _ Hrun1).
    apply IH; lia || exact Hwf1.
Qed.

Lemma decodeVQ_behind (height : Z) :
  0 <= width <= 65535 -> 0 <= height <= 65535 ->
  behind_inv pre (decodeVQ width height colorFormat).
Proof.
  intros Hwidth Hheight. unfold decodeVQ.
  apply (bind_behind _ _ (fun _ => True));
    [apply readCodebook_rsafe | apply returns_any
     | apply readCodebook_behind | intros codebook _].
  apply tell_seek_behind. intros start Hstart r Hwf.
  apply decodeVQ_rows_behind; try assumption; try lia.
  unfold half_trips. div_lia.
Qed.

End Wrapper.

Section WrappedVQ.
Import Reader PvrDecoder.

Lemma rest_behind (pre : list byte) (colorFormat : Z) :
  behind_inv pre
    (bump 2 ;;
     width <- readUInt16 ;;
     height <- readUInt16 ;;
     pixelData <- decodeVQ width height colorFormat ;;
     ret (mkTexture pixelData width height
            ((colorFormat =? 0) || (colorFormat =? 2)) (colorFormat =? 2))).
Proof.
  apply (bind_behind _ _ _ (fun _ => True));
    [apply bump_rsafe; lia | apply returns_any | apply bump_behind | intros _ _].
  apply (bind_behind _ _ _ (fun v => 0 <= v <= 65535));
    [apply readUInt16_rsafe | apply returns_word | apply readUInt16_behind
     | intros width Hwidth].
  apply (bind_behind _ _ _ (fun v => 0 <= v <= 65535));
    [apply readUInt16_rsafe | apply returns_word | apply readUInt16_behind
     | intros height Hheight].
  apply (bind_behind _ _ _ (fun _ => True));
    [ | apply returns_any | apply decodeVQ_behind; assumption
      | intros; apply ret_behind].
  intros r Hwf.
  destruct (decodeVQ_spec width height colorFormat ltac:(lia) ltac:(lia) r Hwf)
    as (rgba & r' & Hrun & Hwf' & Hbuf & _).
  exists rgba, r'. auto.
Qed.

(** X21: on the VQ path the wrapper is transparent.  For a payload whose
    data-format byte is 3 or 4 and that does not itself begin with the
    tag, decoding the tag, any four length bytes and the payload gives
    the texture that decoding the payload alone gives (the length field is
    never looked at). *)
Theorem vq_decode_ignores_wrapper (lenField payload : list byte) (d : Z) :
  length lenField = 4%nat ->
  (forall r', readString 4 (Reader.new payload) <> Ok ("PVRT"%string, r')) ->
  DataView.getUint8 payload 1 = Some d ->
  d = 3 \/ d = 4 ->
  decodeBuffer (pvrt_tag ++ lenField ++ payload) = decodeBuffer payload.
Proof.
  intros Hlen Hbare Hd Hvq.
  set (pre := pvrt_tag ++ lenField).
  assert (Hpre : Z.of_nat (length pre) = 8).
  { subst pre. rewrite length_app, Hlen. reflexivity. }
  set (rb0 := mkReader payload 0).
  assert (Hsize : 2 <= size rb0).
  { unfold DataView.getUint8 in Hd.
    change (1 <? 0) with false in Hd. change (Z.to_nat 1) with 1%nat in Hd.
    cbv iota in Hd.
    destruct (payload !! 1%nat) as [b | ] eqn:Hb; [ | discriminate Hd].
    apply lookup_lt_Some in Hb. unfold size. cbn [buffer rb0]. lia. }
  (* the common part of the two runs *)
  set (tail := fun colorFormat dataFormat : Z =>
         bump 2 ;;
         width <- readUInt16 ;;
         height <- readUInt16 ;;
         pixelData <- (if (dataFormat =? 3) || (dataFormat =? 4)
                       then decodeVQ width height colorFormat
                       else decodeRaw width height colorFormat
                              ((dataFormat =? 1) || (dataFormat =? 2)
                               || (dataFormat =? 3) || (dataFormat =? 4)
                               || (dataFormat =? 17))) ;;
         ret (mkTexture pixelData width height
                ((colorFormat =? 0) || (colorFormat =? 2)) (colorFormat =? 2))).
  assert (Hwf0 : wf rb0) by (unfold wf; cbn; lia).
  destruct (readUInt8_exact rb0 Hwf0) as (cf & Hcf & _); [cbn [offset rb0]; lia | ].
  set (rb1 := set_offset rb0 (offset rb0 + 1)) in *.
  assert (Hwf1 : wf rb1) by (unfold wf; cbn; lia).
  assert (Hdf : readUInt8 rb1 = Ok (d, set_offset rb1 (offset rb1 + 1))).
  { apply readFixed_avail; [cbn; unfold size in *; cbn in *; lia | exact Hd]. }
  set (rb2 := set_offset rb1 (offset rb1 + 1)) in *.
  assert (Hwf2 : wf rb2) by (unfold wf; cbn; lia).
  assert (Htail : forall r, wf r ->
            tail cf d (behind pre r) = lift_behind pre (tail cf d r)).
  { subst tail. cbv beta.
    replace ((d =? 3) || (d =? 4)) with true
      by (destruct Hvq as [-> | ->]; reflexivity).
    apply rest_behind. }
  (* the bare payload *)
  assert (Hbare_run : decode (Reader.new payload) = tail cf d rb2).
  { unfold decode.
    destruct (readString_rsafe 4 (Reader.new payload)) as (sig & r1 & Hsig & Hwfs & Hbuf).
    { unfold wf. cbn. lia. }
    rewrite (bind_Ok _ _ _ _ _ Hsig).
    assert (Hneq : String.eqb sig "PVRT" = false).
    { apply String.eqb_neq. intros ->. exact (Hbare _ Hsig). }
    rewrite Hneq.
    assert (Hseek : seek 0 r1 = Ok (tt, rb0)).
    { unfold seek. apply Ok_reader; cbn [buffer offset set_offset rb0];
        [exact Hbuf | unfold size; lia]. }
    rewrite (bind_Ok _ _ _ _ _ Hseek), (bind_Ok _ _ _ _ _ Hcf),
            (bind_Ok _ _ _ _ _ Hdf).
    reflexivity. }
  (* the wrapped payload *)
  assert (Hwrapped_run : decode (Reader.new (pvrt_tag ++ lenField ++ payload))
                         = tail cf d (behind pre rb2)).
  { unfold decode, readString.
    set (W := pvrt_tag ++ lenField ++ payload).
    assert (HW : W = pre ++ payload) by (subst W pre; apply app_assoc).
    assert (HsizeW : 8 <= Z.of_nat (length W)).
    { rewrite HW, length_app. lia. }
    destruct (readString_loop_window 4 EmptyString (Reader.new W))
      as (r1 & Hsig & Hbuf & Hoff); [unfold wf; cbn; lia | ].
    assert (Hchars : (EmptyString
                      ++ chars_until_nul
                           (take 4 (drop (Z.to_nat (offset (Reader.new W)))
                                         (buffer (Reader.new W)))))%string
                     = "PVRT"%string).
    { subst W. vm_compute. reflexivity. }
    rewrite Hchars in Hsig. rewrite (bind_Ok _ _ _ _ _ Hsig).
    change (String.eqb "PVRT" "PVRT") with true. cbv iota.
    assert (Hskip : skip 4 r1 = Ok (tt, behind pre rb0)).
    { unfold skip, seek.
      rewrite Hoff by (unfold size; cbn [buffer offset Reader.new]; lia).
      apply Ok_reader; cbn [buffer offset set_offset behind rb0 Reader.new].
      - rewrite Hbuf. exact HW.
      - unfold size. rewrite Hbuf. cbn [buffer offset Reader.new]. lia. }
    rewrite (bind_Ok _ _ _ _ _ Hskip).
    assert (Hcf' : readUInt8 (behind pre rb0) = Ok (cf, behind pre rb1)).
    { rewrite (readUInt8_behind pre rb0 Hwf0), Hcf. reflexivity. }
    assert (Hdf' : readUInt8 (behind pre rb1) = Ok (d, behind pre rb2)).
    { rewrite (readUInt8_behind pre rb1 Hwf1), Hdf. reflexivity. }
    rewrite (bind_Ok _ _ _ _ _ Hcf'), (bind_Ok _ _ _ _ _ Hdf').
    reflexivity. }
  unfold decodeBuffer. rewrite Hwrapped_run, Hbare_run, (Htail rb2 Hwf2).
  destruct (tail cf d rb2) as [[t r] | e | ]; reflexivity.
Qed.

End WrappedVQ.

Lemma vq_decode_ignores_wrapper_witness :
  PvrDecoder.decodeBuffer
    (pvrt_tag ++ bytes [9; 0; 0; 0] ++ bytes [1; 3; 0; 0; 2; 0; 2; 0; 0x1F; 0])
  = PvrDecoder.decodeBuffer (bytes [1; 3; 0; 0; 2; 0; 2; 0; 0x1F; 0]).
Proof.
  apply (vq_decode_ignores_wrapper (bytes [9; 0; 0; 0])
           (bytes [1; 3; 0; 0; 2; 0; 2; 0; 0x1F; 0]) 3).
  - reflexivity.
  - intros r' H. vm_compute in H. discriminate H.
  - reflexivity.
  - left. reflexivity.
Defined.

(** ** Mt5Loader: load *)

Section Load.
Import Reader Mt5Loader.

Lemma getUint8_inside (buf : list byte) (pos v : Z) :
  DataView.getUint8 buf pos = Some v -> 0 <= pos < Z.of_nat (length buf).
Proof.
  unfold DataView.getUint8. destruct (Z.ltb_spec pos 0); [discriminate | ].
  destruct (buf !! Z.to_nat pos) as [b | ] eqn:Hb; [ | discriminate].
  intros _. apply lookup_lt_Some in Hb. lia.
Qed.

Lemma getUint32_inside (buf : list byte) (pos v : Z) :
  DataView.getUint32 buf pos = Some v ->
  0 <= pos /\ pos + 4 <= Z.of_nat (length buf).
Proof.
  unfold DataView.getUint32. intros Hv.
  destruct (DataView.getUint8 buf pos) eqn:H0; [ | discriminate].
  destruct (DataView.getUint8 buf (pos + 1)) eqn:H1; [ | discriminate].
  destruct (DataView.getUint8 buf (pos + 2)) eqn:H2; [ | discriminate].
  destruct (DataView.getUint8 buf (pos + 3)) eqn:H3; [ | discriminate].
  apply getUint8_inside in H0, H3. lia.
Qed.

Lemma node_phase_post (fuel : nat) (modelOffset : Z) (s2 : State) nodes s' :
  (s2' <- get_state ;;
   put_state (mkState (st_reader s2') (st_textureCache s2')
                      (st_globalVertices s2') (st_vertexOffset s2') []
                      (st_cacheSets s2')) ;;
   rd (seek modelOffset) ;;
   readNode fuel ;;
   s3 <- get_state ;;
   ret (st_nodes s3)) s2 = Ok (nodes, s') ->
  NoDup (map n_addr nodes)
  /\ st_nodes s' = nodes
  /\ buffer (st_reader s') = buffer (st_reader s2)
  /\ Forall (fun a => 0 <= a <= size (st_reader s2) - 64) (map n_addr nodes).
Proof.
  intros Hrun.
  bind_inv Hrun. injection Hm as <- <-.
  bind_inv Hrun. unfold put_state in Hm. injection Hm as _ <-.
  bind_inv Hrun. unfold rd, seek in Hm. cbn [st_reader] in Hm.
  injection Hm as _ <-.
  bind_inv Hrun. rename Hm into Hnode.
  bind_inv Hrun. injection Hm as <- <-. ret_inv Hrun.
  match type of Hnode with readNode _ ?st = _ => set (sB := st) in * end.
  assert (Hwf : wf (st_reader sB)) by (unfold wf; cbn; lia).
  assert (Hok : nodes_ok sB).
  { split; cbn; [apply NoDup_nil_2 | apply Forall_nil_2]. }
  set (big := Nat.max fuel (S (length (buffer (st_reader sB))))).
  apply (readNode_fuel_le fuel big) in Hnode; [ | lia].
  destruct (readNode_total big sB Hwf Hok) as (s'' & Hrun' & Hpost).
  { unfold unvisited_bound, size. cbn [st_nodes sB length]. lia. }
  rewrite Hrun' in Hnode. injection Hnode as _ <-.
  destruct Hpost as (_ & Hbuf & _ & Hnd & Hrange).
  split; [exact Hnd | ]. split; [reflexivity | ].
  split; [exact Hbuf | ].
  unfold size in *. rewrite Hbuf in Hrange. exact Hrange.
Qed.

Lemma node_phase_total (fuel : nat) (modelOffset : Z) (s2 : State) :
  (length (buffer (st_reader s2)) < fuel)%nat ->
  exists nodes s',
    (s2' <- get_state ;;
     put_state (mkState (st_reader s2') (st_textureCache s2')
                        (st_globalVertices s2') (st_vertexOffset s2') []
                        (st_cacheSets s2')) ;;
     rd (seek modelOffset) ;;
     readNode fuel ;;
     s3 <- get_state ;;
     ret (st_nodes s3)) s2 = Ok (nodes, s').
Proof.
  intros Hfuel.
  rewrite (bind_Ok get_state _ s2 s2 s2 eq_refl).
  rewrite (bind_Ok (put_state _) _ s2 tt _ eq_refl).
  rewrite (bind_Ok (rd (seek modelOffset)) _ _ tt _ eq_refl).
  match goal with
  | |- exists _ _, bind (readNode _) _ ?st = _ => set (sB := st)
  end.
  assert (Hwf : wf (st_reader sB)) by (unfold wf; cbn; lia).
  assert (Hok : nodes_ok sB).
  { split; cbn; [apply NoDup_nil_2 | apply Forall_nil_2]. }
  destruct (readNode_total fuel sB Hwf Hok) as (s'' & Hrun' & Hpost).
  { unfold unvisited_bound, size. subst sB. cbn. lia. }
  rewrite (bind_Ok _ _ _ _ _ Hrun').
  rewrite (bind_Ok get_state _ s'' s'' s'' eq_refl).
  eexists _, _. reflexivity.
Qed.

(** X22: whatever the texture section does, a [load] that returns gives a
    node list without a repeated address, each address that of a 64-byte
    record inside the buffer the loader then holds; and for a buffer that
    starts with the signature and names no texture section (offset 0 or
    past the end), [load] does return, for every amount of fuel above the
    buffer length, from any earlier loader state. *)
Theorem load_node_list (fuel : nat) (buf : list byte) (sec : Secondary)
    (s : State) :
  (forall nodes s',
     load fuel buf sec s = Ok (nodes, s') ->
     NoDup (map n_addr nodes) /\ st_nodes s' = nodes
     /\ Forall (fun a => 0 <= a <= size (st_reader s') - 64)
               (map n_addr nodes))
  /\ (forall texOffset,
        chars_until_nul (take 4 buf) = "HRCM"%string ->
        DataView.getUint32 buf 4 = Some texOffset ->
        texOffset = 0 \/ Z.of_nat (length buf) <= texOffset ->
        (length buf < fuel)%nat ->
        exists nodes s',
          load fuel buf sec s = Ok (nodes, s')
          /\ buffer (st_reader s') = buf).
Proof.
  split.
  - intros nodes s' Hrun. unfold load in Hrun.
    bind_inv Hrun. injection Hm as <- <-.
    bind_inv Hrun. clear Hm.
    bind_inv Hrun. clear Hm.
    destruct (negb (String.eqb _ "HRCM")); [discriminate Hrun | ].
    bind_inv Hrun. clear Hm. bind_inv Hrun. clear Hm.
    bind_inv Hrun. clear Hm. bind_inv Hrun. clear Hm.
    bind_inv Hrun. clear Hm.
    destruct (node_phase_post _ _ _ _ _ Hrun) as (Hnd & Hnodes & Hbuf & Hrange).
    split; [exact Hnd | ]. split; [exact Hnodes | ].
    unfold size in *. rewrite Hbuf. exact Hrange.
  - intros texOffset Hmagic Htex Hnone Hfuel. unfold load.
    rewrite (bind_Ok get_state _ s s s eq_refl).
    rewrite (bind_Ok (put_state _) _ s tt _ eq_refl).
    assert (Hlen : 8 <= Z.of_nat (length buf)).
    { apply getUint32_inside in Htex. lia. }
    destruct (readString_loop_window 4 EmptyString (Reader.new buf))
      as (r1 & Hsig & Hbuf1 & Hoff1); [unfold wf; cbn; lia | ].
    cbn [Reader.new offset buffer] in Hsig, Hoff1, Hbuf1.
    change (drop (Z.to_nat 0) buf) with buf in Hsig.
    rewrite Hmagic in Hsig.
    change ("" ++ "HRCM")%string with "HRCM"%string in Hsig.
    change (Z.of_nat 4) with 4 in Hoff1. unfold size in Hoff1.
    cbn [buffer Reader.new] in Hoff1. specialize (Hoff1 ltac:(lia)).
    assert (Hr1 : r1 = mkReader buf 4).
    { destruct r1 as [b o]. cbn in *. subst. reflexivity. }
    subst r1. clear Hbuf1 Hoff1.
    set (s0 := set_reader s (Reader.new buf)).
    assert (Hsig' : rd (readString 4) s0 = Ok ("HRCM"%string, set_reader s0 (mkReader buf 4))).
    { apply rd_Ok. exact Hsig. }
    rewrite (bind_Ok _ _ _ _ _ Hsig').
    change (negb (String.eqb "HRCM" "HRCM")) with false. cbv iota.
    assert (Htex' : rd readUInt32 (set_reader s0 (mkReader buf 4))
                    = Ok (texOffset,
                          set_reader (set_reader s0 (mkReader buf 4))
                                     (mkReader buf 8))).
    { apply rd_Ok. cbn [st_reader set_reader]. unfold readUInt32.
      apply (readFixed_avail 4 0 DataView.getUint32 (mkReader buf 4) texOffset);
        [unfold size; cbn [buffer offset]; lia | exact Htex]. }
    rewrite (bind_Ok _ _ _ _ _ Htex').
    destruct (readUInt32_cursor (mkReader buf 8)) as (modelOffset & Hmo & _);
      [unfold wf; cbn; lia | ].
    rewrite (bind_Ok _ _ _ _ _
               (rd_Ok readUInt32
                      (set_reader (set_reader s0 (mkReader buf 4))
                                  (mkReader buf 8)) _ _ Hmo)).
    match goal with
    | |- exists _ _, bind get_state _ ?sA = _ /\ _ =>
        rewrite (bind_Ok get_state _ sA sA sA eq_refl)
    end.
    rewrite (bind_Ok (put_state _) _ _ tt _ eq_refl).
    cbn [st_reader set_reader].
    assert (Hskip : (0 <? texOffset)
                    && (texOffset <? size (after_read 4 (mkReader buf 8)))
                    = false).
    { destruct Hnone as [-> | Hbig]; [reflexivity | ].
      apply andb_false_iff. right. apply Z.ltb_ge. exact Hbig. }
    rewrite Hskip.
    match goal with
    | |- exists _ _, bind (ret tt) _ ?sA = _ /\ _ =>
        rewrite (bind_Ok (ret tt) _ sA tt sA eq_refl)
    end.
    match goal with
    | |- exists _ _, ?m ?sA = _ /\ _ =>
        destruct (node_phase_total fuel modelOffset sA) as (nodes & s' & Hrun);
          [cbn [st_reader after_read set_offset buffer]; exact Hfuel | ]
    end.
    exists nodes, s'. split; [exact Hrun | ].
    destruct (node_phase_post _ _ _ _ _ Hrun) as (_ & _ & Hbuf & _).
    rewrite Hbuf. reflexivity.
Qed.

End Load.

Lemma load_node_list_witness :
  let buf := bytes ([72; 82; 67; 77] ++ [0; 0; 0; 0] ++ [12; 0; 0; 0]
                    ++ replicate 64 0) in
  exists nodes s',
    Mt5Loader.load 77 buf NoSecondary Mt5Loader.initial = Ok (nodes, s')
    /\ buffer (st_reader s') = buf
    /\ NoDup (map n_addr nodes).
Proof.
  intros buf.
  destruct (load_node_list 77 buf NoSecondary Mt5Loader.initial)
    as [Hpost Hruns].
  destruct (Hruns 0) as (nodes & s' & Hrun & Hbuf).
  - vm_compute. reflexivity.
  - vm_compute. reflexivity.
  - left. reflexivity.
  - vm_compute. lia.
  - exists nodes, s'. split; [exact Hrun | ]. split; [exact Hbuf | ].
    apply (Hpost nodes s' Hrun).
Defined.

(** ** Mt5Loader: the slots a directory pass fills *)

Lemma rd_sets {A : Type} (m : M BinaryReader A) s a s' :
  Mt5Loader.rd m s = Ok (a, s') -> st_cacheSets s' = st_cacheSets s.
Proof.
  unfold Mt5Loader.rd. destruct (m (st_reader s)) as [[a' r'] | e | ]; try discriminate.
  intros [= _ <-]. reflexivity.
Qed.

Lemma get_state_sets (s a s' : State) :
  get_state s = Ok (a, s') -> st_cacheSets s' = st_cacheSets s.
Proof. intros [= _ <-]. reflexivity. Qed.

Lemma decodePvr_sets buf s a s' :
  Mt5Loader.decodePvr buf s = Ok (a, s') -> st_cacheSets s' = st_cacheSets s.
Proof.
  unfold Mt5Loader.decodePvr. destruct (PvrDecoder.decodeBuffer buf); try discriminate.
  intros [= _ <-]. reflexivity.
Qed.

Lemma onReader_sets {A : Type} (m : M BinaryReader A) sec s a s' :
  Mt5Loader.onReader m sec s = Ok (a, s') -> st_cacheSets s' = st_cacheSets s.
Proof.
  unfold Mt5Loader.onReader. destruct (m sec) as [[a' r'] | e | ]; try discriminate.
  intros [= _ <-]. reflexivity.
Qed.

Lemma cacheHas_sets k s a s' :
  Mt5Loader.cacheHas k s = Ok (a, s') -> st_cacheSets s' = st_cacheSets s.
Proof. intros [= _ <-]. reflexivity. Qed.

Lemma cacheSet_sets k tex s a s' :
  Mt5Loader.cacheSet k tex s = Ok (a, s') -> st_cacheSets s' = st_cacheSets s ++ [k].
Proof. intros [= _ <-]. reflexivity. Qed.

(** One step of a run that returned: split off the first call and record
    what it did to the history. *)
Ltac sets_step H :=
  let a := fresh "a" in
  let s := fresh "s" in
  let Hm := fresh "Hsets" in
  apply bind_Ok_inv in H as (a & s & Hm & H);
  first [ apply rd_sets in Hm
        | apply get_state_sets in Hm
        | apply decodePvr_sets in Hm
        | apply onReader_sets in Hm
        | apply cacheHas_sets in Hm
        | apply cacheSet_sets in Hm ].

Section SlotHistory.
Import Reader Mt5Loader.

Lemma texnScan_sets (fuel : nat) (nodeEnd texCounter : Z) :
  forall s s',
    texnScan fuel nodeEnd texCounter s = Ok (tt, s') ->
    st_cacheSets s' = st_cacheSets s
    \/ st_cacheSets s' = st_cacheSets s ++ [texCounter].
Proof.
  induction fuel as [ | fuel IH]; intros s s' Hrun; cbn [texnScan] in Hrun;
    [discriminate Hrun | ].
  sets_step Hrun.
  destruct (negb (_ <? nodeEnd - 4)).
  - unfold ret in Hrun. injection Hrun as <-. left. congruence.
  - sets_step Hrun. destruct (String.eqb _ "PVRT").
    + sets_step Hrun. sets_step Hrun. sets_step Hrun.
      apply cacheSet_sets in Hrun. right. congruence.
    + sets_step Hrun. apply IH in Hrun.
      destruct Hrun as [Hrun | Hrun]; [left | right]; congruence.
Qed.

Lemma packScan_sets (fuel : nat) (reqHi reqLo index : Z) :
  forall sec s sec' s',
    packScan fuel reqHi reqLo index sec s = Ok (sec', s') ->
    st_cacheSets s' = st_cacheSets s
    \/ st_cacheSets s' = st_cacheSets s ++ [index].
Proof.
  induction fuel as [ | fuel IH]; intros sec s sec' s' Hrun;
    cbn [packScan] in Hrun; [discriminate Hrun | ].
  destruct (negb (offset sec <? size sec - 12)).
  { ret_inv Hrun. left. reflexivity. }
  destruct (DataView.getUint32 (buffer sec) (offset sec));
    [ | discriminate Hrun].
  destruct (DataView.getUint32 (buffer sec) (offset sec + 4));
    [ | discriminate Hrun].
  destruct (DataView.getUint32 (buffer sec) (offset sec + 8));
    [ | discriminate Hrun].
  destruct ((_ =? 0) || (0x1000000 <? _)).
  { ret_inv Hrun. left. reflexivity. }
  sets_step Hrun. destruct ((_ =? reqHi) && (_ =? reqLo)).
  - sets_step Hrun. sets_step Hrun. ret_inv Hrun. right. congruence.
  - sets_step Hrun. apply IH in Hrun.
    destruct Hrun as [Hrun | Hrun]; [left | right]; congruence.
Qed.

Lemma resolveAll_sets (fuel : nat) :
  forall reqs sec s sec' s',
    resolveAll fuel reqs sec s = Ok (sec', s') ->
    exists w,
      st_cacheSets s' = st_cacheSets s ++ w
      /\ Forall (fun k => k ∈ map req_index reqs) w
      /\ (NoDup (map req_index reqs) -> NoDup w).
Proof.
  induction reqs as [ | req rest IH]; intros sec s sec' s' Hrun;
    cbn [resolveAll] in Hrun.
  - ret_inv Hrun. exists []. rewrite app_nil_r.
    split; [reflexivity | ]. split; [apply Forall_nil_2 | intros _; apply NoDup_nil_2].
  - destruct (Z.of_nat (length (req_id req)) <? 8); [discriminate Hrun | ].
    destruct (DataView.getUint32 (req_id req) 0); [ | discriminate Hrun].
    destruct (DataView.getUint32 (req_id req) 4); [ | discriminate Hrun].
    sets_step Hrun.
    apply bind_Ok_inv in Hrun as (sec1 & s1 & Hscan & Hrun).
    apply packScan_sets in Hscan. apply IH in Hrun as (w & Hw & Hin & Hnd).
    cbn [map].
    assert (Hin' : Forall (fun k => k ∈ req_index req :: map req_index rest) w).
    { eapply Forall_impl; [exact Hin | ]. intros k Hk.
      apply list_elem_of_further, Hk. }
    destruct Hscan as [Hscan | Hscan].
    + exists w. split; [congruence | ]. split; [exact Hin' | ].
      intros Hnodup. apply NoDup_cons in Hnodup as [_ Hnodup]. auto.
    + exists (req_index req :: w). split.
      * rewrite Hw, Hscan, Hsets, <- app_assoc. reflexivity.
      * split; [apply Forall_cons_2; [apply list_elem_of_here | exact Hin'] | ].
        intros Hnodup. apply NoDup_cons in Hnodup as [Hfresh Hnodup].
        apply NoDup_cons. split; [ | auto].
        intros Hw'. apply Hfresh.
        rewrite Forall_forall in Hin. exact (Hin _ Hw').
Qed.

Variables (nbTex : Z) (skipExisting : bool).

Lemma nameLoop_sets (n : nat) :
  forall texCounter reqs s res s',
    texCounter < nbTex ->
    nameLoop nbTex skipExisting n texCounter reqs s = Ok (res, s') ->
    st_cacheSets s' = st_cacheSets s
    /\ texCounter <= res.1 <= nbTex
    /\ exists new,
         res.2 = reqs ++ new
         /\ NoDup (map req_index new)
         /\ Forall (fun k => texCounter <= k < res.1) (map req_index new).
Proof.
  induction n as [ | n IH]; intros texCounter reqs s res s' Hlt Hrun;
    cbn [nameLoop] in Hrun.
  - ret_inv Hrun. cbn [fst snd]. split; [reflexivity | ]. split; [lia | ].
    exists []. rewrite app_nil_r. split; [reflexivity | ].
    split; [apply NoDup_nil_2 | apply Forall_nil_2].
  - sets_step Hrun. sets_step Hrun.
    destruct (skipExisting && _).
    + destruct (Z.leb_spec nbTex (texCounter + 1)) as [Hlast | Hmore].
      * ret_inv Hrun. cbn [fst snd]. split; [congruence | ]. split; [lia | ].
        exists []. rewrite app_nil_r. split; [reflexivity | ].
        split; [apply NoDup_nil_2 | apply Forall_nil_2].
      * apply IH in Hrun as (Hs & Hres & new & Hnew & Hnd & Hrange);
          [ | exact Hmore].
        split; [congruence | ]. split; [lia | ].
        exists new. split; [exact Hnew | ]. split; [exact Hnd | ].
        eapply Forall_impl; [exact Hrange | ]. cbv beta. intros k Hk. lia.
    + destruct (Z.leb_spec nbTex (texCounter + 1)) as [Hlast | Hmore].
      * ret_inv Hrun. cbn [fst snd]. split; [congruence | ]. split; [lia | ].
        eexists [_]. split; [reflexivity | ]. cbn [map req_index].
        split; [apply NoDup_singleton | ].
        apply Forall_singleton. lia.
      * apply IH in Hrun as (Hs & Hres & new & Hnew & Hnd & Hrange);
          [ | exact Hmore].
        split; [congruence | ]. split; [lia | ].
        eexists (_ :: new). split; [rewrite Hnew, <- app_assoc; reflexivity | ].
        cbn [map req_index]. split.
        -- apply NoDup_cons. split; [ | exact Hnd].
           intros Hin. rewrite Forall_forall in Hrange.
           specialize (Hrange _ Hin). lia.
        -- apply Forall_cons_2; [lia | ].
           eapply Forall_impl; [exact Hrange | ]. cbv beta. intros k Hk. lia.
Qed.

Lemma slots_extend (tc tc' : Z) (w0 w1 : list Z) (new0 new1 : list NameRequest) :
  tc <= tc' <= nbTex ->
  NoDup (w0 ++ map req_index new0) ->
  Forall (fun k => tc <= k < tc') (w0 ++ map req_index new0) ->
  NoDup (w1 ++ map req_index new1) ->
  Forall (fun k => tc' <= k < nbTex) (w1 ++ map req_index new1) ->
  NoDup ((w0 ++ w1) ++ map req_index (new0 ++ new1))
  /\ Forall (fun k => tc <= k < nbTex)
            ((w0 ++ w1) ++ map req_index (new0 ++ new1)).
Proof.
  intros Hle Hnd0 Hr0 Hnd1 Hr1.
  assert (Hperm : (w0 ++ w1) ++ map req_index (new0 ++ new1)
                  ≡ₚ (w0 ++ map req_index new0) ++ (w1 ++ map req_index new1)).
  { rewrite map_app. rewrite <- !app_assoc. apply Permutation_app_head.
    rewrite !app_assoc. apply Permutation_app_tail. apply Permutation_app_comm. }
  split.
  - rewrite Hperm. apply NoDup_app. split; [exact Hnd0 | ].
    split; [ | exact Hnd1].
    intros k Hk0 Hk1. rewrite Forall_forall in Hr0, Hr1.
    specialize (Hr0 _ Hk0). specialize (Hr1 _ Hk1). lia.
  - rewrite Hperm. apply Forall_app. split.
    + eapply Forall_impl; [exact Hr0 | ]. cbv beta. intros k Hk. lia.
    + eapply Forall_impl; [exact Hr1 | ]. cbv beta. intros k Hk. lia.
Qed.

Lemma dirLoop_sets (scanFuel fuel : nat) :
  forall texCounter reqs s reqs' s',
    dirLoop nbTex skipExisting scanFuel fuel texCounter reqs s
    = Ok (reqs', s') ->
    exists w new,
      st_cacheSets s' = st_cacheSets s ++ w
      /\ reqs' = reqs ++ new
      /\ NoDup (w ++ map req_index new)
      /\ Forall (fun k => texCounter <= k < nbTex) (w ++ map req_index new).
Proof.
  induction fuel as [ | fuel IH]; intros texCounter reqs s reqs' s' Hrun;
    cbn [dirLoop] in Hrun; [discriminate Hrun | ].
  assert (Hstop : forall s0 : State,
             st_cacheSets s0 = st_cacheSets s ->
             exists w new,
               st_cacheSets s0 = st_cacheSets s ++ w
               /\ reqs = reqs ++ new
               /\ NoDup (w ++ map req_index new)
               /\ Forall (fun k => texCounter <= k < nbTex)
                         (w ++ map req_index new)).
  { intros s0 Hs0. exists [], []. rewrite !app_nil_r. cbn [map app].
    split; [exact Hs0 | ]. split; [reflexivity | ].
    split; [apply NoDup_nil_2 | apply Forall_nil_2]. }
  (* a pass that fills slot [texCounter] or leaves it, then goes on at the
     next slot *)
  assert (Hslot : forall (s1 : State) (w0 : list Z),
             texCounter < nbTex ->
             st_cacheSets s1 = st_cacheSets s ++ w0 ->
             w0 = [] \/ w0 = [texCounter] ->
             dirLoop nbTex skipExisting scanFuel fuel (texCounter + 1) reqs s1
             = Ok (reqs', s') ->
             exists w new,
               st_cacheSets s' = st_cacheSets s ++ w
               /\ reqs' = reqs ++ new
               /\ NoDup (w ++ map req_index new)
               /\ Forall (fun k => texCounter <= k < nbTex)
                         (w ++ map req_index new)).
  { intros s1 w0 Hlt Hs1 Hw0 Hloop.
    apply IH in Hloop as (w1 & new1 & Hs' & Hreqs' & Hnd1 & Hr1).
    exists (w0 ++ w1), new1.
    split; [rewrite Hs', Hs1, <- app_assoc; reflexivity | ].
    split; [exact Hreqs' | ].
    destruct (slots_extend texCounter (texCounter + 1) w0 w1 [] new1)
      as [Hnd Hr]; try assumption; try lia.
    - cbn [map]. rewrite app_nil_r.
      destruct Hw0 as [-> | ->]; [apply NoDup_nil_2 | apply NoDup_singleton].
    - cbn [map]. rewrite app_nil_r.
      destruct Hw0 as [-> | ->];
        [apply Forall_nil_2 | apply Forall_singleton; lia].
    - cbn [app] in Hnd, Hr. auto. }
  sets_step Hrun.
  destruct (Z.ltb_spec texCounter nbTex) as [Hlt | Hge]; cbn [andb negb] in Hrun;
    [ | ret_inv Hrun; apply Hstop; congruence].
  destruct (canRead _ 8); cbn [negb] in Hrun;
    [ | ret_inv Hrun; apply Hstop; congruence].
  sets_step Hrun. sets_step Hrun.
  destruct ((_ <? 8) || (0x1000000 <? _));
    [ret_inv Hrun; apply Hstop; congruence | ].
  destruct (String.eqb _ "TEXN").
  { sets_step Hrun. destruct (skipExisting && _).
    - sets_step Hrun.
      apply (Hslot _ []) in Hrun; [exact Hrun | exact Hlt | | left; reflexivity].
      rewrite app_nil_r. congruence.
    - sets_step Hrun.
      apply bind_Ok_inv in Hrun as ([] & s5 & Hscan & Hrun).
      apply texnScan_sets in Hscan. sets_step Hrun.
      destruct Hscan as [Hscan | Hscan].
      + apply (Hslot _ []) in Hrun;
          [exact Hrun | exact Hlt | | left; reflexivity].
        rewrite app_nil_r. congruence.
      + apply (Hslot _ [texCounter]) in Hrun;
          [exact Hrun | exact Hlt | | right; reflexivity].
        congruence. }
  destruct (String.eqb _ "NAME").
  { apply bind_Ok_inv in Hrun as (res & s3 & Hnames & Hrun).
    apply nameLoop_sets in Hnames as (Hs3 & Hres & new0 & Hnew0 & Hnd0 & Hr0);
      [ | exact Hlt].
    sets_step Hrun.
    apply IH in Hrun as (w1 & new1 & Hs' & Hreqs' & Hnd1 & Hr1).
    exists w1, (new0 ++ new1).
    split; [congruence | ].
    split; [rewrite Hreqs', Hnew0, <- app_assoc; reflexivity | ].
    destruct (slots_extend texCounter res.1 [] w1 new0 new1) as [Hnd Hr];
      try assumption; try lia.
    cbn [app] in Hnd, Hr. auto. }
  destruct (String.eqb _ "PVRT").
  { sets_step Hrun. destruct (skipExisting && _).
    - sets_step Hrun.
      apply (Hslot _ []) in Hrun; [exact Hrun | exact Hlt | | left; reflexivity].
      rewrite app_nil_r. congruence.
    - sets_step Hrun. sets_step Hrun. sets_step Hrun. sets_step Hrun.
      sets_step Hrun.
      apply (Hslot _ [texCounter]) in Hrun;
        [exact Hrun | exact Hlt | | right; reflexivity].
      congruence. }
  sets_step Hrun.
  apply IH in Hrun as (w1 & new1 & Hs' & Hreqs' & Hnd1 & Hr1).
  exists w1, new1. split; [congruence | ]. auto.
Qed.

End SlotHistory.

Section DirectoryPass.
Import Reader Mt5Loader.

Lemma rd_run {A : Type} (m : M BinaryReader A) s a s' :
  rd m s = Ok (a, s') -> m (st_reader s) = Ok (a, st_reader s').
Proof.
  unfold rd. destruct (m (st_reader s)) as [[a' r'] | e | ]; try discriminate.
  intros [= <- <-]. reflexivity.
Qed.

(** X23: in one directory pass every slot is filled at most once, and only
    slots below the texture count the directory header declares: the keys
    passed to [textureCache.set] during a [readTextures] that returns are
    pairwise distinct, not negative and below that count, whatever
    [skipExisting] and the packs are. *)
Theorem readTextures_fills_each_slot_once (fuel : nat)
    (secondaryReader : option BinaryReader) (skipExisting : bool)
    (s s' : State) :
  readTextures fuel secondaryReader skipExisting s = Ok (tt, s') ->
  exists w,
    st_cacheSets s' = st_cacheSets s ++ w
    /\ NoDup w
    /\ Forall (fun k => 0 <= k < declaredCount (st_reader s)) w.
Proof.
  intros Hrun. unfold readTextures in Hrun.
  assert (Hnone : forall s0 : State,
             st_cacheSets s0 = st_cacheSets s ->
             exists w, st_cacheSets s0 = st_cacheSets s ++ w /\ NoDup w
                       /\ Forall (fun k => 0 <= k < declaredCount (st_reader s)) w).
  { intros s0 Hs0. exists []. rewrite app_nil_r.
    split; [exact Hs0 | ]. split; [apply NoDup_nil_2 | apply Forall_nil_2]. }
  apply bind_Ok_inv in Hrun as (texdStart & s1 & Htell & Hrun).
  assert (Hr1 : st_reader s1 = st_reader s).
  { unfold rd, tell in Htell. injection Htell as _ <-. reflexivity. }
  apply rd_sets in Htell.
  apply bind_Ok_inv in Hrun as (tag & s2 & Htag & Hrun).
  pose proof (rd_run _ _ _ _ Htag) as Htag'. apply rd_sets in Htag.
  destruct (negb (String.eqb tag "TEXD")).
  { unfold ret in Hrun. injection Hrun as <-. apply Hnone. congruence. }
  apply bind_Ok_inv in Hrun as (headerSize & s3 & Hsize & Hrun).
  pose proof (rd_run _ _ _ _ Hsize) as Hsize'. apply rd_sets in Hsize.
  apply bind_Ok_inv in Hrun as (nbTex & s4 & Hcount & Hrun).
  pose proof (rd_run _ _ _ _ Hcount) as Hcount'. apply rd_sets in Hcount.
  assert (Hdeclared : declaredCount (st_reader s) = nbTex).
  { unfold declaredCount. rewrite <- Hr1.
    rewrite (bind_Ok _ _ _ _ _ Htag'), (bind_Ok _ _ _ _ _ Hsize'), Hcount'.
    reflexivity. }
  sets_step Hrun.
  apply bind_Ok_inv in Hrun as (reqs & s6 & Hdir & Hrun).
  apply dirLoop_sets in Hdir as (wd & new & Hs6 & Hreqs & Hnd & Hrange).
  cbn [app] in Hreqs. subst reqs.
  assert (Hdirect : exists w, st_cacheSets s6 = st_cacheSets s ++ w /\ NoDup w
             /\ Forall (fun k => 0 <= k < declaredCount (st_reader s)) w).
  { exists wd. split; [congruence | ].
    split; [apply NoDup_app in Hnd; tauto | ].
    rewrite Hdeclared. apply Forall_app in Hrange as [Hrange _]. exact Hrange. }
  destruct secondaryReader as [sec | ];
    [ | unfold ret in Hrun; injection Hrun as <-; exact Hdirect].
  destruct (0 <? Z.of_nat (length new));
    [ | unfold ret in Hrun; injection Hrun as <-; exact Hdirect].
  apply bind_Ok_inv in Hrun as (sec' & s7 & Hres & Hrun).
  unfold ret in Hrun. injection Hrun as <-.
  apply resolveAll_sets in Hres as (wr & Hs7 & Hin & Hndr).
  exists (wd ++ wr). split; [rewrite Hs7, Hs6; rewrite <- app_assoc; congruence | ].
  apply NoDup_app in Hnd as (Hndd & Hdisj & Hndn).
  rewrite Forall_forall in Hin. split.
  - apply NoDup_app. split; [exact Hndd | ]. split; [ | auto].
    intros k Hk Hk'. exact (Hdisj k Hk (Hin k Hk')).
  - rewrite Hdeclared. apply Forall_app. apply Forall_app in Hrange as [Hd Hn].
    split; [exact Hd | ]. apply Forall_forall. intros k Hk.
    rewrite Forall_forall in Hn. exact (Hn k (Hin k Hk)).
Qed.

End DirectoryPass.

Lemma readTextures_fills_each_slot_once_witness :
  exists s' w,
    Mt5Loader.readTextures 100 (Some (Reader.new base_pack)) false
                           two_slot_start = Ok (tt, s')
    /\ st_cacheSets s' = st_cacheSets two_slot_start ++ w
    /\ NoDup w.
Proof.
  assert (Heval : exists s',
             Mt5Loader.readTextures 100 (Some (Reader.new base_pack)) false
                                    two_slot_start = Ok (tt, s')).
  { eexists. vm_compute. reflexivity. }
  destruct Heval as (s' & Hrun).
  destruct (readTextures_fills_each_slot_once _ _ _ _ _ Hrun)
    as (w & Hsets & Hnd & _).
  exists s', w. split; [exact Hrun | ]. split; [exact Hsets | exact Hnd].
Defined.

(** ** Mt5Loader: when the pack scan and the tag scan return *)

Section PackScan.
Import Reader Mt5Loader.






End PackScan.

Section TagScan.
Import Reader Mt5Loader.


End TagScan.


(** ** PvrDecoder: the pixels of the VQ path *)

Section VQPixels.
Import Reader PvrDecoder.

Variables (width height colorFormat : Z).
Hypothesis Hwidth : 2 <= width.
Hypothesis Heven : width mod 2 = 0.





Variables (start : Z) (codebook : list (list Z)).
Hypothesis Hcodebook : Z.of_nat (length codebook) = 256.



End VQPixels.

Section VQImage.
Import Reader PvrDecoder.



End VQImage.

(** ** Mt5Loader: the node record *)

Section NodeRecord.
Import Reader Mt5Loader.

Lemma rd_u32_exact {B : Type} (k : Z -> M State B) s :
  wf (st_reader s) ->
  offset (st_reader s) + 4 <= size (st_reader s) ->
  exists v,
    DataView.getUint32 (buffer (st_reader s)) (offset (st_reader s)) = Some v
    /\ bind (rd readUInt32) k s
       = k v (set_reader s (set_offset (st_reader s)
                                       (offset (st_reader s) + 4))).
Proof.
  intros Hwf Hin.
  destruct (getUint32_Some (buffer (st_reader s)) (offset (st_reader s)))
    as (v & Hv & _); [exact Hwf | exact Hin | ].
  exists v. split; [exact Hv | ].
  rewrite (bind_Ok _ _ _ _ _
             (rd_Ok readUInt32 s _ _
                (readFixed_avail 4 0 DataView.getUint32 _ v Hin Hv))).
  reflexivity.
Qed.

Lemma rd_i32_exact {B : Type} (k : Z -> M State B) s :
  wf (st_reader s) ->
  offset (st_reader s) + 4 <= size (st_reader s) ->
  exists v,
    bind (rd readInt32) k s
    = k v (set_reader s (set_offset (st_reader s)
                                    (offset (st_reader s) + 4))).
Proof.
  intros Hwf Hin.
  destruct (getUint32_Some (buffer (st_reader s)) (offset (st_reader s)))
    as (v & Hv & _); [exact Hwf | exact Hin | ].
  assert (Hs : DataView.getInt32 (buffer (st_reader s)) (offset (st_reader s))
               = Some (DataView.signed 32 v)).
  { unfold DataView.getInt32. rewrite Hv. reflexivity. }
  exists (DataView.signed 32 v).
  rewrite (bind_Ok _ _ _ _ _
             (rd_Ok readInt32 s _ _
                (readFixed_avail 4 0 DataView.getInt32 _ _ Hin Hs))).
  reflexivity.
Qed.

Lemma rd_f32_exact {B : Type} (k : F32 -> M State B) s :
  wf (st_reader s) ->
  offset (st_reader s) + 4 <= size (st_reader s) ->
  exists v,
    bind (rd readFloat32) k s
    = k v (set_reader s (set_offset (st_reader s)
                                    (offset (st_reader s) + 4))).
Proof.
  intros Hwf Hin.
  destruct (getUint32_Some (buffer (st_reader s)) (offset (st_reader s)))
    as (v & Hv & _); [exact Hwf | exact Hin | ].
  assert (Hs : mkF32 <$> DataView.getUint32 (buffer (st_reader s))
                                            (offset (st_reader s))
               = Some (mkF32 v)).
  { rewrite Hv. reflexivity. }
  exists (mkF32 v).
  rewrite (bind_Ok _ _ _ _ _
             (rd_Ok readFloat32 s _ _
                (readFixed_avail 4 f32_zero
                   (fun buf pos => mkF32 <$> DataView.getUint32 buf pos)
                   _ _ Hin Hs))).
  reflexivity.
Qed.

Ltac node_state :=
  cbv beta; unfold set_reader, set_offset in *;
  cbn [st_reader st_textureCache st_globalVertices st_vertexOffset
       st_nodes st_cacheSets buffer offset] in *.

Ltac node_side :=
  unfold wf, size, set_reader, set_offset in *;
  cbn [st_reader buffer offset] in *; lia.

Ltac node_u32 v Hv :=
  lazymatch goal with
  | |- context [bind (rd readUInt32) ?k ?s] =>
      let H := fresh "Hstep" in
      destruct (rd_u32_exact k s) as (v & Hv & H);
      [node_side | node_side | rewrite H; clear H; node_state]
  end.

Ltac node_i32 v :=
  lazymatch goal with
  | |- context [bind (rd readInt32) ?k ?s] =>
      let H := fresh "Hstep" in
      destruct (rd_i32_exact k s) as (v & H);
      [node_side | node_side | rewrite H; clear H; node_state]
  end.

Ltac node_f32 v :=
  lazymatch goal with
  | |- context [bind (rd readFloat32) ?k ?s] =>
      let H := fresh "Hstep" in
      destruct (rd_f32_exact k s) as (v & H);
      [node_side | node_side | rewrite H; clear H; node_state]
  end.

(** X27: at an address not yet visited where 64 bytes are left, [readNode]
    appends the record at that address before anything it reaches through
    it (the list is in pre-order), with the flag, the model address, the
    child, the sibling and the parent address taken from the offsets 0, 4,
    44, 48 and 52 of the record; the node has a model exactly when its
    model address is valid. *)
Theorem readNode_records_head (fuel : nat) (s : State) :
  wf (st_reader s) ->
  nodes_ok s ->
  (length (buffer (st_reader s)) <= fuel)%nat ->
  canRead (st_reader s) 64 = true ->
  visited (st_nodes s) (offset (st_reader s)) = false ->
  exists nd rest s',
    readNode (S fuel) s = Ok (tt, s')
    /\ st_nodes s' = st_nodes s ++ nd :: rest
    /\ n_addr nd = offset (st_reader s)
    /\ (let field k := DataView.getUint32 (buffer (st_reader s))
                                          (offset (st_reader s) + k) in
        field 0 = Some (n_flag nd)
        /\ field 4 = Some (n_modelAddr nd)
        /\ field 44 = Some (n_child nd)
        /\ field 48 = Some (n_sibling nd)
        /\ field 52 = Some (n_parentAddr nd))
    /\ (n_model nd = None
        <-> validAddr (n_modelAddr nd) (size (st_reader s)) = false).
Proof.
  intros Hwf Hok Hfuel Hcan Hvis.
  pose proof (nodes_ok_bound s Hok) as Hbound0.
  assert (Hbound : unvisited_bound s < Z.of_nat (S fuel)).
  { unfold unvisited_bound, size in *. lia. }
  cbn [readNode]. rewrite (bind_Ok get_state _ s s s eq_refl).
  rewrite Hcan, Hvis. cbn [negb].
  assert (Hroom : offset (st_reader s) + 64 <= size (st_reader s))
    by (apply Z.leb_le; exact Hcan).
  set (sz := size (st_reader s)) in *.
  set (addr := offset (st_reader s)) in *.
  set (nodes0 := st_nodes s) in *.
  assert (Hsz : sz = Z.of_nat (length (buffer (st_reader s)))) by reflexivity.
  assert (Haddr : addr = offset (st_reader s)) by reflexivity.
  assert (Hnodes0 : nodes0 = st_nodes s) by reflexivity.
  clearbody sz addr nodes0.
  destruct s as [r c p vo nd cs]. node_state. subst addr. subst nodes0.
  unfold wf in Hwf. cbn [st_reader] in Hwf.
  node_u32 flag Hflag. node_u32 modelAddr HmodelAddr.
  node_i32 rx. node_i32 ry. node_i32 rz.
  node_f32 sx. node_f32 sy. node_f32 sz'.
  node_f32 px. node_f32 py. node_f32 pz.
  node_u32 child Hchild. node_u32 sibling Hsibling.
  node_u32 parentAddr HparentAddr.
  node_u32 unk1 Hunk1. node_u32 unk2 Hunk2.
  match goal with
  | |- context [bind ?blk _ ?st] =>
      lazymatch blk with
      | (if validAddr _ _ then _ else _) =>
          assert (Hblock : ssafe blk)
            by (pose proof readModel_ssafe as Hmodel; repeat ssafe_step);
          destruct (Hblock st) as (model & s1 & Hrun1 & Hwf1 & Hbuf1 & Hnodes1);
          [unfold wf; cbn; lia | ];
          assert (Hmodel : model = None <-> validAddr modelAddr sz = false)
      end
  end.
  { clear Hblock. destruct (validAddr modelAddr sz).
    - apply bind_Ok_inv in Hrun1 as (? & ? & _ & Hrun1).
      apply bind_Ok_inv in Hrun1 as (? & ? & _ & Hrun1).
      apply bind_Ok_inv in Hrun1 as (? & ? & _ & Hrun1).
      apply bind_Ok_inv in Hrun1 as (? & ? & _ & Hrun1).
      unfold ret in Hrun1. injection Hrun1 as <- _.
      split; discriminate.
    - unfold ret in Hrun1. injection Hrun1 as <- _. split; reflexivity. }
  rewrite (bind_Ok _ _ _ _ _ Hrun1). node_state.
  match goal with
  | |- context [pushNode ?n] => set (node := n)
  end.
  set (s2 := mkState (st_reader s1) (st_textureCache s1)
               (st_globalVertices s1) (st_vertexOffset s1)
               (st_nodes s1 ++ [node]) (st_cacheSets s1)).
  rewrite (bind_Ok (pushNode node) _ s1 tt s2 eq_refl).
  assert (Hwf2 : wf (st_reader s2)) by exact Hwf1.
  assert (Hok2 : nodes_ok s2).
  { destruct Hok as [Hnd Hin]. unfold nodes_ok, s2, size in *.
    cbn [st_reader st_nodes] in *. rewrite Hbuf1, Hnodes1, map_app.
    cbn [map n_addr node]. split.
    - apply NoDup_app. split; [exact Hnd | split; [ | apply NoDup_singleton]].
      intros a Ha Hsingle. apply list_elem_of_singleton in Hsingle. subst a.
      apply (visited_false_notin _ _ Hvis Ha).
    - apply Forall_app. split; [exact Hin | ].
      apply Forall_singleton. lia. }
  assert (Hbound2 : unvisited_bound s2 < Z.of_nat fuel).
  { unfold unvisited_bound, s2, size in *. cbn [st_reader st_nodes] in *.
    rewrite Hbuf1, Hnodes1, length_app. cbn [length]. lia. }
  destruct (descend_total fuel child sz s2 (readNode_total fuel)
              Hwf2 Hok2 Hbound2) as (s3 & Hrun3 & Hpost3).
  rewrite (bind_Ok _ _ _ _ _ Hrun3).
  pose proof (node_post_bound _ _ Hpost3) as Hbound3.
  destruct (descend_total fuel sibling sz s3 (readNode_total fuel))
    as (s4 & Hrun4 & Hpost4); [apply Hpost3 | apply Hpost3 | lia | ].
  destruct Hpost3 as (_ & _ & [new3 Hnew3] & _).
  destruct Hpost4 as (_ & _ & [new4 Hnew4] & _).
  exists node, (new3 ++ new4), s4. split; [exact Hrun4 | ].
  split.
  { rewrite Hnew4, Hnew3. unfold s2. cbn [st_nodes]. rewrite Hnodes1.
    cbn [st_nodes]. rewrite <- !app_assoc. reflexivity. }
  split; [reflexivity | ]. split; [ | exact Hmodel].
  cbn [node n_flag n_modelAddr n_child n_sibling n_parentAddr].
  repeat split.
  - rewrite <- Hflag. f_equal; lia.
  - rewrite <- HmodelAddr. f_equal; lia.
  - rewrite <- Hchild. f_equal; lia.
  - rewrite <- Hsibling. f_equal; lia.
  - rewrite <- HparentAddr. f_equal; lia.
Qed.

End NodeRecord.

Lemma readNode_records_head_witness :
  exists nd rest s',
    Mt5Loader.readNode 193 cyclic_start = Ok (tt, s')
    /\ st_nodes s' = st_nodes cyclic_start ++ nd :: rest
    /\ n_addr nd = 64.
Proof.
  destruct (readNode_records_head 192 cyclic_start)
    as (nd & rest & s' & Hrun & Hnodes & Haddr & _).
  - unfold Reader.wf. cbn. lia.
  - split; cbn; [apply NoDup_nil_2 | apply Forall_nil_2].
  - vm_compute. lia.
  - vm_compute. reflexivity.
  - vm_compute. reflexivity.
  - exists nd, rest, s'. split; [exact Hrun | ]. split; [exact Hnodes | ].
    rewrite Haddr. reflexivity.
Defined.

(** ** Viewer: stepping through the model list *)

Section Navigation.
Import Viewer.

(** X28: on a list that is not empty, [navigateModel] always lands on an
    item of the list, whatever the step and whether or not an item is
    active; from an active item a step of 1 goes to the next item and from
    the last to the first, a step of -1 to the previous and from the first
    to the last, so that a step forth and a step back return to the item
    they started from. *)
Theorem navigateIndex_cycles (n : Z) (cur : option Z) (dir i : Z) :
  0 < n ->
  0 <= navigateIndex n cur dir < n
  /\ (0 <= i < n ->
      navigateIndex n (Some i) 1 = (i + 1) mod n
      /\ navigateIndex n (Some i) (-1) = (i - 1) mod n
      /\ navigateIndex n (Some (navigateIndex n (Some i) 1)) (-1) = i
      /\ navigateIndex n (Some (navigateIndex n (Some i) (-1))) 1 = i).
Proof.
  intros Hn. split.
  - unfold navigateIndex. destruct cur as [c | ].
    + destruct (Z.ltb_spec (c + dir) 0);
        [destruct (Z.leb_spec n (n - 1)) | destruct (Z.leb_spec n (c + dir))];
        lia.
    + destruct (Z.ltb_spec 0 dir).
      * change (0 <? 0) with false. cbv iota.
        destruct (Z.leb_spec n 0); lia.
      * destruct (Z.ltb_spec (n - 1) 0); [lia | ].
        destruct (Z.leb_spec n (n - 1)); lia.
  - intros Hi.
    assert (Hnext : navigateIndex n (Some i) 1
                    = if i + 1 =? n then 0 else i + 1).
    { unfold navigateIndex.
      destruct (Z.ltb_spec (i + 1) 0); [lia | ].
      destruct (Z.leb_spec n (i + 1)), (Z.eqb_spec (i + 1) n); lia. }
    assert (Hprev : navigateIndex n (Some i) (-1)
                    = if i =? 0 then n - 1 else i - 1).
    { unfold navigateIndex.
      destruct (Z.ltb_spec (i + -1) 0), (Z.eqb_spec i 0); try lia.
      - destruct (Z.leb_spec n (n - 1)); lia.
      - destruct (Z.leb_spec n (i + -1)); lia. }
    split; [ | split; [ | split]].
    + rewrite Hnext. destruct (Z.eqb_spec (i + 1) n) as [-> | Hne].
      * symmetry. apply Z_mod_same_full.
      * symmetry. apply Z.mod_small. lia.
    + rewrite Hprev. destruct (Z.eqb_spec i 0) as [-> | Hne].
      * apply (Z.mod_unique (0 - 1) n (-1) (n - 1)); lia.
      * symmetry. apply Z.mod_small. lia.
    + rewrite Hnext. unfold navigateIndex.
      destruct (Z.eqb_spec (i + 1) n).
      * change (0 + -1 <? 0) with true. cbv iota.
        destruct (Z.leb_spec n (n - 1)); lia.
      * destruct (Z.ltb_spec (i + 1 + -1) 0); [lia | ].
        destruct (Z.leb_spec n (i + 1 + -1)); lia.
    + rewrite Hprev. unfold navigateIndex.
      destruct (Z.eqb_spec i 0).
      * destruct (Z.ltb_spec (n - 1 + 1) 0); [lia | ].
        destruct (Z.leb_spec n (n - 1 + 1)); lia.
      * destruct (Z.ltb_spec (i - 1 + 1) 0); [lia | ].
        destruct (Z.leb_spec n (i - 1 + 1)); lia.
Qed.

Lemma navigateIndex_cycles_witness :
  navigateIndex 5 (Some 4) 1 = (4 + 1) mod 5
  /\ navigateIndex 5 (Some (navigateIndex 5 (Some 4) 1)) (-1) = 4.
Proof.
  destruct (navigateIndex_cycles 5 None 1 4) as [_ Hcycle]; [lia | ].
  destruct Hcycle as (Hnext & _ & Hback & _); [lia | ].
  split; [exact Hnext | exact Hback].
Defined.

End Navigation.
